(** * LBBS: the IRC relay door ([doors/door_irc.c]) and thread joining
      ([bbs/thread.c]), embedded as executable Rocq definitions.

    Layout: the C library pieces the code relies on ([Libc]), the thread
    inventory ([Thread]), the door itself ([DoorIrc]); the properties follow
    the definitions. *)

From Stdlib Require Import ZArith Lia Ascii String.
From stdpp Require Import base option numbers list strings relations gmap pretty.

Local Open Scope Z_scope.

(* ===================================================================== *)
(** * C library                                                           *)
(* ===================================================================== *)

Module Libc.

(** ** NUL-terminated strings

    A [char *] that the code treats as text is a [string]; a pointer that
    may be NULL is an [option string]. *)

Definition NUL : ascii := "000"%char.
Definition CR : ascii := "013"%char.
Definition LF : ascii := "010"%char.
Definition SOH : ascii := "001"%char.

(** The line terminator of the protocol. *)
Notation "'CRLF'" := (String CR (String LF EmptyString)).

(** [strchr(s, c)]: offset of the first [c], NULL when there is none. *)
Fixpoint strchr (s : string) (c : ascii) : option nat :=
  match s with
  | EmptyString => None
  | String a s' => if Ascii.eqb a c then Some 0%nat else S <$> strchr s' c
  end.

(** The text left in [s] once [s[n]] has been overwritten with NUL. *)
Fixpoint str_take (n : nat) (s : string) : string :=
  match n, s with
  | S n', String a s' => String a (str_take n' s')
  | _, _ => EmptyString
  end.

(** [tmp = strchr(s, c); if (tmp) *tmp = '\0';] *)
Definition cut_at (s : string) (c : ascii) : string :=
  match strchr s c with
  | Some n => str_take n s
  | None => s
  end.

(** [tok = strsep(&s, d)] with the one-character delimiter set [d]: the
    token, and the new value of [s] (NULL when no delimiter was found). *)
Fixpoint strsep (s : string) (d : ascii) : string * option string :=
  match s with
  | EmptyString => (EmptyString, None)
  | String a s' =>
      if Ascii.eqb a d then (EmptyString, Some s')
      else let '(tok, rest) := strsep s' d in (String a tok, rest)
  end.

(** [strlen_zero(s)]: NULL or empty. *)
Definition strlen_zero (s : option string) : bool :=
  match s with
  | None => true
  | Some EmptyString => true
  | Some _ => false
  end.

Definition to_lower (c : ascii) : ascii :=
  let n := nat_of_ascii c in
  if (65 <=? n)%nat && (n <=? 90)%nat then ascii_of_nat (n + 32) else c.

(** [!strcasecmp(a, b)] *)
Fixpoint strcaseeq (a b : string) : bool :=
  match a, b with
  | EmptyString, EmptyString => true
  | String x a', String y b' => Ascii.eqb (to_lower x) (to_lower y) && strcaseeq a' b'
  | _, _ => false
  end.

(** What [printf("%s", p)] prints: glibc writes [(null)] for NULL. *)
Definition fmt_s (p : option string) : string := default "(null)" p.

(** ** [struct tm] and [strftime] in the C locale *)

Record tm := {
  tm_sec : Z; tm_min : Z; tm_hour : Z;
  tm_mday : Z; tm_mon : Z; tm_year : Z;
  tm_wday : Z; tm_yday : Z; tm_isdst : Z;
  tm_zone : string
}.

(** The ranges [localtime_r] guarantees for the fields the door prints. *)
Definition tm_valid (t : tm) : Prop :=
  0 <= tm_sec t <= 60 /\ 0 <= tm_min t <= 59 /\ 0 <= tm_hour t <= 23 /\
  1 <= tm_mday t <= 31 /\ 0 <= tm_mon t <= 11.

(** [%02d] and [%2d] *)
Definition pad_left (c : ascii) (w : nat) (s : string) : string :=
  String.string_of_list_ascii (replicate (w - String.length s) c) +:+ s.

Definition fmt_02d (n : Z) : string := pad_left "0" 2 (pretty n).
Definition fmt_2d (n : Z) : string := pad_left " " 2 (pretty n).

Definition hour12 (h : Z) : Z :=
  let r := h `mod` 12 in if r =? 0 then 12 else r.

Definition ampm_lower (h : Z) : string := if 11 <? h then "pm" else "am".

Definition abday (d : Z) : string :=
  nth (Z.to_nat d) ["Sun"; "Mon"; "Tue"; "Wed"; "Thu"; "Fri"; "Sat"] "?".

Definition abmon (m : Z) : string :=
  nth (Z.to_nat m)
    ["Jan"; "Feb"; "Mar"; "Apr"; "May"; "Jun";
     "Jul"; "Aug"; "Sep"; "Oct"; "Nov"; "Dec"] "?".

(** One conversion specification. *)
Definition strftime_conv (c : ascii) (t : tm) : string :=
  match c with
  | "m"%char => fmt_02d (tm_mon t + 1)
  | "d"%char => fmt_02d (tm_mday t)
  | "e"%char => fmt_2d (tm_mday t)
  | "I"%char => fmt_02d (hour12 (tm_hour t))
  | "M"%char => fmt_02d (tm_min t)
  | "S"%char => fmt_02d (tm_sec t)
  | "P"%char => ampm_lower (tm_hour t)
  | "Y"%char => pretty (tm_year t + 1900)
  | "a"%char => abday (tm_wday t)
  | "b"%char => abmon (tm_mon t)
  | "Z"%char => tm_zone t
  | "%"%char => "%"
  | _ => String "%" (String c EmptyString)
  end.

Fixpoint strftime_expand (fmt : string) (t : tm) : string :=
  match fmt with
  | EmptyString => EmptyString
  | String "%" (String c fmt') => strftime_conv c t +:+ strftime_expand fmt' t
  | String a fmt' => String a (strftime_expand fmt' t)
  end.

(** [strftime(buf, max, fmt, &t)]: the text stored in [buf] when it fits
    together with its terminating NUL; otherwise the call returns 0 and
    the contents of [buf] are unspecified ([None]). *)
Definition strftime (max : nat) (fmt : string) (t : tm) : option string :=
  let s := strftime_expand fmt t in
  if (String.length s <? max)%nat then Some s else None.

End Libc.

(* ===================================================================== *)
(** * Logging                                                             *)
(* ===================================================================== *)

Inductive log_level := LOG_ERROR | LOG_WARNING | LOG_NOTICE | LOG_VERBOSE | LOG_DEBUG.

Global Instance log_level_eq_dec : EqDecision log_level.
Proof. solve_decision. Defined.

(** One call of [bbs_error], [bbs_warning], [bbs_verb] or [bbs_debug]. *)
Definition log_entry : Type := log_level * string.

Definition bbs_error (m : string) : log_entry := (LOG_ERROR, m).
Definition bbs_warning (m : string) : log_entry := (LOG_WARNING, m).
Definition bbs_debug (m : string) : log_entry := (LOG_DEBUG, m).

(* ===================================================================== *)
(** * bbs/thread.c                                                        *)
(* ===================================================================== *)

Module Thread.

Definition ETIMEDOUT : Z := 110.

(** [struct thread_list_t] *)
Record thread_list_t := {
  name : string;
  id : Z;
  lwp : Z;
  start : Z;
  end_ : Z;
  detached : bool;
  waitingjoin : bool
}.

Definition set_waitingjoin (x : thread_list_t) (now : Z) : thread_list_t :=
  {| name := name x; id := id x; lwp := lwp x; start := start x;
     end_ := now; detached := detached x; waitingjoin := true |}.

(** The traversal of [__thread_unregister]: the first entry with the given
    id is removed when it is detached or already waiting to be joined,
    and marked as waiting otherwise.  Returns the entry found (as it was),
    whether it was removed, and the new list. *)
Fixpoint unregister_walk (l : list thread_list_t) (tid now : Z)
  : option thread_list_t * bool * list thread_list_t :=
  match l with
  | [] => (None, false, [])
  | x :: l' =>
      if id x =? tid then
        if detached x || waitingjoin x then (Some x, true, l')
        else (Some x, false, set_waitingjoin x now :: l')
      else
        let '(found, removed, l'') := unregister_walk l' tid now in
        (found, removed, x :: l'')
  end.

(** [__thread_unregister]: the LWP of the thread (-1 when it is not
    registered), the new list and what was logged. *)
Definition __thread_unregister (l : list thread_list_t) (tid now : Z)
  : Z * list thread_list_t * list log_entry :=
  let '(found, removed, l') := unregister_walk l tid now in
  match found with
  | Some x =>
      if removed then
        if detached x
        then (lwp x, l', [bbs_debug ("Thread " +:+ pretty (lwp x) +:+ " is exiting (detached)")])
        else (lwp x, l', [bbs_debug ("Thread " +:+ pretty (lwp x) +:+ " has been joined")])
      else (lwp x, l', [bbs_debug ("Thread " +:+ pretty (lwp x) +:+ " is exiting (must be joined)")])
  | None => (-1, l', [bbs_error ("Thread " +:+ pretty tid +:+ " not found?")])
  end.

(** The read-locked traversal at the head of [__bbs_pthread_join]. *)
Fixpoint find_thread (l : list thread_list_t) (tid : Z) : option thread_list_t :=
  match l with
  | [] => None
  | x :: l' => if id x =? tid then Some x else find_thread l' tid
  end.

(** [while (res && res == ETIMEDOUT) res = pthread_timedjoin_np(...)]:
    [rs] lists what the following calls return.  [None]: every listed call
    timed out, the loop is still spinning. *)
Fixpoint timedjoin_loop (res : Z) (rs : list Z) : option Z :=
  if negb (res =? 0) && (res =? ETIMEDOUT) then
    match rs with
    | [] => None
    | r :: rs' => timedjoin_loop r rs'
    end
  else Some res.

(** What the environment contributes to one call of
    [__bbs_pthread_join]: the results of the successive
    [pthread_timedjoin_np] or [pthread_join] calls, and the clock.  A
    thread that terminates runs its cleanup handler [thread_unregister]
    first, so a join that returns 0 finds the list as that handler left
    it. *)
Record join_env := {
  join_results : list Z;
  join_now : Z
}.

Definition target_exit (l : list thread_list_t) (tid now : Z) (already : bool)
  : list thread_list_t :=
  if already then l else (__thread_unregister l tid now).1.2.

(** [__bbs_pthread_join(thread, retval, ...)]: [None] when the call never
    returns; otherwise its return value, the thread list and the log. *)
Definition __bbs_pthread_join (l : list thread_list_t) (thread : Z) (env : join_env)
  : option (Z * list thread_list_t * list log_entry) :=
  match find_thread l thread with
  | None => Some (-1, l, [bbs_error ("Thread " +:+ pretty thread +:+ " not registered")])
  | Some x =>
      let lwp0 := lwp x in
      let log0 :=
        if detached x
        then [bbs_error ("Can't join detached LWP " +:+ pretty lwp0)] else [] in
      let lwp1 := if detached x then 0 else lwp0 in
      let waiting_join := waitingjoin x in
      if lwp1 =? 0 then Some (-1, l, log0)
      else
        let log1 := log0 ++ [bbs_debug ("Attempting to join thread " +:+ pretty thread
                                        +:+ " (LWP " +:+ pretty lwp1 +:+ ")")] in
        match join_results env with
        | [] => None
        | r0 :: rs =>
            let joined :=
              if waiting_join then Some (r0, [])
              else if negb (r0 =? 0) && (r0 =? ETIMEDOUT) then
                res ← timedjoin_loop r0 rs;
                Some (res, [bbs_warning ("Thread " +:+ pretty lwp1
                                         +:+ " is not currently waiting to be joined")])
              else Some (r0, []) in
            '(res, log2) ← joined;
            if negb (res =? 0) then
              Some (res, l, log1 ++ log2 ++ [bbs_error ("pthread_join(" +:+ pretty thread +:+ ") failed")])
            else
              let l1 := target_exit l thread (join_now env) waiting_join in
              let '(res', l2, log3) := __thread_unregister l1 thread (join_now env) in
              if res' =? -1 then
                Some (-1, l2, log1 ++ log2 ++ log3 ++
                      [bbs_error ("Attempted to join nonjoinable thread " +:+ pretty thread)])
              else Some (0, l2, log1 ++ log2 ++ log3)
        end
  end.

(** ** The clock of the timed join *)

(** Modelled from the manual: [pthread_timedjoin_np(thread, retval, abstime)]
    of glibc is not under [src/].  [abstime] is an absolute time measured
    since the Epoch.  Called at the time [now] on a thread that ends at
    [exit_at] ([None]: never), the call returns 0 at once when the thread
    has ended, 0 when it ends if that is by [abstime], and [ETIMEDOUT]
    otherwise: at [abstime], or at once when [abstime] has passed.  The
    result, and the time at which the call returns; times are in
    nanoseconds since the Epoch. *)
Definition pthread_timedjoin_np (now : Z) (exit_at : option Z) (abstime : Z) : Z * Z :=
  match exit_at with
  | Some e =>
      if e <=? now then (0, now)
      else if e <=? abstime then (0, e)
      else (ETIMEDOUT, Z.max now abstime)
  | None => (ETIMEDOUT, Z.max now abstime)
  end.

(** [ts.tv_sec = 0; ts.tv_nsec = 30000000;] as [__bbs_pthread_join]
    hands it to [pthread_timedjoin_np]: 30 ms after the Epoch. *)
Definition join_ts : Z := 30000000.

(** What the successive timed joins of [__bbs_pthread_join] return, the
    first one called at [now], each with the same [ts]; a call that
    timed out is followed by the next after the [cost] of one round of
    the loop.  At most [n] calls. *)
Fixpoint timedjoins (n : nat) (now : Z) (exit_at : option Z) (cost : Z) : list Z :=
  match n with
  | O => []
  | Datatypes.S n' =>
      let '(r, t) := pthread_timedjoin_np now exit_at join_ts in
      r :: (if r =? ETIMEDOUT then timedjoins n' (t + cost) exit_at cost else [])
  end.

(** The environment of a join called at [now] on a thread that is not
    waiting to be joined, through [n] timed joins; [time(NULL)] counts
    seconds. *)
Definition join_at (n : nat) (now : Z) (exit_at : option Z) (cost : Z) : join_env :=
  {| join_results := timedjoins n now exit_at cost;
     join_now := Z.max now (default now exit_at) / 1000000000 |}.

(** [thread_state_name(cur)] *)
Definition thread_state_name (cur : thread_list_t) : string :=
  if detached cur then "detached" else if waitingjoin cur then "waitjoin" else "joinable".

(** [thread_register(name, detached)], run by the new thread [self] whose
    LWP is [tid]: a new entry at the tail of the list, none when [calloc]
    fails. *)
Definition thread_register (l : list thread_list_t) (calloc_ok : bool)
    (nm : string) (det : bool) (self tid now : Z)
  : list thread_list_t * list log_entry :=
  if calloc_ok then
    (l ++ [{| name := nm; id := self; lwp := tid; start := now; end_ := 0;
              detached := det; waitingjoin := false |}],
     [bbs_debug ("Thread " +:+ pretty tid +:+ " spawned from " +:+ nm)])
  else (l, []).

(** [bbs_pthread_tid(thread)] *)
Definition bbs_pthread_tid (l : list thread_list_t) (thread : Z) : Z :=
  match find_thread l thread with
  | Some x => lwp x
  | None => -1
  end.

(** [thread_run(data)] around a start routine that returns: the thread
    registers itself, runs, and its cleanup handler unregisters it.  The
    list and the log after the thread has ended. *)
Definition thread_run (l : list thread_list_t) (calloc_ok : bool)
    (nm : string) (det : bool) (self tid now_start now_end : Z)
  : list thread_list_t * list log_entry :=
  let '(l1, log1) := thread_register l calloc_ok nm det self tid now_start in
  let '(_, l2, log2) := __thread_unregister l1 self now_end in
  (l2, log1 ++ log2).

End Thread.

(* ===================================================================== *)
(** * What a call can come to                                             *)
(* ===================================================================== *)

(** A call returns ([Done]), dies on a NULL or dangling pointer, an
    unspecified buffer or [assert(0)] ([Fault]), or waits for ever for a
    lock that is never released ([Blocked]). *)
Inductive result (A : Type) : Type :=
  | Done (a : A)
  | Fault
  | Blocked.
Arguments Done {A} a.
Arguments Fault {A}.
Arguments Blocked {A}.

Definition rbind {A B : Type} (m : result A) (k : A -> result B) : result B :=
  match m with
  | Done a => k a
  | Fault => Fault
  | Blocked => Blocked
  end.

Notation "'do' x <- m ; k" := (rbind m (fun x => k))
  (at level 10, x pattern, m at level 100, k at level 200).

(** Dereferencing a pointer that may be NULL or dangling. *)
Definition deref {A : Type} (o : option A) : result A :=
  match o with
  | Some a => Done a
  | None => Fault
  end.

(* ===================================================================== *)
(** * doors/door_irc.c                                                    *)
(* ===================================================================== *)

Module DoorIrc.
Import Libc.

(** ** What the door takes from the IRC library and from the BBS headers *)

(** [struct irc_msg] as [irc_parse_msg] fills it. *)
Record irc_msg := {
  prefix : option string;
  numeric : Z;
  command : option string;
  body : option string
}.

(** [enum irc_ctcp]: the values the door switches on, and the rest. *)
Inductive irc_ctcp := CTCP_ACTION | CTCP_VERSION | CTCP_PING | CTCP_TIME | CTCP_OTHER.

Global Instance irc_ctcp_eq_dec : EqDecision irc_ctcp.
Proof. solve_decision. Defined.

(** The pieces declared outside the door: the IRC library ([lirc/irc.h])
    and macros of the BBS headers.  [irc_ctcp_from_string] answers [None]
    where the library returns a negative value, [irc_parse_msg] where it
    returns nonzero; [irc_client_new_ok] says whether [irc_client_new]
    returns a client rather than NULL. *)
Class Externals := {
  IRC_MAX_MSG_LEN : nat;
  IRC_CLIENT_USE_TLS : Z;
  IRC_CLIENT_VERIFY_SERVER : Z;
  IRC_CLIENT_USE_SASL : Z;
  irc_ctcp_from_string : string -> option irc_ctcp;
  irc_parse_msg : string -> option irc_msg;
  irc_client_new_ok : option string -> Z -> option string -> option string -> bool;
  BBS_SHORTNAME : string;
  COLOR_GREEN : string;
  COLOR_RED : string;
  COLOR_CYAN : string;
  COLOR_RESET : string
}.

(** ** Data *)

(** [struct bbs_node], the fields the door reads.  [node_user] is
    [bbs_username(node->user)].  Modelled from the spec: [node_tdd] is
    [NODE_IS_TDD(node)], a macro of [include/node.h], the terminal-class
    predicate that says the session is a legacy device which gets no
    timestamps. *)
Record bbs_node := {
  node_id : Z;
  node_user : string;
  node_tdd : bool
}.

(** [struct participant].  [chatpipe] is the pipe with its two
    descriptors: [chatpipe0] and [chatpipe1] say whether the read and the
    write end are still open, [chatpipe_data] is what has been written
    and not read yet. *)
Record participant := {
  node : bbs_node;
  client : Z;
  channel : option string;
  chatpipe0 : bool;
  chatpipe1 : bool;
  chatpipe_data : string
}.

(** What went out over an IRC connection. *)
Inductive outbound :=
  | OutMsg (target : option string) (msg : string)          (* irc_client_msg *)
  | OutCtcpReply (nick : string) (ctcp : irc_ctcp) (data : option string) (* irc_client_ctcp_reply *)
  | OutRaw (line : string).                                 (* irc_send *)

(** [struct irc_client] *)
Record irc_client := {
  irc_hostname : option string;
  irc_port : Z;
  irc_username : option string;
  irc_password : option string;
  irc_autojoin : option string;
  irc_flags : Z;
  irc_connected : bool;
  irc_sent : list outbound
}.

(** [struct client].  [participants] lists the addresses of the attached
    participants, head first. *)
Record client_t := {
  participants : list Z;
  irc : irc_client;
  thread : option Z;
  log : bool;
  logfile : option (list string);
  name : string
}.

(** The module's state: the [unloading] flag, the [clients] list (the
    addresses, head first) and whether its lock is held, the allocated
    [struct client]s and [struct participant]s, and the BBS log. *)
Record door := {
  unloading : bool;
  clients : list Z;
  clients_locked : bool;
  client_mem : gmap Z client_t;
  part_mem : gmap Z participant;
  bbs_log : list log_entry
}.

Definition set_participant (st : door) (a : Z) (p : participant) : door :=
  {| unloading := unloading st; clients := clients st;
     clients_locked := clients_locked st; client_mem := client_mem st;
     part_mem := <[a := p]> (part_mem st); bbs_log := bbs_log st |}.

Definition set_part_mem (st : door) (m : gmap Z participant) : door :=
  {| unloading := unloading st; clients := clients st;
     clients_locked := clients_locked st; client_mem := client_mem st;
     part_mem := m; bbs_log := bbs_log st |}.

Definition set_client_mem (st : door) (m : gmap Z client_t) : door :=
  {| unloading := unloading st; clients := clients st;
     clients_locked := clients_locked st; client_mem := m;
     part_mem := part_mem st; bbs_log := bbs_log st |}.

Definition set_clients (st : door) (l : list Z) : door :=
  {| unloading := unloading st; clients := l;
     clients_locked := clients_locked st; client_mem := client_mem st;
     part_mem := part_mem st; bbs_log := bbs_log st |}.

Definition set_locked (st : door) (b : bool) : door :=
  {| unloading := unloading st; clients := clients st;
     clients_locked := b; client_mem := client_mem st;
     part_mem := part_mem st; bbs_log := bbs_log st |}.

Definition set_unloading (st : door) (b : bool) : door :=
  {| unloading := b; clients := clients st;
     clients_locked := clients_locked st; client_mem := client_mem st;
     part_mem := part_mem st; bbs_log := bbs_log st |}.

Definition add_log (st : door) (es : list log_entry) : door :=
  {| unloading := unloading st; clients := clients st;
     clients_locked := clients_locked st; client_mem := client_mem st;
     part_mem := part_mem st; bbs_log := bbs_log st ++ es |}.

Definition set_irc (c : client_t) (i : irc_client) : client_t :=
  {| participants := participants c; irc := i; thread := thread c;
     log := log c; logfile := logfile c; name := name c |}.

Definition set_participants (c : client_t) (ps : list Z) : client_t :=
  {| participants := ps; irc := irc c; thread := thread c;
     log := log c; logfile := logfile c; name := name c |}.

Definition set_logfile (c : client_t) (f : option (list string)) : client_t :=
  {| participants := participants c; irc := irc c; thread := thread c;
     log := log c; logfile := f; name := name c |}.

Definition set_thread (c : client_t) (t : option Z) : client_t :=
  {| participants := participants c; irc := irc c; thread := t;
     log := log c; logfile := logfile c; name := name c |}.

Definition irc_push (i : irc_client) (o : outbound) : irc_client :=
  {| irc_hostname := irc_hostname i; irc_port := irc_port i;
     irc_username := irc_username i; irc_password := irc_password i;
     irc_autojoin := irc_autojoin i; irc_flags := irc_flags i;
     irc_connected := irc_connected i; irc_sent := irc_sent i ++ [o] |}.

(** Sending on the connection of the client at address [c]. *)
Definition client_send (st : door) (c : Z) (o : outbound) : result door :=
  do cl <- deref (client_mem st !! c);
  Done (set_client_mem st (<[c := set_irc cl (irc_push (irc cl) o)]> (client_mem st))).

(** ** Pipes *)

(** [write(p->chatpipe[1], buf, count)]: fails when either end has been
    closed, otherwise queues the first [count] bytes of [buf]. *)
Definition write (p : participant) (buf : string) (count : Z) : Z * participant :=
  if negb (chatpipe1 p) || negb (chatpipe0 p) then (-1, p)
  else
    (count,
     {| node := node p; client := client p; channel := channel p;
        chatpipe0 := chatpipe0 p; chatpipe1 := chatpipe1 p;
        chatpipe_data := chatpipe_data p +:+ str_take (Z.to_nat count) buf |}).

(** ** The broadcast engine *)

(** What one dispatch or broadcast takes from its environment: the local
    time, the value the local [res] of [__chat_send], which is declared
    without an initialiser, happens to hold, the text found in a buffer
    that [strftime] could not fill, and whether [vasprintf] succeeds. *)
Record chat_env := {
  sendtime : tm;
  res_indeterminate : Z;
  buf_indeterminate : string;
  vasprintf_ok : bool
}.

(** [strftime(buf, sizeof(buf), fmt, &t)] followed by a use of [buf]. *)
Definition strftime_buf (env : chat_env) (max : nat) (fmt : string) : string :=
  default (buf_indeterminate env) (strftime max fmt (sendtime env)).

(** [strcmp(p->channel, channel) != 0]; [channel] is known to be
    non-empty, [p->channel] may still be NULL. *)
Definition strcmp_ne (pchan : option string) (chan : string) : result bool :=
  do pc <- deref pchan;
  Done (negb (String.eqb pc chan)).

(** The two [write] calls of [__chat_send] for a participant that passed
    the filters: the timestamp unless the node is a TDD, then the message
    when [res] is positive.  [res] is only assigned by the calls made. *)
Definition chat_deliver (p : participant) (datestr : string) (timelen : Z)
    (msg : string) (len : Z) (res : Z) : Z * participant :=
  let '(res1, p1) :=
    if negb (node_tdd (node p)) then write p datestr timelen else (res, p) in
  if 0 <? res1 then write p1 msg len else (res1, p1).

(** The body of [RWLIST_TRAVERSE(&client->participants, p, entry)] in
    [__chat_send]; [res] carries over from one participant to the next. *)
Fixpoint chat_send_walk (ps : list Z) (sender : option Z) (chan : option string)
    (datestr : string) (timelen : Z) (msg : string) (len : Z)
    (res : Z) (st : door) : result door :=
  match ps with
  | [] => Done st
  | a :: ps' =>
      let next := chat_send_walk ps' sender chan datestr timelen msg len in
      do p <- deref (part_mem st !! a);
      if decide (Some a = sender) then next res st
      else
        do skip <-
          (if strlen_zero chan then Done false
           else strcmp_ne (channel p) (default "" chan));
        if (skip : bool) then next res st
        else
          let '(res2, p2) := chat_deliver p datestr timelen msg len res in
          let st2 := set_participant st a p2 in
          if res2 <=? 0
          then next res2 (add_log st2 [bbs_error "write failed"])
          else next res2 st2
  end.

Definition chat_datefmt : string := "%m-%d %I:%M:%S%P ".

(** Modelled from the spec: [bbs_assert] is a macro of [include/bbs.h].
    Nothing in this core may terminate the host process, so a failed
    assertion is logged and execution goes on. *)
Definition bbs_assert (x : bool) (what : string) (st : door) : door :=
  if x then st else add_log st [bbs_error ("Assertion failed: " +:+ what)].

(** The entry of the log that a failed [bbs_assert(timelen == 17)]
    leaves. *)
Definition timelen_assertion : log_entry :=
  bbs_error ("Assertion failed: " +:+ "timelen == 17").

(** [__chat_send(client, sender, channel, dorelay, msg, len)] *)
Definition __chat_send (env : chat_env) (st : door) (c : Z) (sender : option Z)
    (chan : option string) (dorelay : bool) (msg : string) (len : Z)
  : result (Z * door) :=
  let datestr := strftime_buf env 18 chat_datefmt in
  let timelen := Z.of_nat (String.length datestr) in
  let st := bbs_assert (timelen =? 17) "timelen == 17" st in
  do cl <- deref (client_mem st !! c);
  do st <-
    match sender with
    | Some s =>
        do sp <- deref (part_mem st !! s);
        Done (add_log st [bbs_debug ("Broadcasting to " +:+ name cl +:+ "," +:+ fmt_s chan
                     +:+ " (except node " +:+ pretty (node_id (node sp)) +:+ "): "
                     +:+ datestr +:+ str_take (Z.to_nat len) msg)])
    | None =>
        Done (add_log st [bbs_debug ("Broadcasting to " +:+ name cl +:+ "," +:+ fmt_s chan
                     +:+ ": " +:+ datestr +:+ str_take (Z.to_nat len) msg)])
    end;
  do st <- (if dorelay then client_send st c (OutMsg chan msg) else Done st);
  do st <- chat_send_walk (participants cl) sender chan datestr timelen msg len
             (res_indeterminate env) st;
  Done (0, st).

(** [_chat_send(client, sender, channel, dorelay, fmt, ...)], [text]
    being what [fmt] and its arguments expand to. *)
Definition _chat_send (env : chat_env) (st : door) (c : Z) (sender : option Z)
    (chan : option string) (dorelay : bool) (text : string) : result (Z * door) :=
  if vasprintf_ok env
  then __chat_send env st c sender chan dorelay text (Z.of_nat (String.length text))
  else Done (-1, add_log st [bbs_error "vasprintf failure"]).

Definition relay_to_local (env : chat_env) (st : door) (c : Z)
    (chan : option string) (text : string) : result door :=
  do r <- _chat_send env st c None chan false text;
  Done r.2.

Definition chat_send (env : chat_env) (st : door) (c : Z) (sender : option Z)
    (chan : option string) (text : string) : result door :=
  do r <- _chat_send env st c sender chan true text;
  Done r.2.

(** ** Vocabulary of the properties *)

(** [p'] is [p] with possibly more bytes in its pipe. *)
Definition same_but_queue (p p' : participant) : Prop :=
  node p' = node p /\ client p' = client p /\ channel p' = channel p /\
  chatpipe0 p' = chatpipe0 p /\ chatpipe1 p' = chatpipe1 p.

(** Every participant on the list [ps] is allocated and has its channel
    assigned. *)
Definition attached (st : door) (ps : list Z) : Prop :=
  Forall (fun a => exists p, part_mem st !! a = Some p /\ is_Some (channel p)) ps.

(** The client at [c] exists with attached participants, and the sender,
    when there is one, is allocated. *)
Definition broadcast_ready (st : door) (c : Z) (sender : option Z) : Prop :=
  (exists cl, client_mem st !! c = Some cl /\ attached st (participants cl)) /\
  (forall s, sender = Some s -> is_Some (part_mem st !! s)).

(** What a traversal of the list [ps] may have done: to the participant
    at [b] nothing, or more bytes in the pipe of a listed participant
    that is not the sender and, under a channel filter, is on that
    channel; to the rest of the state nothing. *)
Definition walk_effect (ps : list Z) (sender : option Z) (chan : option string)
    (st st' : door) : Prop :=
  client_mem st' = client_mem st /\
  unloading st' = unloading st /\
  clients st' = clients st /\
  forall b,
    part_mem st' !! b = part_mem st !! b \/
    (b ∈ ps /\ Some b <> sender /\
     exists p p', part_mem st !! b = Some p /\ part_mem st' !! b = Some p' /\
                  same_but_queue p p' /\
                  (strlen_zero chan = false -> channel p = chan)).

(** The participants of the client at [c]. *)
Definition participants_of (st : door) (c : Z) : list Z :=
  match client_mem st !! c with
  | Some cl => participants cl
  | None => []
  end.

(** ** The command dispatcher *)

(** [body++]: stepping over one character; stepping over the terminating
    NUL leaves the string. *)
Definition skip1 (s : string) : result string :=
  match s with
  | String _ s' => Done s'
  | EmptyString => Fault
  end.

Definition first_is (s : string) (c : ascii) : bool :=
  match s with
  | String a _ => Ascii.eqb a c
  | EmptyString => false
  end.

Definition time_replyfmt : string := "%a %b %e %Y %I:%M:%S %P %Z".

Section Dispatch.
Context {ext : Externals}.

(** The CTCP arm of [handle_irc_msg]: [chan] is the target, [body]
    points at the leading 0x01. *)
Definition handle_ctcp (env : chat_env) (st : door) (c : Z) (msg : irc_msg)
    (cmd : string) (chan : string) (body : string) : result door :=
  do body <- skip1 body;
  if match body with EmptyString => true | _ => false end then
    Done (add_log st [bbs_error "Nothing after \001?"])
  else
    let st :=
      match strchr body SOH with
      | Some _ => st
      | None => add_log st [bbs_error "Couldn't find trailing \001?"]
      end in
    let body := cut_at body SOH in
    let '(ctcp_name, body) := strsep body " " in
    do pfx <- deref (prefix msg);
    let pfx := cut_at pfx "!" in
    match irc_ctcp_from_string ctcp_name with
    | None =>
        Done (add_log st [bbs_error ("Unsupported CTCP extended data type: " +:+ ctcp_name)])
    | Some ctcp =>
        if String.eqb cmd "PRIVMSG" then
          match ctcp with
          | CTCP_ACTION =>
              relay_to_local env st c (Some chan)
                ("[ACTION] <" +:+ pfx +:+ "> " +:+ fmt_s body +:+ String LF EmptyString)
          | CTCP_VERSION =>
              client_send st c
                (OutCtcpReply pfx ctcp (Some (BBS_SHORTNAME +:+ " / LIRC 0.1.0")))
          | CTCP_PING =>
              client_send st c (OutCtcpReply pfx ctcp body)
          | CTCP_TIME =>
              let timebuf := strftime_buf env 32 time_replyfmt in
              client_send st c (OutCtcpReply pfx ctcp (Some timebuf))
          | CTCP_OTHER =>
              Done (add_log st [bbs_warning ("Unhandled CTCP extended data type: " +:+ ctcp_name)])
          end
        else Done st
    end.

(** [handle_irc_msg(client, msg)] *)
Definition handle_irc_msg (env : chat_env) (st : door) (c : Z) (msg : irc_msg)
  : result door :=
  if negb (numeric msg =? 0) then
    Done (add_log st [bbs_debug ("Got numeric: prefix: " +:+ fmt_s (prefix msg)
                       +:+ ", num: " +:+ pretty (numeric msg)
                       +:+ ", body: " +:+ fmt_s (body msg))])
  else
    do cmd <- deref (command msg);
    if String.eqb cmd "PRIVMSG" || String.eqb cmd "NOTICE" then
      do b <- deref (body msg);
      let '(chan, rest) := strsep b " " in
      do rest <- deref rest;
      do body <- skip1 rest;
      if first_is body SOH then handle_ctcp env st c msg cmd chan body
      else
        do pfx <- deref (prefix msg);
        relay_to_local env st c (Some chan)
          ("<" +:+ cut_at pfx "!" +:+ "> " +:+ body +:+ String LF EmptyString)
    else if String.eqb cmd "PING" then
      do payload <-
        match body msg with
        | Some b => skip1 b
        | None => Done EmptyString
        end;
      client_send st c (OutRaw ("PONG :" +:+ payload))
    else if String.eqb cmd "JOIN" then
      relay_to_local env st c (body msg)
        (fmt_s (prefix msg) +:+ " has " +:+ COLOR_GREEN +:+ "joined" +:+ COLOR_RESET
         +:+ String LF EmptyString)
    else if String.eqb cmd "PART" then
      relay_to_local env st c (body msg)
        (fmt_s (prefix msg) +:+ " has " +:+ COLOR_RED +:+ "left" +:+ COLOR_RESET
         +:+ String LF EmptyString)
    else if String.eqb cmd "QUIT" then
      relay_to_local env st c (body msg)
        (fmt_s (prefix msg) +:+ " has " +:+ COLOR_RED +:+ "quit" +:+ COLOR_RESET
         +:+ String LF EmptyString)
    else if String.eqb cmd "KICKED" then
      relay_to_local env st c (body msg)
        (fmt_s (prefix msg) +:+ " has been " +:+ COLOR_RED +:+ "kicked" +:+ COLOR_RESET
         +:+ String LF EmptyString)
    else if String.eqb cmd "NICK" then
      relay_to_local env st c None
        (fmt_s (prefix msg) +:+ " is " +:+ COLOR_CYAN +:+ "now known as" +:+ COLOR_RESET
         +:+ " " +:+ fmt_s (body msg) +:+ String LF EmptyString)
    else if String.eqb cmd "MODE" then Done st
    else if String.eqb cmd "ERROR" then Done st
    else if String.eqb cmd "TOPIC" then Done st
    else
      Done (add_log st [bbs_warning ("Unhandled command: prefix: " +:+ fmt_s (prefix msg)
                         +:+ ", command: " +:+ cmd
                         +:+ ", body: " +:+ fmt_s (body msg))]).

End Dispatch.

(** The body of a message that carries the CTCP request [verb], with or
    without an argument, to [chan]: the target, a space, the colon, and
    the request between two 0x01 bytes. *)
Definition ctcp_body (chan verb : string) (arg : option string) : string :=
  chan +:+ " :" +:+
  String SOH ((verb +:+ match arg with Some a => String " " a | None => EmptyString end)
              +:+ String SOH EmptyString).

(** [c] does not occur in [s]. *)
Definition free_of (c : ascii) (s : string) : Prop := strchr s c = None.


(** ** The relay reader *)

(** The text a [char *] into the read buffer points at: the bytes up to
    the first NUL. *)
Fixpoint cstr (l : list ascii) : string :=
  match l with
  | [] => EmptyString
  | a :: l' => if Ascii.eqb a NUL then EmptyString else String a (cstr l')
  end.

(** [strstr(p, "\r\n")], as an offset from [p]. *)
Fixpoint strstr_crlf (l : list ascii) : option nat :=
  match l with
  | [] => None
  | a :: l' =>
      if Ascii.eqb a NUL then None
      else if Ascii.eqb a CR && match l' with b :: _ => Ascii.eqb b LF | [] => false end
      then Some 0%nat
      else S <$> strstr_crlf l'
  end.

(** The locals of [client_relay] that live across iterations; [start] and
    [mybuf] are offsets into [readbuf]. *)
Record relay := {
  readbuf : list ascii;
  start : nat;
  mybuf : nat;
  mylen : Z;
  res : Z
}.

(** [for (a = readbuf; *start; a++, start++) *a = *start;] giving the
    buffer and the final [a]. *)
Fixpoint shift_loop (fuel : nat) (buf : list ascii) (a st : nat) : list ascii * nat :=
  match fuel with
  | O => (buf, a)
  | S fuel' =>
      match buf !! st with
      | Some ch =>
          if Ascii.eqb ch NUL then (buf, a)
          else shift_loop fuel' (<[a := ch]> buf) (S a) (S st)
      | None => (buf, a)
      end
  end.

(** [irc_read(client, mybuf, mylen)] on a connection on which the chunks
    [sock] are pending (none: the peer has closed): the bytes read, and
    what stays pending. *)
Definition irc_read (sock : list string) (len : Z) : string * list string :=
  match sock with
  | [] => (EmptyString, [])
  | chunk :: sock' =>
      let n := Z.to_nat len in
      let got := str_take n chunk in
      let rest := String.string_of_list_ascii (drop n (String.list_ascii_of_string chunk)) in
      (got, match rest with EmptyString => sock' | _ => rest :: sock' end)
  end.

(** [irc_poll(client, -1, -1)] *)
Definition irc_poll (sock : list string) : Z :=
  match sock with
  | [] => 0
  | _ => 1
  end.

(** Storing the bytes of [s] from offset [off] on. *)
Fixpoint store (buf : list ascii) (off : nat) (s : string) : list ascii :=
  match s with
  | EmptyString => buf
  | String a s' => store (<[off := a]> buf) (S off) s'
  end.

Section Relay.
Context {ext : Externals}.
Context {S : Type}.
(** What is done with a complete line, and with a log message. *)
Variable on_line : string -> S -> result S.
Variable on_log : log_entry -> S -> S.

(** [sizeof(readbuf) - 1] *)
Definition bufcap : Z := Z.of_nat IRC_MAX_MSG_LEN.

(** The state at [start = readbuf] before the first iteration, the
    buffer holding whatever the stack held. *)
Definition relay_init (stack : list ascii) : relay :=
  {| readbuf := take (Datatypes.S IRC_MAX_MSG_LEN) (stack ++ replicate (Datatypes.S IRC_MAX_MSG_LEN) NUL);
     start := 0; mybuf := 0; mylen := bufcap; res := 0 |}.

(** From the label [begin] to the wait for data: when at most one byte
    is free, the pending text is moved to the front of the buffer, and
    the buffer is given up when that frees nothing. *)
Definition relay_begin (r : relay) (s : S) : relay * S :=
  if mylen r <=? 1 then
    let '(buf, a) := shift_loop (length (readbuf r)) (readbuf r) 0 (start r) in
    let buf := <[a := NUL]> buf in
    let mylen' := bufcap - Z.of_nat a in
    if mylen' <=? 1 then
      ({| readbuf := buf; start := 0; mybuf := 0; mylen := bufcap; res := res r |},
       on_log (bbs_error "Buffer truncation!") s)
    else
      ({| readbuf := buf; start := 0; mybuf := a; mylen := mylen'; res := res r |}, s)
  else (r, s).

(** The [do ... while (mybuf && *mybuf)] loop and the reset after it;
    an incomplete message leaves through [goto begin].  Every round moves
    [mybuf] on by two bytes at least, so the fuel [relay_iter] gives, one
    more than the length of the buffer, is never used up. *)
Fixpoint relay_scan (fuel : nat) (r : relay) (prevbuf : nat) (prevlen : Z) (s : S)
  : result (relay * S) :=
  match fuel with
  | O => Fault
  | Datatypes.S fuel' =>
      match strstr_crlf (drop (mybuf r) (readbuf r)) with
      | None =>
          Done ({| readbuf := readbuf r; start := start r;
                   mybuf := prevbuf + Z.to_nat (res r);
                   mylen := prevlen - res r; res := res r |}, s)
      | Some k =>
          let eom := (mybuf r + k)%nat in
          do after <- deref (readbuf r !! (eom + 2)%nat);
          let buf :=
            if Ascii.eqb after NUL then readbuf r
            else <[(eom + 1)%nat := NUL]> (readbuf r) in
          do s <- on_line (cstr (drop (start r) buf)) s;
          let mylen' := mylen r - (Z.of_nat (eom + 2) - Z.of_nat (mybuf r)) in
          do next <- deref (buf !! (eom + 2)%nat);
          if Ascii.eqb next NUL then
            Done ({| readbuf := buf; start := 0; mybuf := 0;
                     mylen := bufcap; res := res r |}, s)
          else
            relay_scan fuel'
              {| readbuf := buf; start := (eom + 2)%nat; mybuf := (eom + 2)%nat;
                 mylen := mylen'; res := res r |} prevbuf prevlen s
      end
  end.

(** One pass through the body of [for (;;)]: [None] when the loop is
    left through [break]. *)
Definition relay_iter (r : relay) (sock : list string) (s : S)
  : result (option (relay * list string) * S) :=
  let '(r, s) := relay_begin r s in
  let stop :=
    if negb (res r =? bufcap) then irc_poll sock <=? 0 else false in
  if stop then Done (None, s)
  else
    let prevbuf := mybuf r in
    let prevlen := mylen r in
    let '(got, sock') := irc_read sock (mylen r) in
    let n := Z.of_nat (String.length got) in
    if n <=? 0 then Done (None, s)
    else
      let buf := <[(mybuf r + String.length got)%nat := NUL]> (store (readbuf r) (mybuf r) got) in
      let r1 := {| readbuf := buf; start := start r; mybuf := mybuf r;
                   mylen := mylen r; res := n |} in
      do out <- relay_scan (Datatypes.S (length buf)) r1 prevbuf prevlen s;
      Done (Some (out.1, sock'), out.2).

(** The loop, for at most [fuel] passes. *)
Fixpoint relay_loop (fuel : nat) (r : relay) (sock : list string) (s : S)
  : result (option (relay * list string) * S) :=
  match fuel with
  | O => Done (Some (r, sock), s)
  | Datatypes.S fuel' =>
      do out <- relay_iter r sock s;
      match out.1 with
      | None => Done out
      | Some (r', sock') => relay_loop fuel' r' sock' out.2
      end
  end.

(** The text of a line: no NUL and no CR in it. *)
Definition plain (s : string) : Prop :=
  strchr s NUL = None /\ strchr s CR = None.

(** The bytes of a text. *)
Definition bytes (s : string) : list ascii := String.list_ascii_of_string s.

(** The text not yet handed on: the partial line [start] points at. *)
Definition pending (r : relay) : string := cstr (drop (start r) (readbuf r)).

(** The reader with nothing pending: [start] and [mybuf] at the front of
    the buffer, all of it free. *)
Definition relay_reset (buf : list ascii) (res0 : Z) : relay :=
  {| readbuf := buf; start := 0; mybuf := 0; mylen := bufcap; res := res0 |}.

End Relay.

(** ** The relay thread of a client *)

Section ClientRelay.
Context {ext : Externals}.

(** What [client_relay] does with one complete line: the line is
    appended to the log file when there is one, parsed, and
    dispatched.  The handlers only write inside the line they are
    given, which the reader never looks at again.  [envf n] is the
    environment of the [n]-th line. *)
Definition relay_line (envf : nat -> chat_env) (c : Z) (line : string)
    (s : door * nat) : result (door * nat) :=
  let '(st, n) := s in
  do cl <- deref (client_mem st !! c);
  let st :=
    match logfile cl with
    | Some f => set_client_mem st (<[c := set_logfile cl (Some (f ++ [line]))]> (client_mem st))
    | None => st
    end in
  match irc_parse_msg line with
  | Some msg =>
      do st <- handle_irc_msg (envf n) st c msg;
      Done (st, Datatypes.S n)
  | None => Done (st, Datatypes.S n)
  end.

Definition relay_log (e : log_entry) (s : door * nat) : door * nat :=
  (add_log s.1 [e], s.2).

(** [client_relay(client)] for at most [fuel] passes of its loop, on a
    connection delivering [sock]; [fopen_ok] says whether the log file
    can be opened, [stack] is what the buffer holds at entry. *)
Definition client_relay (fuel : nat) (envf : nat -> chat_env) (fopen_ok : bool)
    (stack : list ascii) (st : door) (c : Z) (sock : list string)
  : result (option (relay * list string) * door) :=
  do cl <- deref (client_mem st !! c);
  let opened :=
    if log cl then
      if fopen_ok
      then Some (set_client_mem st (<[c := set_logfile cl (Some [])]> (client_mem st)))
      else None
    else Some st in
  match opened with
  | None => Done (None, add_log st [bbs_error "Failed to open log file"])
  | Some st =>
      do out <- relay_loop (relay_line envf c) relay_log fuel (relay_init stack) sock (st, 0%nat);
      match out.1 with
      | None =>
          do cl <- deref (client_mem out.2.1 !! c);
          Done (None, add_log out.2.1
                        [bbs_debug ("IRC client '" +:+ name cl +:+ "' thread has exited")])
      | Some rs => Done (Some rs, out.2.1)
      end
  end.

End ClientRelay.

(** ** The client registry *)

(** A section of [door_irc.conf] as the configuration accessors report
    it: its name, the values of its string keys, and for each key that
    [bbs_config_val_set_uint] or [bbs_config_val_set_true] is asked for,
    the value it stores ([None]: the key is absent and the variable is
    left as it was). *)
Record bbs_config_section := {
  section_name : string;
  cfg_hostname : option string;
  cfg_username : option string;
  cfg_password : option string;
  cfg_autojoin : option string;
  cfg_port : option Z;
  cfg_tls : option bool;
  cfg_tlsverify : option bool;
  cfg_sasl : option bool;
  cfg_logfile : option bool
}.

Definition door_init : door :=
  {| unloading := false; clients := []; clients_locked := false;
     client_mem := ∅; part_mem := ∅; bbs_log := [] |}.

(** [RWLIST_WRLOCK(&clients)] and [RWLIST_UNLOCK(&clients)] *)
Definition wrlock (st : door) : result door :=
  if clients_locked st then Blocked else Done (set_locked st true).
Definition unlock (st : door) : door := set_locked st false.

Section Registry.
Context {ext : Externals}.

(** The body of the [while ((section = bbs_config_walk(cfg, section)))]
    loop.  [callocs] lists what the successive [calloc] calls return.
    The local [logfile] has no initialiser: [indet] is what its slot
    holds when the section is reached, which for the first client
    section is what the stack held and for a later one what the section
    before it left there. *)
Fixpoint load_sections (secs : list bbs_config_section) (callocs : list (option Z))
    (indet : bool) (st : door) : door :=
  match secs with
  | [] => st
  | sec :: secs' =>
      if String.eqb (section_name sec) "general" then load_sections secs' callocs indet st
      else
        let port := default 0 (cfg_port sec) in
        let tls := default false (cfg_tls sec) in
        let tlsverify := default false (cfg_tlsverify sec) in
        let sasl := default false (cfg_sasl sec) in
        let logf := default indet (cfg_logfile sec) in
        match callocs with
        | [] | None :: _ =>
            load_sections secs' (tail callocs) logf (add_log st [bbs_error "calloc failed"])
        | Some a :: callocs' =>
            if irc_client_new_ok (cfg_hostname sec) port (cfg_username sec) (cfg_password sec)
            then
              let flags :=
                Z.lor (Z.lor (if tls then IRC_CLIENT_USE_TLS else 0)
                             (if tlsverify then IRC_CLIENT_VERIFY_SERVER else 0))
                      (if sasl then IRC_CLIENT_USE_SASL else 0) in
              let ircl :=
                {| irc_hostname := cfg_hostname sec; irc_port := port;
                   irc_username := cfg_username sec; irc_password := cfg_password sec;
                   irc_autojoin := cfg_autojoin sec; irc_flags := flags;
                   irc_connected := false; irc_sent := [] |} in
              let cl :=
                {| participants := []; irc := ircl; thread := None; log := logf;
                   logfile := None; name := section_name sec |} in
              load_sections secs' callocs' logf
                (set_clients (set_client_mem st (<[a := cl]> (client_mem st)))
                             (clients st ++ [a]))
            else load_sections secs' callocs' logf st
        end
  end.

(** [load_config()]; [cfg] is what [bbs_config_load] returns, [indet]
    what the slot of [logfile] holds at entry. *)
Definition load_config (cfg : option (list bbs_config_section))
    (callocs : list (option Z)) (indet : bool) (st : door) : result (Z * door) :=
  match cfg with
  | None =>
      Done (-1, add_log st [bbs_error "File 'door_irc.conf' is missing: IRC client declining to start"])
  | Some secs =>
      do st <- wrlock st;
      Done (0, unlock (load_sections secs callocs indet st))
  end.

(** [join_client(node, name)]; [calloc] and [pipe_ok] are what
    [calloc] and [pipe] answer. *)
Definition find_client (st : door) (nm : string) : result (option Z) :=
  (fix go (l : list Z) : result (option Z) :=
     match l with
     | [] => Done None
     | a :: l' =>
         do cl <- deref (client_mem st !! a);
         if strcaseeq (name cl) nm then Done (Some a) else go l'
     end) (clients st).

Definition join_client (calloc : option Z) (pipe_ok : bool) (st : door)
    (nd : bbs_node) (nm : string) : result (option Z * door) :=
  do st <- wrlock st;
  do found <- find_client st nm;
  match found with
  | None =>
      Done (None, add_log st [bbs_error ("IRC client " +:+ nm +:+ " doesn't exist")])
  | Some c =>
      match calloc with
      | None => Done (None, unlock (add_log st [bbs_error "calloc failure"]))
      | Some a =>
          if pipe_ok then
            do cl <- deref (client_mem st !! c);
            let p := {| node := nd; client := c; channel := None;
                        chatpipe0 := true; chatpipe1 := true;
                        chatpipe_data := EmptyString |} in
            let st := set_part_mem st (<[a := p]> (part_mem st)) in
            let st := set_client_mem st
                        (<[c := set_participants cl (a :: participants cl)]> (client_mem st)) in
            Done (Some a, unlock st)
          else Done (None, unlock (add_log st [bbs_error "Failed to create pipe"]))
      end
  end.

(** The traversal of [leave_client]: the list without the first
    occurrence of [a], and whether there was one. *)
Fixpoint remove_first (a : Z) (l : list Z) : list Z * bool :=
  match l with
  | [] => ([], false)
  | x :: l' =>
      if decide (x = a) then (l', true)
      else let '(l'', found) := remove_first a l' in (x :: l'', found)
  end.

(** [leave_client(client, participant)] *)
Definition leave_client (st : door) (c : Z) (a : Z) : result door :=
  do st <- wrlock st;
  if unloading st then
    let st := unlock st in
    do _ <- deref (part_mem st !! a);
    Done (set_part_mem st (delete a (part_mem st)))
  else
    do cl <- deref (client_mem st !! c);
    let '(ps, found) := remove_first a (participants cl) in
    if found then
      do _ <- deref (part_mem st !! a);
      let st := set_client_mem st (<[c := set_participants cl ps]> (client_mem st)) in
      Done (unlock (set_part_mem st (delete a (part_mem st))))
    else
      do p <- deref (part_mem st !! a);
      Done (unlock (add_log st
              [bbs_error ("Failed to remove participant (node "
                          +:+ pretty (node_id (node p)) +:+ ") from client "
                          +:+ name cl +:+ "?")]))
.

(** [close(p->chatpipe[1]); p->chatpipe[1] = -1;] *)
Definition close_write_end (p : participant) : participant :=
  {| node := node p; client := client p; channel := channel p;
     chatpipe0 := chatpipe0 p; chatpipe1 := false;
     chatpipe_data := chatpipe_data p |}.

(** The inner loop of [unload_module]: every participant is taken off
    the list and the write end of its pipe is closed; the participant
    itself stays allocated. *)
Fixpoint boot_participants (ps : list Z) (m : gmap Z participant)
  : result (gmap Z participant) :=
  match ps with
  | [] => Done m
  | a :: ps' =>
      do p <- deref (m !! a);
      boot_participants ps' (<[a := close_write_end p]> m)
  end.

(** [bbs_pthread_join(client->thread, NULL)] in [unload_module], on the
    thread inventory [tl]: the inventory and the log it leaves.  Its
    return value is not looked at; a join that never returns keeps the
    unload waiting. *)
Definition join_relay_thread (tl : list Thread.thread_list_t) (t : Z) (env : Thread.join_env)
  : result (list Thread.thread_list_t * list log_entry) :=
  match Thread.__bbs_pthread_join tl t env with
  | Some (_, tl', lg) => Done (tl', lg)
  | None => Blocked
  end.

(** The outer loop of [unload_module]: the connection is destroyed,
    the participants are booted, the relay thread is cancelled and
    joined, the log file is closed and the client is freed.
    [client->thread] is only set by [start_clients]: for a client that
    was never started it is the zero [calloc] left, which is no thread,
    and [pthread_cancel] dereferences it.  [joins t] is what the join of
    the thread [t] meets. *)
Fixpoint unload_clients (cs : list Z) (joins : Z -> Thread.join_env)
    (tl : list Thread.thread_list_t) (st : door)
  : result (door * list Thread.thread_list_t) :=
  match cs with
  | [] => Done (set_clients st [], tl)
  | c :: cs' =>
      do cl <- deref (client_mem st !! c);
      do m <- boot_participants (participants cl) (part_mem st);
      do t <- deref (thread cl);
      do j <- join_relay_thread tl t (joins t);
      unload_clients cs' joins j.1
        (add_log
           (set_clients (set_client_mem (set_part_mem st m) (delete c (client_mem st))) cs')
           j.2)
  end.

(** [unload_module()]; [unreg] is what [bbs_unregister_door] returns,
    [tl] the thread inventory when the unload begins. *)
Definition unload_module (unreg : Z) (joins : Z -> Thread.join_env)
    (tl : list Thread.thread_list_t) (st : door)
  : result (Z * door * list Thread.thread_list_t) :=
  do st <- wrlock st;
  let st := set_unloading st true in
  do out <- unload_clients (clients st) joins tl st;
  Done (unreg, unlock out.1, out.2).

(** What starting one client comes to: the results of
    [irc_client_connect] and [irc_client_login], what
    [irc_client_connected] says afterwards, and the thread
    [bbs_pthread_create] made ([None]: it failed). *)
Record start_outcome := {
  connect_res : Z;
  login_res : Z;
  connected_after : bool;
  created : option Z
}.

Fixpoint start_walk (cs : list Z) (kept : list Z) (oracle : Z -> start_outcome)
    (started : Z) (st : door) : result (Z * door) :=
  match cs with
  | [] =>
      let st := set_clients st kept in
      let st := unlock st in
      Done (0, if negb (started =? 0)
               then add_log st [(LOG_VERBOSE, "Started " +:+ pretty started +:+ " IRC clients")]
               else st)
  | c :: cs' =>
      do cl <- deref (client_mem st !! c);
      let o := oracle c in
      let res := connect_res o in
      let res := if res =? 0 then login_res o else res in
      let '(res, st) :=
        if (res =? 0) && negb (connected_after o)
        then (-1, add_log st [bbs_error ("Attempted to start client '" +:+ name cl
                                         +:+ "', but disconnected prematurely?")])
        else (res, st) in
      if negb (res =? 0) then
        start_walk cs' kept oracle started
          (set_client_mem (add_log st [bbs_error ("Failed to start IRC client '" +:+ name cl +:+ "'")])
                          (delete c (client_mem st)))
      else
        let irc' :=
          {| irc_hostname := irc_hostname (irc cl); irc_port := irc_port (irc cl);
             irc_username := irc_username (irc cl); irc_password := irc_password (irc cl);
             irc_autojoin := irc_autojoin (irc cl); irc_flags := irc_flags (irc cl);
             irc_connected := true; irc_sent := irc_sent (irc cl) |} in
        let cl := set_irc cl irc' in
        match created o with
        | None =>
            Done (-1, set_clients (set_client_mem st (<[c := cl]> (client_mem st)))
                                  (kept ++ c :: cs'))
        | Some t =>
            start_walk cs' (kept ++ [c]) oracle (started + 1)
              (set_client_mem st (<[c := set_thread cl (Some t)]> (client_mem st)))
        end
  end.

(** [start_clients()] *)
Definition start_clients (oracle : Z -> start_outcome) (st : door) : result (Z * door) :=
  do st <- wrlock st;
  start_walk (clients st) [] oracle 0 st.

End Registry.

(** ** The life of the module *)

(** [p->channel = channel;] in [irc_client_exec], right after the join. *)
Definition assign_channel (st : door) (a : Z) (chan : string) : result door :=
  do p <- deref (part_mem st !! a);
  Done (set_participant st a
          {| node := node p; client := client p; channel := Some chan;
             chatpipe0 := chatpipe0 p; chatpipe1 := chatpipe1 p;
             chatpipe_data := chatpipe_data p |}).

(** [read(p->chatpipe[0], buf, sizeof(buf) - 1)] in [participant_relay]:
    the session takes what is queued. *)
Definition drain (st : door) (a : Z) : result door :=
  do p <- deref (part_mem st !! a);
  Done (set_participant st a
          {| node := node p; client := client p; channel := channel p;
             chatpipe0 := chatpipe0 p; chatpipe1 := chatpipe1 p;
             chatpipe_data := EmptyString |}).

Section Life.
Context {ext : Externals}.

(** The module after [load_config], before anything else has run. *)
Definition loaded (st : door) : Prop :=
  exists cfg callocs indet r, load_config cfg callocs indet door_init = Done (r, st).

(** One call into the module that returns: sessions joining, getting
    their channel, reading their pipe, talking and leaving; a relay
    thread dispatching one message, or running its loop for a while; the
    clients being started; the module being unloaded. *)
Inductive door_step : door -> door -> Prop :=
  | step_start oracle st r st' :
      start_clients oracle st = Done (r, st') -> door_step st st'
  | step_join calloc pipe_ok nd nm st r st' :
      join_client calloc pipe_ok st nd nm = Done (r, st') -> door_step st st'
  | step_channel a chan st st' :
      assign_channel st a chan = Done st' -> door_step st st'
  | step_drain a st st' :
      drain st a = Done st' -> door_step st st'
  | step_chat env c sender chan dorelay text st r st' :
      _chat_send env st c sender chan dorelay text = Done (r, st') -> door_step st st'
  | step_dispatch env c msg st st' :
      handle_irc_msg env st c msg = Done st' -> door_step st st'
  | step_relay fuel envf fopen_ok stack c sock st out st' :
      client_relay fuel envf fopen_ok stack st c sock = Done (out, st') -> door_step st st'
  | step_leave c a st st' :
      leave_client st c a = Done st' -> door_step st st'
  | step_unload unreg joins tl st r st' tl' :
      unload_module unreg joins tl st = Done (r, st', tl') -> door_step st st'.

Definition reachable (st : door) : Prop :=
  exists st0, loaded st0 /\ rtc door_step st0 st.

End Life.

(** [st'] has the flag and the registry of [st]. *)
Definition same_registry (st st' : door) : Prop :=
  unloading st' = unloading st /\ clients st' = clients st.

(** Once the module is unloading, the registry is empty. *)
Definition unloaded_empty (st : door) : Prop :=
  unloading st = true -> clients st = [].

(** The names of the clients on the registry, in order. *)
Definition client_names (st : door) : list (option string) :=
  (fun a => name <$> client_mem st !! a) <$> clients st.

(** ** A session in the door *)

(** Modelled from the spec: [STARTS_WITH(s, start)] is a macro of
    [include/utils.h]; the door's comment names [strncasecmp], the spec a
    case-insensitive prefix match. *)
Fixpoint STARTS_WITH (s start0 : string) : bool :=
  match start0, s with
  | EmptyString, _ => true
  | String b start', String a s' => Ascii.eqb (to_lower a) (to_lower b) && STARTS_WITH s' start'
  | String _ _, EmptyString => false
  end.

(** [strcasestr(haystack, needle) != NULL] *)
Fixpoint strcasestr (haystack needle : string) : bool :=
  STARTS_WITH haystack needle ||
  match haystack with
  | EmptyString => false
  | String _ h' => strcasestr h' needle
  end.

(** The last character of a text that is not empty. *)
Fixpoint last_char (s : string) : option ascii :=
  match s with
  | EmptyString => None
  | String a EmptyString => Some a
  | String _ s' => last_char s'
  end.

(** What the session's terminal is asked to do. *)
Inductive term_out :=
  | TermClear                 (* bbs_clear_screen *)
  | TermUnbuffer              (* bbs_unbuffer *)
  | TermBuffer                (* bbs_buffer *)
  | TermWrite (text : string) (* bbs_writef *)
  | TermBell.                 (* bbs_ring_bell *)

(** What the terminal layer answers during one pass of the loop of
    [participant_relay]: the result of [bbs_poll2]; of [bbs_read] and the
    character it stored; of [bbs_poll_read] and the bytes it stored; of
    [bbs_writef] on relayed text; of [bbs_ring_bell]; and the environment
    of the broadcast the pass may make. *)
Record session_event := {
  poll_res : Z;
  read_res : Z;
  read_char : ascii;
  line_res : Z;
  line_text : string;
  writef_res : Z;
  bell_res : Z;
  ev_env : chat_env
}.

(** [read(p->chatpipe[0], buf, count)]: its result, the bytes taken, and
    the participant with the rest still queued.  The call fails on a
    closed read end; on an empty pipe it returns 0 once the write end is
    closed and waits while it is open. *)
Definition pipe_read (p : participant) (count : nat) : result (Z * string * participant) :=
  if negb (chatpipe0 p) then Done (-1, EmptyString, p)
  else
    match chatpipe_data p with
    | EmptyString => if chatpipe1 p then Blocked else Done (0, EmptyString, p)
    | data =>
        let got := str_take count data in
        Done (Z.of_nat (String.length got), got,
              {| node := node p; client := client p; channel := channel p;
                 chatpipe0 := chatpipe0 p; chatpipe1 := chatpipe1 p;
                 chatpipe_data :=
                   String.string_of_list_ascii (drop count (String.list_ascii_of_string data)) |})
    end.

(** The text of a line typed by the user of [nd], as [participant_relay]
    hands it to [chat_send]. *)
Definition said (nd : bbs_node) (buf : string) : string :=
  "<" +:+ node_user nd +:+ "@" +:+ pretty (node_id nd) +:+ "> " +:+ buf +:+
  (if bool_decide (last_char buf = Some LF) then EmptyString else String LF EmptyString).

(** The [for (;;)] loop of [participant_relay] on the answers [evs] of
    the terminal layer: its final [res], the state and what the terminal
    was asked to do.  With no answer left the loop waits in [bbs_poll2]. *)
Fixpoint session_loop (evs : list session_event) (st : door) (c a : Z)
    (nd : bbs_node) (chan : string) (out : list term_out)
  : result (Z * door * list term_out) :=
  match evs with
  | [] => Blocked
  | ev :: evs' =>
      let res := poll_res ev in
      if res <? 0 then Done (res, st, out)
      else if res =? 1 then
        let res := read_res ev in
        if res <=? 0 then Done (res, st, out)
        else if Ascii.eqb (read_char ev) LF then session_loop evs' st c a nd chan out
        else
          let out := out ++ [TermWrite (String (read_char ev) EmptyString); TermBuffer] in
          let res := line_res ev in
          if res <=? 0 then Done (res, st, out)
          else
            let res := res + 1 in
            let buf := String (read_char ev) (str_take (Z.to_nat (line_res ev)) (line_text ev)) in
            if STARTS_WITH buf "/quit" then Done (res, st, out)
            else
              let out := out ++ [TermUnbuffer] in
              let st :=
                if bool_decide (last_char buf = Some LF) then st
                else add_log st [bbs_warning "Doesn't end in LF?"] in
              do st <- chat_send (ev_env ev) st c (Some a) (Some chan) (said nd buf);
              session_loop evs' st c a nd chan out
      else if res =? 2 then
        do p <- deref (part_mem st !! a);
        do rd <- pipe_read p 383;
        let '(res, got, p') := rd in
        let st := set_participant st a p' in
        if res <=? 0 then Done (res, st, out)
        else if writef_res ev <? 0 then Done (-1, st, out ++ [TermWrite got])
        else
          let out := out ++ [TermWrite got] in
          if strcasestr got (node_user nd) then
            let st := add_log st [bbs_debug ("Message contains '" +:+ node_user nd
                                             +:+ "', alerting user")] in
            if bell_res ev <? 0 then Done (-1, st, out ++ [TermBell])
            else session_loop evs' st c a nd chan (out ++ [TermBell])
          else session_loop evs' st c a nd chan out
      else session_loop evs' st c a nd chan out
  end.

(** [participant_relay(node, p, channel)]; [env_join] and [env_left] are
    the environments of the two announcements. *)
Definition participant_relay (env_join env_left : chat_env) (evs : list session_event)
    (st : door) (nd : bbs_node) (a : Z) (chan : string)
  : result (Z * door * list term_out) :=
  do p <- deref (part_mem st !! a);
  let c := client p in
  do st <- chat_send env_join st c None (Some chan)
             (node_user nd +:+ "@" +:+ pretty (node_id (node p)) +:+ " has joined " +:+ chan
              +:+ String LF EmptyString);
  do r <- session_loop evs st c a nd chan [TermClear; TermUnbuffer];
  let '(res, st, out) := r in
  do st <- chat_send env_left st c None (Some chan)
             (node_user nd +:+ "@" +:+ pretty (node_id nd) +:+ " has left " +:+ chan
              +:+ String LF EmptyString);
  Done (res, st, out).

(** [irc_client_exec(node, args)]: the door's entry point.  [args] is
    copied into a buffer of 84 bytes. *)
Definition irc_client_exec (calloc : option Z) (pipe_ok : bool)
    (env_join env_left : chat_env) (evs : list session_event)
    (st : door) (nd : bbs_node) (args : option string)
  : result (Z * door * list term_out) :=
  if strlen_zero args then
    Done (0, add_log st [bbs_error "Must specify a client name to use (syntax: client,channel)"], [])
  else
    let buf := str_take 83 (default EmptyString args) in
    let '(cl, chan) := strsep buf "," in
    if strlen_zero chan || strlen_zero (Some cl) then
      Done (0, add_log st [bbs_error "Must specify a client and channel (syntax: client,channel)"], [])
    else
      let chan := default EmptyString chan in
      do j <- join_client calloc pipe_ok st nd cl;
      match j.1 with
      | None => Done (0, j.2, [])
      | Some a =>
          do st <- assign_channel j.2 a chan;
          do r <- participant_relay env_join env_left evs st nd a chan;
          let '(res, st, out) := r in
          do p <- deref (part_mem st !! a);
          do st <- leave_client st (client p) a;
          Done (res, st, out)
      end.

(** ** More vocabulary *)



(** [irc_client_new] accepts the section. *)
Definition section_accepted {ext : Externals} (sec : bbs_config_section) : bool :=
  irc_client_new_ok (cfg_hostname sec) (default 0 (cfg_port sec))
    (cfg_username sec) (cfg_password sec).

(** The client sections of a configuration that become clients, in the
    order of the file. *)
Definition client_sections {ext : Externals} (secs : list bbs_config_section)
  : list bbs_config_section :=
  filter (fun sec => String.eqb (section_name sec) "general" = false /\
                     section_accepted sec = true) secs.

(** The client connected, logged in and stayed connected. *)
Definition start_ok (o : start_outcome) : bool :=
  (connect_res o =? 0) && (login_res o =? 0) && connected_after o.

(** A client as [load_config] leaves it: nobody attached, no relay
    thread, no log file open, not connected, nothing sent. *)
Definition fresh_client (cl : client_t) : Prop :=
  participants cl = [] /\ thread cl = None /\ logfile cl = None /\
  irc_connected (irc cl) = false /\ irc_sent (irc cl) = [].

(** The sections of a configuration other than [general]. *)
Definition nongeneral (secs : list bbs_config_section) : list bbs_config_section :=
  filter (fun sec => String.eqb (section_name sec) "general" = false) secs.

(** [cl'] is [cl] connected, with its relay thread [t]. *)
Definition started_as (cl cl' : client_t) (t : option Z) : Prop :=
  name cl' = name cl /\ participants cl' = participants cl /\
  thread cl' = t /\ irc_connected (irc cl') = true.

(** [p] with [text] added at the end of its pipe. *)
Definition queued (p : participant) (text : string) : participant :=
  {| node := node p; client := client p; channel := channel p;
     chatpipe0 := chatpipe0 p; chatpipe1 := chatpipe1 p;
     chatpipe_data := chatpipe_data p +:+ text |}.

(** Both ends of the pipe of [p] are open. *)
Definition pipe_open (p : participant) : bool := chatpipe0 p && chatpipe1 p.

(** The timestamp [__chat_send] puts before a message sent at [t]. *)
Definition chat_stamp (t : tm) : string := strftime_expand chat_datefmt t.

(** [p] passes the channel filter of a broadcast to [chan]: there is no
    filter when [chan] is NULL or empty. *)
Definition on_channel (chan : option string) (p : participant) : Prop :=
  strlen_zero chan = true \/ channel p = chan.

(** From [st] to [st'] nothing happened to the sessions but bytes
    queued in pipes of participants of the client at [c]: the flag, the
    registry and its lock are the same, and no participant was
    allocated, freed, moved or had an end of its pipe closed. *)
Definition only_queued (c : Z) (st st' : door) : Prop :=
  unloading st' = unloading st /\ clients st' = clients st /\
  clients_locked st' = clients_locked st /\
  forall a,
    part_mem st' !! a = part_mem st !! a \/
    (a ∈ participants_of st c /\
     exists p p', part_mem st !! a = Some p /\ part_mem st' !! a = Some p' /\
                  same_but_queue p p').

(** From [st] to [st'] the clients are the same but for [out] sent, in
    order, on the connection of the client at [c]. *)
Definition sent_to_server (c : Z) (out : list outbound) (st st' : door) : Prop :=
  match out with
  | [] => client_mem st' = client_mem st
  | _ => exists cl, client_mem st !! c = Some cl /\
                    client_mem st' = <[c := set_irc cl (foldl irc_push (irc cl) out)]> (client_mem st)
  end.

(** ** Vocabulary of the reader *)

(** Handing the lines on, one after the other. *)
Fixpoint hand_on {S : Type} (on_line : string -> S -> result S) (lines : list string) (s : S)
  : result S :=
  match lines with
  | [] => Done s
  | l :: ls => do s' <- on_line l s; hand_on on_line ls s'
  end.

(** The lines as the server sends them, each followed by CR LF. *)
Fixpoint wire (lines : list string) : string :=
  match lines with
  | [] => EmptyString
  | l :: ls => l +:+ String CR (String LF (wire ls))
  end.

(** What the reader hands on for lines that arrived in one read: the
    last one with its CR LF, the ones before it with their CR. *)
Fixpoint as_handed (lines : list string) : list string :=
  match lines with
  | [] => []
  | [l] => [l +:+ CRLF]
  | l :: ls => (l +:+ String CR EmptyString) :: as_handed ls
  end.

(** ** Vocabulary of the sessions *)

(** From [st] to [st'] the door is the same but for messages sent on the
    connection of the client at [c] and the contents of pipes: the flag,
    the registry, its lock, every other client, the name and the list
    of the client at [c] are the same, and every participant that was
    allocated still is, on the same node, client and channel and with
    the same ends of its pipe open. *)
Definition session_frame (c : Z) (st st' : door) : Prop :=
  unloading st' = unloading st /\ clients st' = clients st /\
  clients_locked st' = clients_locked st /\
  (forall b, b <> c -> client_mem st' !! b = client_mem st !! b) /\
  (forall cl, client_mem st !! c = Some cl ->
     exists cl', client_mem st' !! c = Some cl' /\
                 participants cl' = participants cl /\ name cl' = name cl) /\
  (forall b, part_mem st' !! b = part_mem st !! b \/
             exists p p', part_mem st !! b = Some p /\ part_mem st' !! b = Some p' /\
                          same_but_queue p p').

(** The pieces of a text put together. *)
Fixpoint glue (pieces : list string) : string :=
  match pieces with
  | [] => EmptyString
  | p :: ps => p +:+ glue ps
  end.



End DoorIrc.

(* ===================================================================== *)
(** * Concrete configurations                                             *)
(* ===================================================================== *)

Module Samples.
Import Libc DoorIrc.

(** An IRC library that knows the four CTCP verbs of the dispatcher, and
    a buffer of 512 bytes plus the terminator. *)
Definition sample_ctcp (s : string) : option irc_ctcp :=
  if String.eqb s "ACTION" then Some CTCP_ACTION
  else if String.eqb s "VERSION" then Some CTCP_VERSION
  else if String.eqb s "PING" then Some CTCP_PING
  else if String.eqb s "TIME" then Some CTCP_TIME
  else if String.eqb s "DCC" then Some CTCP_OTHER
  else None.

Definition sample_ext : Externals :=
  {| IRC_MAX_MSG_LEN := 512;
     IRC_CLIENT_USE_TLS := 1;
     IRC_CLIENT_VERIFY_SERVER := 2;
     IRC_CLIENT_USE_SASL := 4;
     irc_ctcp_from_string := sample_ctcp;
     irc_parse_msg := fun _ => None;
     irc_client_new_ok := fun _ _ _ _ => true;
     BBS_SHORTNAME := "LBBS";
     COLOR_GREEN := "";
     COLOR_RED := "";
     COLOR_CYAN := "";
     COLOR_RESET := "" |}.

(** 2 November, 00:07:05. *)
Definition sample_tm : tm :=
  {| tm_sec := 5; tm_min := 7; tm_hour := 0; tm_mday := 2; tm_mon := 10;
     tm_year := 126; tm_wday := 1; tm_yday := 305; tm_isdst := 0;
     tm_zone := "UTC" |}.

Definition sample_env (res0 : Z) : chat_env :=
  {| sendtime := sample_tm; res_indeterminate := res0;
     buf_indeterminate := EmptyString; vasprintf_ok := true |}.

Definition alice : bbs_node := {| node_id := 1; node_user := "alice"; node_tdd := false |}.
Definition bob_tdd : bbs_node := {| node_id := 2; node_user := "bob"; node_tdd := true |}.
Definition carol : bbs_node := {| node_id := 3; node_user := "carol"; node_tdd := false |}.

Definition attach (n : bbs_node) (chan : string) (wr : bool) : participant :=
  {| node := n; client := 10; channel := Some chan;
     chatpipe0 := true; chatpipe1 := wr; chatpipe_data := EmptyString |}.

Definition sample_irc : irc_client :=
  {| irc_hostname := Some "irc.example.org"; irc_port := 6667;
     irc_username := Some "bbs"; irc_password := None; irc_autojoin := None;
     irc_flags := 0; irc_connected := true; irc_sent := [] |}.

Definition net1 (ps : list Z) : client_t :=
  {| participants := ps; irc := sample_irc; thread := Some 7; log := false;
     logfile := None; name := "net1" |}.

(** One client at address 10 with the given participants. *)
Definition one_client (ps : list (Z * participant)) : door :=
  {| unloading := false; clients := [10]; clients_locked := false;
     client_mem := {[ 10 := net1 (ps.*1) ]};
     part_mem := list_to_map ps;
     bbs_log := [] |}.

(** A TDD user alone on the channel. *)
Definition tdd_alone : door := one_client [(102, attach bob_tdd "#lobby" true)].

(** A TDD user behind a participant whose pipe cannot be written. *)
Definition tdd_behind_failure : door :=
  one_client [(101, attach alice "#lobby" false); (102, attach bob_tdd "#lobby" true)].

(** Three users, two channels. *)
Definition three_users : door :=
  one_client [(101, attach alice "#lobby" true); (102, attach bob_tdd "#lobby" true);
              (103, attach carol "#other" true)].

(** What alice typed, as [participant_relay] hands it on. *)
Definition hi : string := "<alice@1> hi" +:+ String LF EmptyString.

(** The relay thread of [net1], running. *)
Definition relay_thread : Thread.thread_list_t :=
  {| Thread.name := "client_relay started by thread 1";
     Thread.id := 7; Thread.lwp := 4242; Thread.start := 100; Thread.end_ := 0;
     Thread.detached := false; Thread.waitingjoin := false |}.

(** A configuration with one client section, and one with the same
    section twice. *)
Definition net1_section : bbs_config_section :=
  {| section_name := "net1"; cfg_hostname := Some "irc.example.org";
     cfg_username := Some "bbs"; cfg_password := None; cfg_autojoin := Some "#lobby";
     cfg_port := Some 6667; cfg_tls := None; cfg_tlsverify := None; cfg_sasl := None;
     cfg_logfile := Some false |}.

Definition state_of {A : Type} (r : result (A * door)) : door :=
  match r with
  | Done (_, st) => st
  | _ => door_init
  end.

(** Every client connects and gets the relay thread 7. *)
Definition all_start (c : Z) : start_outcome :=
  {| connect_res := 0; login_res := 0; connected_after := true; created := Some 7 |}.

(** The join of a relay thread returns 0 at the first call. *)
Definition relay_joins (t : Z) : Thread.join_env :=
  {| Thread.join_results := [0]; Thread.join_now := 200 |}.

(** The module loaded with [net1] and its client started, alice joined,
    then the module unloaded while she is still attached. *)
Definition net1_loaded : door :=
  state_of (load_config (ext := sample_ext) (Some [net1_section]) [Some 10] false door_init).
Definition net1_started : door :=
  state_of (start_clients all_start net1_loaded).
Definition alice_joined : door :=
  state_of (join_client (Some 101) true net1_started alice "net1").
Definition net1_unloaded : door :=
  match unload_module 0 relay_joins [relay_thread] alice_joined with
  | Done (_, st, _) => st
  | _ => door_init
  end.

(** A handler that keeps the lines it is given and the messages logged,
    in order. *)
Definition keep_line (line : string) (seen : list string) : result (list string) :=
  Done (seen ++ [line]).
Definition keep_log (e : log_entry) (seen : list string) : list string :=
  seen ++ ["logged: " +:+ e.2].

(** What the reader has handed on after [n] passes over the reads
    [sock], and whether it is still in its loop. *)
Definition relayed (n : nat) (sock : list string) : option (bool * list string) :=
  match relay_loop (ext := sample_ext) keep_line keep_log n
          (relay_init (ext := sample_ext) []) sock [] with
  | Done (Some _, seen) => Some (true, seen)
  | Done (None, seen) => Some (false, seen)
  | _ => None
  end.

(** A buffer filled by 512 bytes of a line whose end has not come. *)
Definition filled : relay :=
  {| readbuf := replicate 512 "a"%char ++ [NUL];
     start := 0; mybuf := 512; mylen := 0; res := 512 |}.

(** The module loaded from a file with the section [net1] twice. *)
Definition net1_twice : door :=
  state_of (load_config (ext := sample_ext) (Some [net1_section; net1_section])
              [Some 10; Some 11] false door_init).

Definition queue_of (r : result (Z * door)) (a : Z) : option string :=
  match r with
  | Done (_, st) => chatpipe_data <$> part_mem st !! a
  | _ => None
  end.

End Samples.

(* ===================================================================== *)
(** * More concrete configurations                                        *)
(* ===================================================================== *)

Module MoreSamples.
Import Libc DoorIrc.

(** The relay thread of [net1] once it has ended, not yet joined. *)
Definition finished_thread : Thread.thread_list_t :=
  {| Thread.name := "client_relay started by thread 1";
     Thread.id := 7; Thread.lwp := 4242; Thread.start := 100; Thread.end_ := 180;
     Thread.detached := false; Thread.waitingjoin := true |}.

(** A detached thread of another module. *)
Definition other_thread : Thread.thread_list_t :=
  {| Thread.name := "listener started by thread 1";
     Thread.id := 3; Thread.lwp := 4100; Thread.start := 50; Thread.end_ := 0;
     Thread.detached := true; Thread.waitingjoin := false |}.

(** The state a call left, when it returned. *)
Definition door_of (r : result door) : door :=
  match r with
  | Done st => st
  | _ => door_init
  end.

(** A PING of the server, and the three users after its dispatch. *)
Definition ping_msg : irc_msg :=
  {| prefix := Some "irc.example.org"; numeric := 0;
     command := Some "PING"; body := Some ":12345" |}.

Definition three_users_pinged : door :=
  door_of (handle_irc_msg (ext := Samples.sample_ext) (Samples.sample_env 0)
             Samples.three_users 10 ping_msg).

(** The user types [/quit] and a line feed. *)
Definition quit_event : session_event :=
  {| poll_res := 1; read_res := 1; read_char := "/"; line_res := 5;
     line_text := "quit" +:+ String LF EmptyString; writef_res := 0; bell_res := 0;
     ev_env := Samples.sample_env 0 |}.

(** Alice enters [net1] on [#lobby] and quits at once. *)
Definition alice_session : result (Z * door * list term_out) :=
  irc_client_exec (Some 500) true (Samples.sample_env 0) (Samples.sample_env 0)
    [quit_event] Samples.net1_loaded Samples.alice (Some "net1,#lobby").

Definition session_door (r : result (Z * door * list term_out)) : door :=
  match r with
  | Done (_, st, _) => st
  | _ => door_init
  end.

(** The reader after a read that filled the buffer: a line of 507
    characters has been handed on, the two characters behind it are
    pending, and one byte is free. *)
Definition full_reader : relay :=
  {| readbuf := replicate 507 "x"%char ++ [CR; NUL] ++ bytes "PI" ++ [NUL; NUL];
     start := 509; mybuf := 511; mylen := 1; res := 511 |}.


End MoreSamples.

(* ===================================================================== *)
(** * Properties                                                          *)
(* ===================================================================== *)

Import Libc DoorIrc.

(** ** The timestamp of a broadcast *)

Lemma string_length_app (s1 s2 : string) :
  String.length (s1 +:+ s2) = (String.length s1 + String.length s2)%nat.
Proof. induction s1 as [|a s1 IH]; simpl; [done|]. by rewrite IH. Qed.

Lemma fmt_02d_length (n : Z) :
  0 <= n < 100 -> String.length (fmt_02d n) = 2%nat.
Proof.
  intros Hn.
  assert (Hall : forallb (fun k => Nat.eqb (String.length (fmt_02d (Z.of_nat k))) 2)
                         (seq 0 100) = true) by (vm_compute; reflexivity).
  rewrite forallb_forall in Hall.
  specialize (Hall (Z.to_nat n)).
  rewrite Z2Nat.id in Hall by lia.
  apply Nat.eqb_eq, Hall, in_seq. lia.
Qed.

Lemma hour12_range (h : Z) : 0 <= h <= 23 -> 1 <= hour12 h <= 12.
Proof.
  intros Hh. unfold hour12.
  pose proof (Z.mod_pos_bound h 12 ltac:(lia)).
  destruct (Z.eqb_spec (h `mod` 12) 0); lia.
Qed.

Lemma ampm_lower_length (h : Z) : String.length (ampm_lower h) = 2%nat.
Proof. unfold ampm_lower. by destruct (11 <? h). Qed.

Lemma chat_datefmt_expand (t : tm) :
  strftime_expand DoorIrc.chat_datefmt t =
    fmt_02d (tm_mon t + 1) +:+ "-" +:+ fmt_02d (tm_mday t) +:+ " " +:+
    fmt_02d (hour12 (tm_hour t)) +:+ ":" +:+ fmt_02d (tm_min t) +:+ ":" +:+
    fmt_02d (tm_sec t) +:+ ampm_lower (tm_hour t) +:+ " ".
Proof. reflexivity. Qed.

Lemma chat_datefmt_length (t : tm) :
  tm_valid t -> String.length (strftime_expand DoorIrc.chat_datefmt t) = 17%nat.
Proof.
  intros (Hs & Hm & Hh & Hd & Hmo).
  rewrite chat_datefmt_expand, !string_length_app, ampm_lower_length.
  pose proof (hour12_range _ Hh).
  rewrite !fmt_02d_length by lia. reflexivity.
Qed.

Lemma chat_strftime_fits (t : tm) :
  tm_valid t ->
  strftime 18 DoorIrc.chat_datefmt t = Some (strftime_expand DoorIrc.chat_datefmt t).
Proof. intros Hv. unfold strftime. by rewrite (chat_datefmt_length t Hv). Qed.

(** ** Joining a thread that is not yet waiting to be joined *)

Section ThreadJoin.
Import Thread.

Lemma timedjoin_loop_spinning (k : nat) :
  timedjoin_loop ETIMEDOUT (replicate k ETIMEDOUT) = None.
Proof. induction k as [|k IH]; [reflexivity|]. simpl. exact IH. Qed.

Lemma timedjoin_loop_completes (k : nat) (r : Z) (rest : list Z) :
  r <> ETIMEDOUT ->
  timedjoin_loop ETIMEDOUT (replicate k ETIMEDOUT ++ r :: rest) = Some r.
Proof.
  intros Hr. induction k as [|k IH]; simpl.
  - destruct rest; simpl; destruct (Z.eqb_spec r ETIMEDOUT); try done;
      by rewrite andb_false_r.
  - exact IH.
Qed.

Lemma unregister_walk_first (l : list thread_list_t) (tid now : Z) (x : thread_list_t) :
  find_thread l tid = Some x ->
  exists l',
    unregister_walk l tid now = (Some x, detached x || waitingjoin x, l') /\
    (detached x || waitingjoin x = false ->
     find_thread l' tid = Some (set_waitingjoin x now)).
Proof.
  induction l as [|y l IH]; simpl; [done|].
  destruct (Z.eqb_spec (id y) tid) as [Heq|Hne].
  - intros [= ->]. destruct (detached x || waitingjoin x) eqn:Hw.
    + eexists. split; [reflexivity|done].
    + eexists. split; [reflexivity|]. intros _. simpl.
      by rewrite Heq, Z.eqb_refl.
  - intros Hf. destruct (IH Hf) as (l' & -> & Hl').
    eexists. split; [reflexivity|]. intros Hw. simpl.
    destruct (Z.eqb_spec (id y) tid); [done|]. by apply Hl'.
Qed.

Definition is_error (e : log_entry) : Prop := e.1 = LOG_ERROR.

(** Joining a registered, joinable thread that has not yet marked
    itself as waiting to be joined.  When the first timed join times
    out, the call does not return a failure: as long as the joins keep
    timing out it keeps retrying, and once a join succeeds it returns 0,
    having logged a warning and no error. *)
Lemma timed_out_join_warns_and_retries
    (l : list thread_list_t) (thread : Z) (x : thread_list_t)
    (k : nat) (rest : list Z) (now : Z) :
  find_thread l thread = Some x ->
  detached x = false ->
  waitingjoin x = false ->
  0 < lwp x ->
  __bbs_pthread_join l thread
    {| join_results := replicate (S k) ETIMEDOUT; join_now := now |} = None /\
  exists l' log,
    __bbs_pthread_join l thread
      {| join_results := replicate (S k) ETIMEDOUT ++ 0 :: rest; join_now := now |}
      = Some (0, l', log) /\
    bbs_warning ("Thread " +:+ pretty (lwp x) +:+ " is not currently waiting to be joined")
      ∈ log /\
    Forall (fun e => ~ is_error e) log.
Proof.
  intros Hf Hd Hw Hl. unfold __bbs_pthread_join. rewrite Hf, Hd, Hw.
  destruct (Z.eqb_spec (lwp x) 0) as [|_]; [lia|]. cbn [join_results join_now].
  split.
  - simpl. by rewrite timedjoin_loop_spinning.
  - simpl replicate. cbn [app].
    change (negb (ETIMEDOUT =? 0) && (ETIMEDOUT =? ETIMEDOUT)) with true. cbn iota.
    rewrite timedjoin_loop_completes by done. cbn [mbind option_bind negb Z.eqb].
    unfold target_exit, __thread_unregister.
    destruct (unregister_walk_first l thread now x Hf) as (l1 & -> & Hl1).
    rewrite Hd, Hw in Hl1 |- *. cbn [orb] in Hl1 |- *. cbn [fst snd].
    destruct (unregister_walk_first l1 thread now _ (Hl1 eq_refl)) as (l2 & -> & _).
    cbn [set_waitingjoin detached waitingjoin lwp].
    rewrite Hd. cbn [orb].
    destruct (Z.eqb_spec (lwp x) (-1)) as [|_]; [lia|].
    eexists _, _. split; [reflexivity|]. split.
    + set_solver.
    + repeat constructor; unfold is_error; simpl; done.
Qed.

Lemma timedjoins_never_ended (n : nat) (now cost : Z) :
  timedjoins n now None cost = replicate n ETIMEDOUT.
Proof.
  revert now. induction n as [|n IH]; intros now; [done|].
  cbn [timedjoins pthread_timedjoin_np replicate].
  change (ETIMEDOUT =? ETIMEDOUT) with true. cbn iota. by rewrite IH.
Qed.

Lemma timedjoins_timed_out (n : nat) (now e cost : Z) :
  join_ts <= now -> now < e ->
  timedjoins (Datatypes.S n) now (Some e) cost
  = ETIMEDOUT :: timedjoins n (now + cost) (Some e) cost.
Proof.
  intros Hpast He. cbn [timedjoins]. unfold pthread_timedjoin_np.
  destruct (Z.leb_spec e now) as [|_]; [lia|].
  destruct (Z.leb_spec e join_ts) as [|_]; [lia|].
  change (ETIMEDOUT =? ETIMEDOUT) with true. cbn iota. by rewrite Z.max_l by lia.
Qed.

Lemma timedjoins_ended (n : nat) (now e cost : Z) :
  e <= now -> timedjoins (Datatypes.S n) now (Some e) cost = [0].
Proof.
  intros He. cbn [timedjoins]. unfold pthread_timedjoin_np.
  destruct (Z.leb_spec e now) as [_|]; [|lia]. done.
Qed.

Lemma timedjoins_past_deadline (n : nat) (now e cost : Z) :
  join_ts <= now -> 0 < cost ->
  now + Z.of_nat n * cost < e <= now + Z.of_nat (Datatypes.S n) * cost ->
  timedjoins (Datatypes.S (Datatypes.S n)) now (Some e) cost
  = replicate (Datatypes.S n) ETIMEDOUT ++ [0].
Proof.
  intros Hpast Hcost. revert now Hpast.
  induction n as [|n IH]; intros now Hpast He.
  - rewrite timedjoins_timed_out by lia. rewrite timedjoins_ended by lia. done.
  - rewrite timedjoins_timed_out by lia. rewrite IH by lia. done.
Qed.

(** C9, on the code: joining a registered, joinable thread that has not
    yet marked itself as waiting to be joined.  The 30 ms that
    [__bbs_pthread_join] hands to [pthread_timedjoin_np] are read as a
    time since the Epoch, which has long passed: the first timed join
    does not wait at all, it times out at the very time of the call, so
    the warning is logged however soon the thread ends; the retries that
    follow are not bounded by any interval either, they time out one
    after the other, each at once, until the thread has ended, and for
    ever when it does not end.  Once the thread has ended the call
    returns 0 with the warning and no error logged. *)
Theorem join_before_waiting_does_not_wait
    (l : list thread_list_t) (thread : Z) (x : thread_list_t)
    (now e cost : Z) (n : nat) :
  find_thread l thread = Some x ->
  detached x = false ->
  waitingjoin x = false ->
  0 < lwp x ->
  join_ts <= now ->
  0 < cost ->
  now + Z.of_nat n * cost < e <= now + Z.of_nat (Datatypes.S n) * cost ->
  pthread_timedjoin_np now (Some e) join_ts = (ETIMEDOUT, now) /\
  timedjoins (Datatypes.S (Datatypes.S n)) now (Some e) cost
    = replicate (Datatypes.S n) ETIMEDOUT ++ [0] /\
  (exists l' log,
      __bbs_pthread_join l thread (join_at (Datatypes.S (Datatypes.S n)) now (Some e) cost)
        = Some (0, l', log) /\
      bbs_warning ("Thread " +:+ pretty (lwp x) +:+ " is not currently waiting to be joined")
        ∈ log /\
      Forall (fun e => ~ is_error e) log) /\
  (forall m, __bbs_pthread_join l thread (join_at m now None cost) = None).
Proof.
  intros Hf Hd Hw Hl Hpast Hcost He.
  split; [|split; [by apply timedjoins_past_deadline|split]].
  - cbn [pthread_timedjoin_np].
    destruct (Z.leb_spec e now) as [|_]; [lia|].
    destruct (Z.leb_spec e join_ts) as [|_]; [lia|]. by rewrite Z.max_l by lia.
  - unfold join_at. rewrite (timedjoins_past_deadline n now e cost Hpast Hcost He).
    destruct (timed_out_join_warns_and_retries l thread x n []
                (Z.max now (default now (Some e)) / 1000000000) Hf Hd Hw Hl)
      as (_ & l' & log & Hrun & Hwarn & Hlog).
    by exists l', log.
  - intros m. unfold join_at. rewrite timedjoins_never_ended.
    destruct m as [|m].
    + unfold __bbs_pthread_join. rewrite Hf, Hd.
      destruct (Z.eqb_spec (lwp x) 0) as [|_]; [lia|]. done.
    + by destruct (timed_out_join_warns_and_retries l thread x m []
                     (Z.max now (default now None) / 1000000000) Hf Hd Hw Hl) as (Hspin & _).
Qed.

(** A join called on 2 November 2026 for a thread that ends one
    millisecond later, each round of the loop taking a microsecond. *)
Lemma join_before_waiting_does_not_wait_witness :
  pthread_timedjoin_np 1793577600000000000 (Some 1793577600001000000) join_ts
    = (ETIMEDOUT, 1793577600000000000) /\
  timedjoins (Datatypes.S (Datatypes.S 999)) 1793577600000000000
             (Some 1793577600001000000) 1000
    = replicate (Datatypes.S 999) ETIMEDOUT ++ [0] /\
  (exists l' log,
      __bbs_pthread_join [Samples.relay_thread] 7
        (join_at (Datatypes.S (Datatypes.S 999)) 1793577600000000000
                 (Some 1793577600001000000) 1000)
        = Some (0, l', log) /\
      bbs_warning ("Thread " +:+ pretty (lwp Samples.relay_thread)
                   +:+ " is not currently waiting to be joined") ∈ log /\
      Forall (fun e => ~ is_error e) log) /\
  (forall m, __bbs_pthread_join [Samples.relay_thread] 7
               (join_at m 1793577600000000000 None 1000) = None).
Proof.
  apply (join_before_waiting_does_not_wait [Samples.relay_thread] 7 Samples.relay_thread
           1793577600000000000 1793577600001000000 1000 999).
  - reflexivity.
  - reflexivity.
  - reflexivity.
  - simpl. lia.
  - unfold join_ts. lia.
  - lia.
  - lia.
Defined.

End ThreadJoin.

(** ** The broadcast engine *)

Section Broadcast.
Import DoorIrc.

Lemma write_same (p : participant) (buf : string) (n : Z) :
  same_but_queue p (write p buf n).2.
Proof.
  unfold write, same_but_queue.
  destruct (negb (chatpipe1 p) || negb (chatpipe0 p)); simpl; auto.
Qed.

Lemma same_but_queue_refl (p : participant) : same_but_queue p p.
Proof. unfold same_but_queue; auto. Qed.

Lemma same_but_queue_trans (p q r : participant) :
  same_but_queue p q -> same_but_queue q r -> same_but_queue p r.
Proof. unfold same_but_queue. intuition congruence. Qed.

Lemma chat_deliver_same (p : participant) (d : string) (tl : Z) (msg : string) (len res : Z) :
  same_but_queue p (chat_deliver p d tl msg len res).2.
Proof.
  unfold chat_deliver.
  destruct (negb (node_tdd (node p))).
  - pose proof (write_same p d tl) as H1.
    destruct (write p d tl) as [r1 p1]. simpl in H1.
    destruct (0 <? r1); [|done].
    eapply same_but_queue_trans; [exact H1|apply write_same].
  - destruct (0 <? res); [apply write_same|apply same_but_queue_refl].
Qed.

Lemma chat_send_walk_effect (ps : list Z) (sender : option Z) (chan : option string)
    (d : string) (tl : Z) (msg : string) (len res : Z) (st st' : door) :
  chat_send_walk ps sender chan d tl msg len res st = Done st' ->
  walk_effect ps sender chan st st'.
Proof.
  revert res st. induction ps as [|a ps IH]; intros res st; simpl.
  - intros [= <-]. repeat split. intros b. by left.
  - destruct (part_mem st !! a) as [p|] eqn:Hp; simpl; [|done].
    assert (Hweak : forall st0, walk_effect ps sender chan st st0 ->
                                walk_effect (a :: ps) sender chan st st0).
    { intros st0 (Hc & Hu & Hl & Hb). split; [done|]. split; [done|]. split; [done|].
      intros b. destruct (Hb b) as [|(? & ? & ?)]; [by left|right].
      split; [by apply list_elem_of_further|done]. }
    destruct (decide (Some a = sender)) as [Hs|Hs]; [intros Hw; eauto|].
    assert (Hgo : forall res0,
               let '(res2, p2) := chat_deliver p d tl msg len res0 in
               forall st0 lg,
               (strlen_zero chan = false -> channel p = chan) ->
               walk_effect ps sender chan
                 (add_log (set_participant st a p2) lg) st0 ->
               walk_effect (a :: ps) sender chan st st0).
    { intros res0. pose proof (chat_deliver_same p d tl msg len res0) as Hsame.
      destruct (chat_deliver p d tl msg len res0) as [res2 p2]. simpl in Hsame.
      intros st0 lg Hch (Hc & Hu & Hl & Hb). simpl in *.
      repeat split; try done. intros b. destruct (decide (b = a)) as [->|Hne].
      - right. split; [apply list_elem_of_here|]. split; [done|].
        destruct (Hb a) as [Heq|(_ & _ & q & q' & Hq & Hq' & Hqq & _)].
        + rewrite lookup_insert_eq in Heq. eauto 10.
        + rewrite lookup_insert_eq in Hq. injection Hq as <-.
          exists p, q'. repeat split; try done;
            try (eapply same_but_queue_trans; [exact Hsame|exact Hqq]).
          all: destruct Hsame as (?&?&?&?&?), Hqq as (?&?&?&?&?); congruence.
      - destruct (Hb b) as [Heq|(Hin & Hsn & q & q' & Hq & Hq' & Hqq & Hqc)].
        + left. by rewrite lookup_insert_ne in Heq.
        + right. rewrite lookup_insert_ne in Hq by done.
          split; [by apply list_elem_of_further|]. split; [done|]. eauto 10. }
    destruct (strlen_zero chan) eqn:Hz; simpl.
    + specialize (Hgo res). destruct (chat_deliver p d tl msg len res) as [res2 p2].
      destruct (res2 <=? 0); intros Hw; apply IH in Hw.
      * eapply Hgo; [done|exact Hw].
      * eapply (Hgo st' []); [done|].
        destruct Hw as (? & ? & ? & ?). repeat split; done.
    + destruct (channel p) as [pc|] eqn:Hpc; simpl; [|done].
      destruct (String.eqb_spec pc (default "" chan)) as [Heq|Hne]; simpl.
      * assert (Hch : Some pc = chan).
        { destruct chan as [[|]|]; simpl in *; try done. by rewrite Heq. }
        specialize (Hgo res). destruct (chat_deliver p d tl msg len res) as [res2 p2].
        destruct (res2 <=? 0); intros Hw; apply IH in Hw.
        -- eapply Hgo; [done|exact Hw].
        -- eapply (Hgo st' []); [done|].
           destruct Hw as (? & ? & ? & ?). repeat split; done.
      * intros Hw. eauto.
Qed.

Lemma attached_update (st : door) (ps : list Z) (a : Z) (p p2 : participant)
    (lg : list log_entry) :
  part_mem st !! a = Some p ->
  is_Some (channel p) ->
  same_but_queue p p2 ->
  attached st ps ->
  attached (add_log (set_participant st a p2) lg) ps.
Proof.
  intros Hp Hc (_ & _ & Hch & _) Hat. unfold attached in *.
  eapply Forall_impl; [exact Hat|]. intros b (q & Hq & Hqc). simpl.
  destruct (decide (b = a)) as [->|Hne].
  - exists p2. rewrite lookup_insert_eq. split; [done|]. by rewrite Hch.
  - exists q. by rewrite lookup_insert_ne.
Qed.

Lemma chat_send_walk_returns (ps : list Z) (sender : option Z) (chan : option string)
    (d : string) (tl : Z) (msg : string) (len res : Z) (st : door) :
  attached st ps ->
  exists st', chat_send_walk ps sender chan d tl msg len res st = Done st'.
Proof.
  revert res st. induction ps as [|a ps IH]; intros res st Hat; simpl; [eauto|].
  apply Forall_cons in Hat as [(p & Hp & Hc) Hat]. rewrite Hp. simpl.
  destruct (decide (Some a = sender)); [by apply IH|].
  assert (Hskip : exists b : bool,
             (if strlen_zero chan then Done false
              else strcmp_ne (channel p) (default "" chan)) = Done b).
  { destruct (strlen_zero chan); [eauto|]. destruct Hc as [pc ->]. simpl. eauto. }
  destruct Hskip as [b ->]. simpl. destruct b; [by apply IH|].
  pose proof (chat_deliver_same p d tl msg len res) as Hsame.
  destruct (chat_deliver p d tl msg len res) as [res2 p2]. simpl in Hsame.
  destruct (res2 <=? 0); apply IH.
  - by eapply attached_update.
  - by apply (attached_update st ps a p p2 []) in Hat.
Qed.

(** C1: a broadcast on a ready client returns, and it leaves the
    sender's own participant exactly as it was; under a non-empty
    channel argument it leaves every participant assigned to another
    channel exactly as it was; and it touches no participant outside the
    client's list.  A participant it does touch only gains bytes in its
    pipe. *)
Theorem broadcast_skips_sender_and_other_channels
    (env : chat_env) (st : door) (c : Z) (sender : option Z)
    (chan : option string) (dorelay : bool) (msg : string) (len : Z) :
  broadcast_ready st c sender ->
  exists st',
    __chat_send env st c sender chan dorelay msg len = Done (0, st') /\
    (forall P, sender = Some P -> part_mem st' !! P = part_mem st !! P) /\
    (strlen_zero chan = false ->
     forall a p, part_mem st !! a = Some p -> channel p <> chan ->
                 part_mem st' !! a = Some p) /\
    (forall a, a ∉ participants_of st c -> part_mem st' !! a = part_mem st !! a) /\
    (forall a p, part_mem st !! a = Some p ->
                 exists p', part_mem st' !! a = Some p' /\ same_but_queue p p').
Proof.
  intros [(cl & Hcl & Hat) Hsender].
  unfold __chat_send. cbv zeta.
  set (datestr := strftime_buf env 18 chat_datefmt).
  set (tl := Z.of_nat (String.length datestr)).
  assert (Hassert : exists lg0, bbs_assert (tl =? 17) "timelen == 17" st = add_log st lg0).
  { unfold bbs_assert. destruct (tl =? 17); [exists []|eauto].
    destruct st; unfold add_log; simpl. by rewrite app_nil_r. }
  destruct Hassert as [lg0 ->].
  set (st0 := add_log st lg0).
  assert (Hpm0 : part_mem st0 = part_mem st) by done.
  assert (Hcl0 : client_mem st0 !! c = Some cl) by done.
  clearbody st0. rewrite Hcl0. cbn [deref rbind].
  assert (Hdbg : exists lg,
    match sender with
    | Some s =>
        do sp <- deref (part_mem st0 !! s);
        Done (add_log st0 [bbs_debug ("Broadcasting to " +:+ name cl +:+ "," +:+ fmt_s chan
                     +:+ " (except node " +:+ pretty (node_id (node sp)) +:+ "): "
                     +:+ datestr +:+ str_take (Z.to_nat len) msg)])
    | None =>
        Done (add_log st0 [bbs_debug ("Broadcasting to " +:+ name cl +:+ "," +:+ fmt_s chan
                     +:+ ": " +:+ datestr +:+ str_take (Z.to_nat len) msg)])
    end = Done (add_log st0 lg)).
  { destruct sender as [s|]; [|eauto]. rewrite Hpm0.
    destruct (Hsender s eq_refl) as [sp ->]. simpl. eauto. }
  destruct Hdbg as [lg ->]. cbn [rbind].
  assert (Hrelay : exists st1,
    (if dorelay then client_send (add_log st0 lg) c (OutMsg chan msg)
     else Done (add_log st0 lg)) = Done st1 /\ part_mem st1 = part_mem st).
  { destruct dorelay; [|eauto]. unfold client_send. simpl. rewrite Hcl0. simpl. eauto. }
  destruct Hrelay as (st1 & -> & Hpm). cbn [rbind].
  assert (Hat1 : attached st1 (participants cl)).
  { unfold attached in *. by rewrite Hpm. }
  destruct (chat_send_walk_returns (participants cl) sender chan datestr tl msg len
              (res_indeterminate env) st1 Hat1) as [st' Hwalk].
  rewrite Hwalk. cbn [rbind]. exists st'. split; [done|].
  apply chat_send_walk_effect in Hwalk as (_ & _ & _ & Hb). rewrite Hpm in Hb.
  repeat split.
  - intros P ->. destruct (Hb P) as [|(_ & Hne & _)]; done.
  - intros Hz a p Hp Hne. destruct (Hb a) as [Heq|(_ & _ & q & q' & Hq & _ & _ & Hqc)].
    + by rewrite Heq.
    + rewrite Hp in Hq. injection Hq as <-. by destruct Hne; apply Hqc.
  - intros a Hn. unfold participants_of in Hn. rewrite Hcl in Hn.
    destruct (Hb a) as [|(Hin & _)]; done.
  - intros a p Hp. destruct (Hb a) as [Heq|(_ & _ & q & q' & Hq & Hq' & Hqq & _)].
    + exists p. rewrite Heq. split; [done|apply same_but_queue_refl].
    + rewrite Hp in Hq. injection Hq as <-. eauto.
Qed.

Lemma broadcast_skips_sender_and_other_channels_witness :
  exists st',
    __chat_send (Samples.sample_env 5) Samples.three_users 10 (Some 101)
      (Some "#lobby") true Samples.hi 13 = Done (0, st') /\
    (forall P, Some 101 = Some P ->
               part_mem st' !! P = part_mem Samples.three_users !! P) /\
    (strlen_zero (Some "#lobby") = false ->
     forall a p, part_mem Samples.three_users !! a = Some p ->
                 channel p <> Some "#lobby" ->
                 part_mem st' !! a = Some p) /\
    (forall a, a ∉ participants_of Samples.three_users 10 ->
               part_mem st' !! a = part_mem Samples.three_users !! a) /\
    (forall a p, part_mem Samples.three_users !! a = Some p ->
                 exists p', part_mem st' !! a = Some p' /\ same_but_queue p p').
Proof.
  apply broadcast_skips_sender_and_other_channels.
  split.
  - exists (Samples.net1 [101; 102; 103]). split; [reflexivity|].
    repeat constructor; eexists; (split; [reflexivity|eexists; reflexivity]).
  - intros s Hs. injection Hs as <-. eexists. reflexivity.
Defined.

(** What the two writes come to.  A node that is not a TDD on an open
    pipe gets the timestamp and then the message; a TDD gets the message
    only when the value left in [res] is positive. *)
Lemma chat_deliver_spec (p : participant) (d msg : string) (tl len res : Z) :
  chatpipe0 p = true -> chatpipe1 p = true -> 0 < tl ->
  chatpipe_data (chat_deliver p d tl msg len res).2 =
    if node_tdd (node p) then
      if 0 <? res then chatpipe_data p +:+ str_take (Z.to_nat len) msg
      else chatpipe_data p
    else (chatpipe_data p +:+ str_take (Z.to_nat tl) d) +:+ str_take (Z.to_nat len) msg.
Proof.
  intros H0 H1 Htl. unfold chat_deliver, write. rewrite H0, H1. simpl.
  destruct (node_tdd (node p)); simpl.
  - destruct (0 <? res); simpl; rewrite ?H0, ?H1; done.
  - destruct (Z.ltb_spec 0 tl) as [_|]; [|lia]. simpl. rewrite ?H0, ?H1. done.
Qed.

(** C8, on the code: a TDD user alone on the channel gets nothing when
    the uninitialised [res] happens not to be positive, and gets the
    bare message when it happens to be positive; a TDD user that comes
    after a participant whose write failed gets nothing either, [res]
    still holding that failure. *)
Theorem tdd_delivery_hangs_on_stale_res :
  Samples.queue_of
    (__chat_send (Samples.sample_env 0) Samples.tdd_alone 10 None (Some "#lobby")
       false Samples.hi 13) 102 = Some EmptyString /\
  Samples.queue_of
    (__chat_send (Samples.sample_env 1) Samples.tdd_alone 10 None (Some "#lobby")
       false Samples.hi 13) 102 = Some Samples.hi /\
  Samples.queue_of
    (__chat_send (Samples.sample_env 1) Samples.tdd_behind_failure 10 None (Some "#lobby")
       false Samples.hi 13) 102 = Some EmptyString.
Proof. repeat split; vm_compute; reflexivity. Qed.

Lemma chat_send_walk_log (ps : list Z) (sender : option Z) (chan : option string)
    (d : string) (tl : Z) (msg : string) (len res : Z) (st st' : door) :
  chat_send_walk ps sender chan d tl msg len res st = Done st' ->
  exists k, bbs_log st' = bbs_log st ++ replicate k (bbs_error "write failed").
Proof.
  revert res st. induction ps as [|a ps IH]; intros res st; cbn [chat_send_walk].
  - intros [= <-]. exists 0%nat. by rewrite app_nil_r.
  - destruct (part_mem st !! a) as [p|]; cbn [deref rbind]; [|done].
    destruct (decide (Some a = sender)); [apply IH|].
    destruct (if strlen_zero chan then Done false else strcmp_ne (channel p) (default "" chan))
      as [skip| |]; cbn [rbind]; [|done..].
    destruct skip; [apply IH|].
    destruct (chat_deliver p d tl msg len res) as [res2 p2].
    destruct (res2 <=? 0); intros Hw; apply IH in Hw as [k Hk].
    + exists (Datatypes.S k). rewrite Hk. cbn. by rewrite <- app_assoc.
    + by exists k.
Qed.

(** C10: for every time [localtime_r] can produce, the timestamp of
    [__chat_send] fits its buffer of 18 bytes, so [datestr] holds what
    [strftime] formatted and not what the buffer happened to hold, and
    it has exactly 17 characters.  No call of [__chat_send] that returns
    has logged a failed [bbs_assert(timelen == 17)]. *)
Theorem chat_send_assertion_never_fails (env : chat_env) :
  tm_valid (sendtime env) ->
  strftime 18 chat_datefmt (sendtime env) = Some (strftime_buf env 18 chat_datefmt) /\
  String.length (strftime_buf env 18 chat_datefmt) = 17%nat /\
  (forall st, bbs_assert (Z.of_nat (String.length (strftime_buf env 18 chat_datefmt)) =? 17)
                         "timelen == 17" st = st) /\
  forall st c sender chan dorelay msg len r st',
    __chat_send env st c sender chan dorelay msg len = Done (r, st') ->
    exists lg, bbs_log st' = bbs_log st ++ lg /\ timelen_assertion ∉ lg.
Proof.
  intros Hv.
  assert (Hbuf : strftime_buf env 18 chat_datefmt = strftime_expand chat_datefmt (sendtime env)).
  { unfold strftime_buf. by rewrite (chat_strftime_fits _ Hv). }
  assert (Hlen : String.length (strftime_buf env 18 chat_datefmt) = 17%nat).
  { rewrite Hbuf. by apply chat_datefmt_length. }
  split; [rewrite Hbuf; by apply chat_strftime_fits|]. split; [done|].
  split; [intros st; by rewrite Hlen|].
  intros st c sender chan dorelay msg len r st'. unfold __chat_send. cbv zeta.
  rewrite Hlen. change (Z.of_nat 17 =? 17) with true. cbn [bbs_assert].
  destruct (client_mem st !! c) as [cl|] eqn:Hcl; cbn [deref rbind]; [|done].
  set (d := strftime_buf env 18 chat_datefmt).
  assert (Hcont : forall dbg,
    (do st0 <- (if dorelay then client_send (add_log st [bbs_debug dbg]) c (OutMsg chan msg)
                else Done (add_log st [bbs_debug dbg]));
     do st1 <- chat_send_walk (participants cl) sender chan d (Z.of_nat 17) msg len
                 (res_indeterminate env) st0;
     Done (0, st1)) = Done (r, st') ->
    exists lg, bbs_log st' = bbs_log st ++ lg /\ timelen_assertion ∉ lg).
  { intros dbg.
    assert (Hsend : forall st1,
      (if dorelay then client_send (add_log st [bbs_debug dbg]) c (OutMsg chan msg)
       else Done (add_log st [bbs_debug dbg])) = Done st1 ->
      bbs_log st1 = bbs_log st ++ [bbs_debug dbg]).
    { intros st1. destruct dorelay; [|by intros [= <-]].
      unfold client_send. cbn [client_mem add_log]. rewrite Hcl. cbn [deref rbind].
      by intros [= <-]. }
    destruct (if dorelay then client_send (add_log st [bbs_debug dbg]) c (OutMsg chan msg)
              else Done (add_log st [bbs_debug dbg])) as [st1| |]; cbn [rbind]; [|done..].
    specialize (Hsend st1 eq_refl).
    destruct (chat_send_walk (participants cl) sender chan d (Z.of_nat 17) msg len
                (res_indeterminate env) st1) as [st2| |] eqn:Hw; cbn [rbind]; [|done..].
    intros [= _ <-]. apply chat_send_walk_log in Hw as [k Hk].
    exists (bbs_debug dbg :: replicate k (bbs_error "write failed")).
    split; [rewrite Hk, Hsend, <- app_assoc; done|].
    intros [Heq|Hin]%elem_of_cons; [done|].
    apply elem_of_replicate in Hin as [Heq _]. done. }
  destruct sender as [s|]; [|apply Hcont].
  destruct (part_mem st !! s) as [sp|]; cbn [deref rbind]; [apply Hcont|done].
Qed.

Lemma chat_send_assertion_never_fails_witness :
  strftime 18 chat_datefmt (sendtime (Samples.sample_env 0))
    = Some (strftime_buf (Samples.sample_env 0) 18 chat_datefmt) /\
  String.length (strftime_buf (Samples.sample_env 0) 18 chat_datefmt) = 17%nat /\
  (forall st, bbs_assert (Z.of_nat (String.length
                            (strftime_buf (Samples.sample_env 0) 18 chat_datefmt)) =? 17)
                         "timelen == 17" st = st) /\
  forall st c sender chan dorelay msg len r st',
    __chat_send (Samples.sample_env 0) st c sender chan dorelay msg len = Done (r, st') ->
    exists lg, bbs_log st' = bbs_log st ++ lg /\ timelen_assertion ∉ lg.
Proof.
  apply (chat_send_assertion_never_fails (Samples.sample_env 0)).
  unfold tm_valid. simpl. lia.
Defined.

End Broadcast.

(** ** The command dispatcher *)

Section Dispatcher.
Import DoorIrc.
Context {ext : Externals}.

Lemma append_cons (a : ascii) (s t : string) : String a s +:+ t = String a (s +:+ t).
Proof. reflexivity. Qed.

Lemma append_nil (t : string) : EmptyString +:+ t = t.
Proof. reflexivity. Qed.

Lemma strsep_app (s : string) (d : ascii) (r : string) :
  free_of d s -> strsep (s +:+ String d r) d = (s, Some r).
Proof.
  unfold free_of. induction s as [|a s IH]; intros Hf.
  - rewrite append_nil. simpl. by rewrite Ascii.eqb_refl.
  - rewrite append_cons. simpl in *. destruct (Ascii.eqb a d); [done|].
    destruct (strchr s d); [done|]. by rewrite IH.
Qed.

Lemma strsep_free (s : string) (d : ascii) :
  free_of d s -> strsep s d = (s, None).
Proof.
  unfold free_of. induction s as [|a s IH]; intros Hf; [done|].
  simpl in *. destruct (Ascii.eqb a d); [done|].
  destruct (strchr s d); [done|]. by rewrite IH.
Qed.

Lemma cut_at_app (s : string) (c : ascii) (t : string) :
  free_of c s ->
  is_Some (strchr (s +:+ String c t) c) /\ cut_at (s +:+ String c t) c = s.
Proof.
  unfold free_of, cut_at. induction s as [|a s IH]; intros Hf.
  - rewrite append_nil. simpl. rewrite Ascii.eqb_refl. eauto.
  - rewrite append_cons. simpl in *. destruct (Ascii.eqb a c); [done|].
    destruct (strchr s c) eqn:Hs; [done|].
    destruct (IH eq_refl) as [[n Hn] Hcut]. rewrite Hn in *. simpl.
    split; [eauto|]. by rewrite Hcut.
Qed.

Lemma free_of_app (c : ascii) (s t : string) :
  free_of c s -> free_of c t -> free_of c (s +:+ t).
Proof.
  unfold free_of. induction s as [|a s IH]; intros Hs Ht; [done|].
  rewrite append_cons. simpl in *. destruct (Ascii.eqb a c); [done|].
  destruct (strchr s c); [done|]. by rewrite IH.
Qed.

Lemma append_nonempty (s : string) (c : ascii) (t : string) :
  match s +:+ String c t with EmptyString => true | _ => false end = false.
Proof. by destruct s. Qed.

(** The steps of the dispatcher up to the CTCP verb, on a well-formed
    request. *)
Lemma ctcp_request_decoded (chan verb : string) (arg : option string) :
  free_of " " chan -> free_of " " verb -> free_of SOH verb ->
  (forall a, arg = Some a -> free_of SOH a) ->
  let inner := verb +:+ match arg with Some a => String " " a | None => EmptyString end in
  strsep (ctcp_body chan verb arg) " "
    = (chan, Some (String ":" (String SOH (inner +:+ String SOH EmptyString)))) /\
  is_Some (strchr (inner +:+ String SOH EmptyString) SOH) /\
  strsep (cut_at (inner +:+ String SOH EmptyString) SOH) " " = (verb, arg).
Proof.
  intros Hc Hv Hvs Ha inner.
  assert (Hin : free_of SOH inner).
  { apply free_of_app; [done|]. destruct arg as [a|]; [|done].
    unfold free_of. simpl. by rewrite (Ha a eq_refl). }
  destruct (cut_at_app inner SOH EmptyString Hin) as [Hsome Hcut].
  split; [|split; [done|]].
  - unfold ctcp_body. fold inner.
    change (" :" +:+ ?x) with (String " " (String ":" x)).
    by rewrite strsep_app.
  - rewrite Hcut. unfold inner. destruct arg as [a|].
    + by rewrite strsep_app.
    + change (verb +:+ EmptyString) with (verb +:+ "").
      assert (verb +:+ "" = verb) as -> by (clear; induction verb; [done|]; rewrite append_cons; congruence).
      by apply strsep_free.
Qed.


(** C6, on the code: a message whose command is [KICK] reaches the last
    arm of the dispatcher; it is logged as unhandled and nothing is
    relayed or sent. *)
Theorem kick_is_logged_as_unhandled
    (env : chat_env) (st : door) (c : Z) (pfx b : option string) :
  handle_irc_msg env st c
    {| prefix := pfx; numeric := 0; command := Some "KICK"; body := b |}
  = Done (add_log st [bbs_warning ("Unhandled command: prefix: " +:+ fmt_s pfx
                                   +:+ ", command: " +:+ "KICK"
                                   +:+ ", body: " +:+ fmt_s b)]).
Proof. reflexivity. Qed.

(** The arm meant for it is taken by the command [KICKED], which no
    server sends. *)
Lemma kicked_is_relayed (env : chat_env) (st : door) (c : Z) (pfx b : option string) :
  handle_irc_msg env st c
    {| prefix := pfx; numeric := 0; command := Some "KICKED"; body := b |}
  = relay_to_local env st c b
      (fmt_s pfx +:+ " has been " +:+ COLOR_RED +:+ "kicked" +:+ COLOR_RESET
       +:+ String LF EmptyString).
Proof. reflexivity. Qed.

End Dispatcher.


(** ** The registry while the module unloads *)

Section Unloading.
Import DoorIrc.
Context {ext : Externals}.

Lemma same_registry_refl (st : door) : same_registry st st.
Proof. by split. Qed.

Lemma same_registry_trans (st1 st2 st3 : door) :
  same_registry st1 st2 -> same_registry st2 st3 -> same_registry st1 st3.
Proof. unfold same_registry. intuition congruence. Qed.

Lemma client_send_registry (st : door) (c : Z) (o : outbound) (st' : door) :
  client_send st c o = Done st' -> same_registry st st'.
Proof.
  unfold client_send. destruct (client_mem st !! c); simpl; [|done].
  intros [= <-]. by split.
Qed.

Lemma chat_send_registry (env : chat_env) (st : door) (c : Z) (sender : option Z)
    (chan : option string) (dorelay : bool) (text : string) (r : Z) (st' : door) :
  _chat_send env st c sender chan dorelay text = Done (r, st') -> same_registry st st'.
Proof.
  unfold _chat_send. destruct (vasprintf_ok env); [|by intros [= _ <-]].
  unfold __chat_send. cbv zeta.
  set (st0 := bbs_assert _ _ st).
  assert (H0 : same_registry st st0).
  { unfold st0, bbs_assert. by destruct (_ =? 17). }
  clearbody st0. destruct (client_mem st0 !! c) as [cl|]; simpl; [|done].
  match goal with |- rbind ?m _ = _ -> _ =>
    assert (H1 : forall st1, m = Done st1 -> same_registry st0 st1) end.
  { intros st1. destruct sender as [s|]; simpl.
    - destruct (part_mem st0 !! s); simpl; [|done]. by intros [= <-].
    - by intros [= <-]. }
  match goal with |- rbind ?m _ = _ -> _ => destruct m as [st1| |]; simpl; [|done..] end.
  specialize (H1 st1 eq_refl).
  match goal with |- rbind ?m _ = _ -> _ =>
    assert (H2 : forall st2, m = Done st2 -> same_registry st1 st2) end.
  { intros st2. destruct dorelay; [apply client_send_registry|by intros [= <-]]. }
  match goal with |- rbind ?m _ = _ -> _ => destruct m as [st2| |]; simpl; [|done..] end.
  specialize (H2 st2 eq_refl).
  match goal with |- rbind ?m _ = _ -> _ => destruct m as [st3| |] eqn:Hw; simpl; [|done..] end.
  intros [= _ <-]. apply chat_send_walk_effect in Hw as (_ & Hu & Hl & _).
  destruct H0, H1, H2. split; congruence.
Qed.

Lemma relay_to_local_registry (env : chat_env) (st : door) (c : Z)
    (chan : option string) (text : string) (st' : door) :
  relay_to_local env st c chan text = Done st' -> same_registry st st'.
Proof.
  unfold relay_to_local.
  destruct (_chat_send env st c None chan false text) as [[r st1]| |] eqn:Hs; simpl; [|done..].
  intros [= <-]. by eapply chat_send_registry.
Qed.

Lemma add_log_registry (st : door) (lg : list log_entry) : same_registry st (add_log st lg).
Proof. by split. Qed.

Lemma handle_irc_msg_registry (env : chat_env) (st : door) (c : Z) (msg : irc_msg)
    (st' : door) :
  handle_irc_msg env st c msg = Done st' -> same_registry st st'.
Proof.
  unfold handle_irc_msg, handle_ctcp, skip1, deref, rbind.
  repeat case_match; intros Hdone; simplify_eq;
    eauto using same_registry_refl, add_log_registry, client_send_registry,
                relay_to_local_registry.
  all: eapply same_registry_trans; [apply (add_log_registry st)|];
    eauto using add_log_registry, client_send_registry, relay_to_local_registry.
Qed.

Lemma relay_line_registry (envf : nat -> chat_env) (c : Z) (line : string)
    (s s' : door * nat) :
  relay_line envf c line s = Done s' -> same_registry s.1 s'.1.
Proof.
  destruct s as [st n]. unfold relay_line.
  destruct (client_mem st !! c) as [cl|]; cbn [deref rbind]; [|done].
  set (st1 := match logfile cl with Some _ => _ | None => st end).
  assert (H1 : same_registry st st1) by (unfold st1; by destruct (logfile cl)).
  clearbody st1. destruct (irc_parse_msg line) as [msg|]; [|by intros [= <-]].
  destruct (handle_irc_msg (envf n) st1 c msg) as [st2| |] eqn:Hh; cbn [rbind]; [|done..].
  intros [= <-]. apply handle_irc_msg_registry in Hh.
  by eapply same_registry_trans.
Qed.

Section RelayInvariant.
Context {S : Type}.
Variable on_line : string -> S -> result S.
Variable on_log : log_entry -> S -> S.
Variable P : S -> Prop.
Hypothesis on_line_keeps : forall l s s', P s -> on_line l s = Done s' -> P s'.
Hypothesis on_log_keeps : forall e s, P s -> P (on_log e s).

(** What the handlers keep, the reader keeps. *)
Lemma relay_scan_keeps (fuel : nat) (r : relay) (pb : nat) (pl : Z) (s : S)
    (r' : relay) (s' : S) :
  relay_scan on_line fuel r pb pl s = Done (r', s') -> P s -> P s'.
Proof.
  revert r s. induction fuel as [|fuel IH]; intros r s; simpl; [done|].
  destruct (strstr_crlf _) as [k|]; [|by intros [= _ <-]].
  destruct (readbuf r !! _) as [after|]; cbn [deref rbind]; [|done].
  destruct (on_line _ s) as [s1| |] eqn:Hl; cbn [rbind]; [|done..].
  match goal with |- rbind (deref ?o) _ = _ -> _ => destruct o as [next|] end;
    cbn [deref rbind]; [|done].
  destruct (Ascii.eqb next NUL).
  - intros [= _ <-] Hs. by eapply on_line_keeps.
  - intros Hscan Hs. eapply IH; [exact Hscan|]. by eapply on_line_keeps.
Qed.

Lemma relay_iter_keeps (r : relay) (sock : list string) (s : S)
    (out : option (relay * list string)) (s' : S) :
  relay_iter on_line on_log r sock s = Done (out, s') -> P s -> P s'.
Proof.
  unfold relay_iter. intros Hit Hs.
  assert (Hb : P (relay_begin on_log r s).2).
  { unfold relay_begin. destruct (mylen r <=? 1); [|done].
    destruct (shift_loop _ _ _ _) as [b a]. destruct (_ <=? 1); [|done].
    by apply on_log_keeps. }
  destruct (relay_begin on_log r s) as [r0 s0]. simpl in Hb.
  destruct (if negb _ then _ else _); [by injection Hit as _ <-|].
  destruct (irc_read sock (mylen r0)) as [got sock'].
  destruct (_ <=? 0); [by injection Hit as _ <-|].
  match type of Hit with rbind ?m _ = _ => destruct m as [[r1 s1]| |] eqn:Hscan end;
    cbn [rbind] in Hit; [|done..].
  injection Hit as _ <-. by eapply relay_scan_keeps.
Qed.

Lemma relay_loop_keeps (fuel : nat) (r : relay) (sock : list string) (s : S)
    (out : option (relay * list string)) (s' : S) :
  relay_loop on_line on_log fuel r sock s = Done (out, s') -> P s -> P s'.
Proof.
  revert r sock s. induction fuel as [|fuel IH]; intros r sock s; simpl.
  - by intros [= _ <-].
  - destruct (relay_iter on_line on_log r sock s) as [[o s1]| |] eqn:Hit; cbn [rbind]; [|done..].
    intros Hl Hs. pose proof (relay_iter_keeps _ _ _ _ _ Hit Hs) as Hs1.
    cbn [fst snd] in Hl. destruct o as [[r1 sock1]|].
    + by eapply IH.
    + by injection Hl as _ <-.
Qed.

End RelayInvariant.

Lemma client_relay_registry (fuel : nat) (envf : nat -> chat_env) (fopen_ok : bool)
    (stack : list ascii) (st : door) (c : Z) (sock : list string)
    (out : option (relay * list string)) (st' : door) :
  client_relay fuel envf fopen_ok stack st c sock = Done (out, st') ->
  same_registry st st'.
Proof.
  unfold client_relay. destruct (client_mem st !! c) as [cl|]; cbn [deref rbind]; [|done].
  set (opened := if log cl then _ else _).
  assert (Ho : forall st1, opened = Some st1 -> same_registry st st1).
  { unfold opened. intros st1. destruct (log cl); [destruct fopen_ok|]; by intros [= <-]. }
  destruct opened as [st1|]; [|by intros [= _ <-]].
  specialize (Ho st1 eq_refl).
  destruct (relay_loop _ _ _ _ _ _) as [[o s1]| |] eqn:Hl; cbn [rbind]; [|done..].
  assert (Hs1 : same_registry st s1.1).
  { eapply (relay_loop_keeps _ _ (fun s => same_registry st s.1)); [| |exact Hl|exact Ho].
    - intros l s s' Hs Hline. apply relay_line_registry in Hline.
      by eapply same_registry_trans.
    - intros e s Hs. done. }
  cbn [fst snd]. destruct o as [rs|].
  - by intros [= _ <-].
  - destruct (client_mem s1.1 !! c); cbn [deref rbind]; [|done]. by intros [= _ <-].
Qed.

Lemma wrlock_registry (st st1 : door) :
  wrlock st = Done st1 -> st1 = set_locked st true /\ clients_locked st = false.
Proof. unfold wrlock. destruct (clients_locked st); [done|]. by intros [= <-]. Qed.

Lemma find_client_empty (st : door) (nm : string) :
  clients st = [] -> find_client st nm = Done None.
Proof. unfold find_client. by intros ->. Qed.

Lemma join_client_registry (calloc : option Z) (pipe_ok : bool) (st : door)
    (nd : bbs_node) (nm : string) (r : option Z) (st' : door) :
  join_client calloc pipe_ok st nd nm = Done (r, st') -> same_registry st st'.
Proof.
  unfold join_client. destruct (wrlock st) as [st1| |] eqn:Hl; simpl; [|done..].
  apply wrlock_registry in Hl as [-> _].
  destruct (find_client _ nm) as [[c|]| |]; simpl; [| |done..].
  - destruct calloc as [a|]; [|by intros [= _ <-]].
    destruct pipe_ok; [|by intros [= _ <-]].
    destruct (client_mem _ !! c); simpl; [|done]. by intros [= _ <-].
  - by intros [= _ <-].
Qed.

Lemma leave_client_registry (st : door) (c a : Z) (st' : door) :
  leave_client st c a = Done st' -> same_registry st st'.
Proof.
  unfold leave_client. destruct (wrlock st) as [st1| |] eqn:Hl; simpl; [|done..].
  apply wrlock_registry in Hl as [-> _]. cbn [unloading set_locked].
  destruct (unloading st).
  - cbn [unlock set_locked part_mem]. destruct (part_mem st !! a); simpl; [|done].
    by intros [= <-].
  - cbn [client_mem set_locked]. destruct (client_mem st !! c) as [cl|]; simpl; [|done].
    destruct (remove_first a (participants cl)) as [ps found].
    destruct found; cbn [part_mem set_locked set_client_mem];
      (destruct (part_mem st !! a); simpl; [|done]); by intros [= <-].
Qed.

Lemma assign_channel_registry (st : door) (a : Z) (chan : string) (st' : door) :
  assign_channel st a chan = Done st' -> same_registry st st'.
Proof.
  unfold assign_channel. destruct (part_mem st !! a); simpl; [|done]. by intros [= <-].
Qed.

Lemma drain_registry (st : door) (a : Z) (st' : door) :
  drain st a = Done st' -> same_registry st st'.
Proof. unfold drain. destruct (part_mem st !! a); simpl; [|done]. by intros [= <-]. Qed.

Lemma start_walk_unloading (cs kept : list Z) (oracle : Z -> start_outcome)
    (started : Z) (st : door) (r : Z) (st' : door) :
  start_walk cs kept oracle started st = Done (r, st') ->
  unloading st' = unloading st /\ (cs = [] -> clients st' = kept).
Proof.
  revert kept started st. induction cs as [|c cs IH]; intros kept started st; simpl.
  - destruct (negb (started =? 0)); by intros [= _ <-].
  - destruct (client_mem st !! c) as [cl|]; simpl; [|done].
    destruct ((_ =? 0) && negb _); destruct (negb (_ =? 0)).
    all: try (intros Hw; apply IH in Hw as [Hu _]; by split).
    all: destruct (created (oracle c));
      [intros Hw; apply IH in Hw as [Hu _]; by split|by intros [= _ <-]].
Qed.

Lemma unload_clients_done (cs : list Z) (joins : Z -> Thread.join_env)
    (tl : list Thread.thread_list_t) (st st' : door) (tl' : list Thread.thread_list_t) :
  unload_clients cs joins tl st = Done (st', tl') ->
  unloading st' = unloading st /\ clients st' = [] /\
  clients_locked st' = clients_locked st.
Proof.
  revert tl st. induction cs as [|c cs IH]; intros tl st; simpl; [by intros [= <- _]|].
  destruct (client_mem st !! c) as [cl|]; simpl; [|done].
  destruct (boot_participants _ _) as [m| |]; simpl; [|done..].
  destruct (thread cl) as [t|]; simpl; [|done].
  destruct (join_relay_thread tl t (joins t)) as [j| |]; simpl; [|done..].
  intros Hu. by apply IH in Hu.
Qed.

Lemma load_sections_unloading (secs : list bbs_config_section)
    (callocs : list (option Z)) (indet : bool) (st : door) :
  unloading (load_sections secs callocs indet st) = unloading st.
Proof.
  revert callocs indet st.
  induction secs as [|sec secs IH]; intros callocs indet st; simpl; [done|].
  destruct (String.eqb _ _); [apply IH|].
  destruct callocs as [|[a|] callocs]; [by rewrite IH| |by rewrite IH].
  destruct (irc_client_new_ok _ _ _ _); by rewrite IH.
Qed.

Lemma loaded_unloaded_empty (st : door) : loaded st -> unloaded_empty st.
Proof.
  intros (cfg & callocs & indet & r & Hl) Hu. unfold load_config in Hl.
  destruct cfg as [secs|]; [|by injection Hl as _ <-].
  simpl in Hl. injection Hl as _ <-. cbn [unlock set_locked unloading] in Hu.
  by rewrite load_sections_unloading in Hu.
Qed.

Lemma door_step_unloaded_empty (st st' : door) :
  door_step st st' -> unloaded_empty st -> unloaded_empty st'.
Proof.
  assert (Hsame : forall s s', same_registry s s' -> unloaded_empty s -> unloaded_empty s').
  { intros s s' [Hu Hc] Hinv Hun. rewrite Hc. apply Hinv. by rewrite <- Hu. }
  intros Hstep. destruct Hstep as
    [oracle st r st' H | calloc pipe_ok nd nm st r st' H | a chan st st' H
    | a st st' H | env c sender chan dorelay text st r st' H | env c msg st st' H
    | fuel envf fopen_ok stack c sock st out st' H
    | c a st st' H | unreg joins tl st r st' tl' H].
  - intros Hinv Hun. unfold start_clients in H.
    destruct (wrlock st) as [st1| |] eqn:Hl; simpl in H; [|done..].
    apply wrlock_registry in Hl as [-> _]. cbn [clients set_locked] in H.
    apply start_walk_unloading in H as [Hu Hc]. cbn [unloading set_locked] in Hu.
    rewrite Hu in Hun. rewrite (Hinv Hun) in Hc. by apply Hc.
  - apply Hsame. by eapply join_client_registry.
  - apply Hsame. by eapply assign_channel_registry.
  - apply Hsame. by eapply drain_registry.
  - apply Hsame. by eapply chat_send_registry.
  - apply Hsame. by eapply handle_irc_msg_registry.
  - apply Hsame. by eapply client_relay_registry.
  - apply Hsame. by eapply leave_client_registry.
  - intros _ _. unfold unload_module in H.
    destruct (wrlock st) as [st1| |] eqn:Hl; simpl in H; [|done..].
    destruct (unload_clients _ _ _ _) as [[st2 tl2]| |] eqn:Hu; simpl in H; [|done..].
    injection H as _ <- _. by apply unload_clients_done in Hu as (_ & Hc & _).
Qed.

Lemma reachable_unloaded_empty (st : door) : reachable st -> unloaded_empty st.
Proof.
  intros (st0 & Hl & Hsteps). apply loaded_unloaded_empty in Hl.
  induction Hsteps as [|s1 s2 s3 Hstep _ IH]; [done|].
  apply IH. by eapply door_step_unloaded_empty.
Qed.

(** C4: in every state the module can reach with the [unloading] flag
    set, a join is refused, creating no participant and attaching
    nothing, and a leave only frees the participant: the registry, the
    clients and their lists stay as they are. *)
Theorem unloading_refuses_join_and_leave_only_frees
    (st : door) (calloc : option Z) (pipe_ok : bool) (nd : bbs_node) (nm : string)
    (c a : Z) (p : participant) :
  reachable st ->
  unloading st = true ->
  clients_locked st = false ->
  part_mem st !! a = Some p ->
  (exists st',
      join_client calloc pipe_ok st nd nm = Done (None, st') /\
      part_mem st' = part_mem st /\
      client_mem st' = client_mem st /\
      clients st' = []) /\
  leave_client st c a = Done (set_part_mem st (delete a (part_mem st))).
Proof.
  intros Hr Hu Hl Hp. pose proof (reachable_unloaded_empty st Hr Hu) as Hc.
  split.
  - unfold join_client, wrlock. rewrite Hl. cbn [rbind].
    rewrite find_client_empty by done. cbn [rbind].
    eexists. split; [reflexivity|]. by repeat split.
  - unfold leave_client, wrlock. rewrite Hl. cbn [rbind unloading set_locked].
    rewrite Hu. cbn [unlock set_locked part_mem]. rewrite Hp. cbn [deref rbind].
    f_equal. destruct st. simpl in *. by subst.
Qed.

End Unloading.

Lemma unloading_refuses_join_and_leave_only_frees_witness :
  (exists st',
      DoorIrc.join_client (Some 105) true Samples.net1_unloaded Samples.bob_tdd "net1"
        = Done (None, st') /\
      part_mem st' = part_mem Samples.net1_unloaded /\
      client_mem st' = client_mem Samples.net1_unloaded /\
      clients st' = []) /\
  leave_client Samples.net1_unloaded 10 101
    = Done (set_part_mem Samples.net1_unloaded
              (delete 101 (part_mem Samples.net1_unloaded))).
Proof.
  apply (unloading_refuses_join_and_leave_only_frees (ext := Samples.sample_ext)
           Samples.net1_unloaded
           (Some 105) true Samples.bob_tdd "net1" 10 101
           (close_write_end
              {| node := Samples.alice; client := 10; channel := None;
                 chatpipe0 := true; chatpipe1 := true;
                 chatpipe_data := EmptyString |})).
  - exists Samples.net1_loaded. split.
    + exists (Some [Samples.net1_section]), [Some 10], false, 0. reflexivity.
    + eapply rtc_l; [apply (step_start Samples.all_start _ 0); reflexivity|].
      eapply rtc_l; [apply (step_join (Some 101) true Samples.alice "net1" _ (Some 101));
                     reflexivity|].
      eapply rtc_l; [apply (step_unload 0 Samples.relay_joins [Samples.relay_thread] _ 0 _ []);
                     reflexivity|].
      apply rtc_refl.
  - reflexivity.
  - reflexivity.
  - reflexivity.
Defined.

(** ** Loading the configuration *)

Section Loading.
Context {ext : Externals}.

(** C7, on the code: two client sections of one name, both accepted by
    the IRC library, leave two clients of that name on the registry, and
    nothing is logged. *)
Theorem load_config_keeps_both_sections_of_a_name
    (sec1 sec2 : bbs_config_section) (a1 a2 : Z) (indet : bool) :
  section_name sec2 = section_name sec1 ->
  String.eqb (section_name sec1) "general" = false ->
  a1 <> a2 ->
  irc_client_new_ok (cfg_hostname sec1) (default 0 (cfg_port sec1))
    (cfg_username sec1) (cfg_password sec1) = true ->
  irc_client_new_ok (cfg_hostname sec2) (default 0 (cfg_port sec2))
    (cfg_username sec2) (cfg_password sec2) = true ->
  exists st',
    load_config (Some [sec1; sec2]) [Some a1; Some a2] indet door_init = Done (0, st') /\
    clients st' = [a1; a2] /\
    client_names st' = [Some (section_name sec1); Some (section_name sec1)] /\
    bbs_log st' = [].
Proof.
  intros Hname Hgen Hne Hok1 Hok2. unfold load_config. cbn [wrlock door_init clients_locked rbind].
  cbn [load_sections]. rewrite Hname, Hgen, Hok1, Hok2.
  eexists. split; [reflexivity|]. cbn. split; [done|]. split; [|done].
  unfold client_names. cbn. rewrite lookup_insert_ne by done.
  by rewrite !lookup_insert_eq.
Qed.

End Loading.

Lemma load_config_keeps_both_sections_of_a_name_witness :
  exists st',
    load_config (ext := Samples.sample_ext)
      (Some [Samples.net1_section; Samples.net1_section]) [Some 10; Some 11] false door_init
      = Done (0, st') /\
    clients st' = [10; 11] /\
    client_names st' = [Some "net1"; Some "net1"] /\
    bbs_log st' = [].
Proof.
  apply (load_config_keeps_both_sections_of_a_name (ext := Samples.sample_ext)
           Samples.net1_section Samples.net1_section 10 11 false).
  - reflexivity.
  - reflexivity.
  - lia.
  - reflexivity.
  - reflexivity.
Defined.

(** Of two clients of one name only the first can be joined. *)
Example join_reaches_the_first_of_a_name :
  let st := Samples.state_of (join_client (Some 101) true Samples.net1_twice
                                Samples.alice "NET1") in
  participants_of st 10 = [101] /\ participants_of st 11 = [].
Proof. split; vm_compute; reflexivity. Qed.

(** ** The relay reader *)

Section Reader.
Context {ext : Externals} {S : Type}.
Variable on_line : string -> S -> result S.
Variable on_log : log_entry -> S -> S.

Lemma cstr_length_le (l : list ascii) : (String.length (cstr l) <= length l)%nat.
Proof.
  induction l as [|a l IH]; simpl; [done|].
  destruct (Ascii.eqb a NUL); simpl; lia.
Qed.

Lemma cstr_drop (l : list ascii) (i : nat) (ch : ascii) :
  l !! i = Some ch ->
  cstr (drop i l) =
    if Ascii.eqb ch NUL then EmptyString else String ch (cstr (drop (Datatypes.S i) l)).
Proof. intros Hi. by rewrite (drop_S l ch i Hi). Qed.

Lemma cstr_drop_end (l : list ascii) (i : nat) :
  l !! i = None -> cstr (drop i l) = EmptyString.
Proof. intros Hi. apply lookup_ge_None in Hi. by rewrite drop_ge. Qed.

Lemma drop_insert_before (l : list ascii) (i n : nat) (x : ascii) :
  (i < n)%nat -> drop n (<[i := x]> l) = drop n l.
Proof. intros Hi. by rewrite drop_insert_lt. Qed.

(** The copying loop moves exactly the pending text: [a] advances by its
    length. *)
Lemma shift_loop_count (fuel : nat) (buf : list ascii) (a st : nat) :
  (a <= st)%nat ->
  (String.length (cstr (drop st buf)) <= fuel)%nat ->
  (shift_loop fuel buf a st).2 = (a + String.length (cstr (drop st buf)))%nat.
Proof.
  revert buf a st. induction fuel as [|fuel IH]; intros buf a st Ha Hf.
  - simpl in *. lia.
  - simpl. destruct (buf !! st) as [ch|] eqn:Hch.
    + rewrite (cstr_drop _ _ _ Hch) in Hf |- *.
      destruct (Ascii.eqb ch NUL); simpl in *; [lia|].
      rewrite IH; rewrite ?drop_insert_before by lia; lia.
    + rewrite (cstr_drop_end _ _ Hch). simpl. lia.
Qed.

Lemma str_take_nonempty (n : nat) (s : string) :
  (0 < n)%nat -> s <> EmptyString -> (0 < String.length (str_take n s))%nat.
Proof. destruct n, s; simpl; intros; try done; lia. Qed.

End Reader.

(** The reader on concrete reads: a line that arrives whole is handed on
    once, and so is a line cut inside its text; a line cut between its CR
    and its LF is not handed on at all, and it is handed on glued to the
    line that follows it. *)
Example split_between_cr_and_lf_is_not_dispatched :
  Samples.relayed 1 ["PING :x" +:+ CRLF]
    = Some (true, ["PING :x" +:+ CRLF]) /\
  Samples.relayed 2 ["PRIVMSG #lobby :par"; "tial message" +:+ CRLF]
    = Some (true, ["PRIVMSG #lobby :partial message" +:+ CRLF]) /\
  Samples.relayed 2 ["PING :x" +:+ String CR EmptyString; String LF EmptyString]
    = Some (true, []) /\
  Samples.relayed 3 ["PING :x" +:+ String CR EmptyString; String LF EmptyString;
                     "NEXT" +:+ CRLF]
    = Some (true, ["PING :x" +:+ CRLF +:+ "NEXT" +:+ CRLF]).
Proof. repeat split; vm_compute; reflexivity. Qed.

(** ** Reassembling a line from several reads *)

Section Reassembly.
Context {ext : Externals} {S : Type}.
Variable on_line : string -> S -> result S.
Variable on_log : log_entry -> S -> S.

Lemma bytes_app (s t : string) : bytes (s +:+ t) = bytes s ++ bytes t.
Proof. induction s as [|a s IH]; [done|]. unfold bytes in *. simpl. by rewrite <- IH. Qed.

Lemma bytes_length (s : string) : length (bytes s) = String.length s.
Proof. induction s as [|a s IH]; [done|]. unfold bytes in *. simpl. by rewrite IH. Qed.

Lemma store_terminated (buf : list ascii) (off : nat) (s : string) :
  (off + String.length s < length buf)%nat ->
  <[(off + String.length s)%nat := NUL]> (store buf off s)
    = take off buf ++ bytes s ++ NUL :: drop (Datatypes.S (off + String.length s)) buf.
Proof.
  revert buf off. induction s as [|a s IH]; intros buf off Hlen; simpl in *.
  - rewrite Nat.add_0_r. rewrite insert_take_drop by lia. done.
  - replace (off + Datatypes.S (String.length s))%nat
      with (Datatypes.S off + String.length s)%nat by lia.
    rewrite IH by (rewrite length_insert; lia).
    rewrite drop_insert_lt by lia.
    rewrite (take_S_r _ _ a) by (apply list_lookup_insert_eq; lia).
    rewrite take_insert_ge by lia.
    rewrite <- (assoc_L (++)). done.
Qed.

Lemma cstr_terminated (s : string) (rest : list ascii) :
  strchr s NUL = None -> cstr (bytes s ++ NUL :: rest) = s.
Proof.
  induction s as [|a s IH]; intros Hs; [done|].
  unfold bytes in *. simpl in *.
  destruct (Ascii.eqb a NUL); [done|].
  destruct (strchr s NUL); [done|]. by rewrite IH.
Qed.

Lemma plain_cons (a : ascii) (s : string) :
  plain (String a s) -> Ascii.eqb a NUL = false /\ Ascii.eqb a CR = false /\ plain s.
Proof.
  unfold plain. simpl. intros [H0 H1].
  destruct (Ascii.eqb a NUL); [done|]. destruct (Ascii.eqb a CR); [done|].
  destruct (strchr s NUL); [done|]. by destruct (strchr s CR).
Qed.

(** Where the search for the terminator ends on a text stored with its
    NUL: nowhere in a text without CR, nowhere when the text ends in a
    lone CR, at the CR of a final CR LF. *)
Lemma strstr_crlf_text (s : string) (rest : list ascii) :
  plain s ->
  strstr_crlf (bytes s ++ NUL :: rest) = None /\
  strstr_crlf (bytes (s +:+ String CR EmptyString) ++ NUL :: rest) = None /\
  strstr_crlf (bytes (s +:+ String CR (String LF EmptyString)) ++ NUL :: rest)
    = Some (String.length s).
Proof.
  induction s as [|a s IH]; intros Hs.
  - by vm_compute.
  - apply plain_cons in Hs as (Hn & Hc & Hs). destruct (IH Hs) as (IH1 & IH2 & IH3).
    rewrite !append_cons. unfold bytes in *. cbn [String.list_ascii_of_string app strstr_crlf].
    rewrite Hn, Hc. cbn [andb]. by rewrite IH1, IH2, IH3.
Qed.

Lemma str_take_all (n : nat) (s : string) :
  (String.length s <= n)%nat -> str_take n s = s.
Proof.
  revert n. induction s as [|a s IH]; intros [|n] Hn; simpl in *; try done; try lia.
  rewrite IH; [done|lia].
Qed.

Lemma store_length (buf : list ascii) (off : nat) (s : string) :
  length (store buf off s) = length buf.
Proof.
  revert buf off. induction s as [|a s IH]; intros buf off; simpl; [done|].
  by rewrite IH, length_insert.
Qed.

(** One pass of the loop when more than one byte is free and the chunk
    read fits: the chunk is stored behind what is pending, terminated,
    and scanned. *)
Lemma relay_iter_fits (r : relay) (chunk : string) (sock : list string) (s : S) :
  1 < mylen r ->
  chunk <> EmptyString ->
  (String.length chunk <= Z.to_nat (mylen r))%nat ->
  (mybuf r + String.length chunk < length (readbuf r))%nat ->
  let buf := take (mybuf r) (readbuf r) ++ bytes chunk
             ++ NUL :: drop (Datatypes.S (mybuf r + String.length chunk)) (readbuf r) in
  relay_iter on_line on_log r (chunk :: sock) s =
    do out <- relay_scan on_line (Datatypes.S (length buf))
                {| readbuf := buf; start := start r; mybuf := mybuf r;
                   mylen := mylen r; res := Z.of_nat (String.length chunk) |}
                (mybuf r) (mylen r) s;
    Done (Some (out.1, sock), out.2).
Proof.
  intros Hfree Hne Hfit Hin buf. unfold relay_iter, relay_begin.
  destruct (Z.leb_spec (mylen r) 1) as [|_]; [lia|].
  assert ((if negb (res r =? bufcap) then irc_poll (chunk :: sock) <=? 0 else false) = false)
    as -> by (by destruct (negb _)).
  unfold irc_read. rewrite str_take_all by done.
  rewrite drop_ge by (fold (bytes chunk); rewrite bytes_length; lia).
  cbn [String.string_of_list_ascii].
  destruct (Z.leb_spec (Z.of_nat (String.length chunk)) 0) as [H0|_].
  { destruct chunk; [done|simpl in H0; lia]. }
  rewrite store_terminated by done. done.
Qed.


(** The scan of a buffer holding the pending text [pre], the chunk just
    read, and the terminator. *)
Lemma relay_scan_no_terminator (fuel : nat) (pre chunk : string) (rest : list ascii)
    (st0 : nat) (len res0 : Z) (pl : Z) (s : S) :
  strstr_crlf (bytes chunk ++ NUL :: rest) = None ->
  relay_scan on_line (Datatypes.S fuel)
    {| readbuf := bytes pre ++ bytes chunk ++ NUL :: rest; start := st0;
       mybuf := String.length pre; mylen := len; res := res0 |}
    (String.length pre) pl s
  = Done ({| readbuf := bytes pre ++ bytes chunk ++ NUL :: rest; start := st0;
             mybuf := (String.length pre + Z.to_nat res0)%nat;
             mylen := pl - res0; res := res0 |}, s).
Proof.
  intros Hnone. cbn [relay_scan mybuf readbuf].
  rewrite <- (bytes_length pre), drop_app_length. by rewrite Hnone.
Qed.

Lemma relay_scan_last_line (fuel : nat) (pre t : string) (rest : list ascii)
    (len res0 : Z) (pl : Z) (s : S) :
  strchr pre NUL = None ->
  plain t ->
  let line := pre +:+ t +:+ String CR (String LF EmptyString) in
  let buf := bytes pre ++ bytes (t +:+ String CR (String LF EmptyString)) ++ NUL :: rest in
  relay_scan on_line (Datatypes.S fuel)
    {| readbuf := buf; start := 0; mybuf := String.length pre; mylen := len; res := res0 |}
    (String.length pre) pl s
  = do s' <- on_line line s; Done (relay_reset buf res0, s').
Proof.
  intros Hpre Ht line buf. cbn [relay_scan mybuf readbuf start].
  unfold buf at 1. rewrite <- (bytes_length pre) at 1. rewrite drop_app_length.
  destruct (strstr_crlf_text t rest Ht) as (_ & _ & ->).
  assert (Hnul : buf !! (String.length pre + String.length t + 2)%nat = Some NUL).
  { unfold buf. rewrite (assoc_L (++)). apply list_lookup_middle.
    rewrite length_app, !bytes_length, string_length_app. simpl. lia. }
  rewrite Hnul. cbn [deref rbind]. rewrite Ascii.eqb_refl. rewrite drop_0.
  assert (Hline : cstr buf = line).
  { unfold buf, line. rewrite (assoc_L (++)), <- bytes_app. apply cstr_terminated.
    destruct Ht as [Ht _]. apply free_of_app; [done|]. by apply free_of_app. }
  rewrite Hline. destruct (on_line line s) as [s'| |]; cbn [rbind]; [|done..].
  rewrite Hnul. cbn [deref rbind]. by rewrite Ascii.eqb_refl.
Qed.


Lemma bytes_nonempty (s : string) : s <> EmptyString -> (0 < String.length s)%nat.
Proof. destruct s; simpl; [done|lia]. Qed.

(** A pass that reads a chunk without terminator behind the pending
    text [pre]: nothing is handed on, the chunk joins the pending text. *)
Lemma relay_iter_incomplete (buf : list ascii) (pre chunk : string) (res0 : Z)
    (sock : list string) (s : S) :
  length buf = Datatypes.S IRC_MAX_MSG_LEN ->
  take (String.length pre) buf = bytes pre ->
  chunk <> EmptyString ->
  (String.length pre + String.length chunk + 2 <= IRC_MAX_MSG_LEN)%nat ->
  (forall rest, strstr_crlf (bytes chunk ++ NUL :: rest) = None) ->
  exists rest,
    relay_iter on_line on_log
      {| readbuf := buf; start := 0; mybuf := String.length pre;
         mylen := bufcap - Z.of_nat (String.length pre); res := res0 |}
      (chunk :: sock) s
    = Done (Some ({| readbuf := bytes (pre +:+ chunk) ++ NUL :: rest; start := 0;
                     mybuf := String.length (pre +:+ chunk);
                     mylen := bufcap - Z.of_nat (String.length (pre +:+ chunk));
                     res := Z.of_nat (String.length chunk) |}, sock), s) /\
    length (bytes (pre +:+ chunk) ++ NUL :: rest) = Datatypes.S IRC_MAX_MSG_LEN.
Proof.
  intros Hlen Hpre Hne Hfit Hnone. unfold bufcap in *.
  exists (drop (Datatypes.S (String.length pre + String.length chunk)) buf).
  rewrite relay_iter_fits; cbn [mylen mybuf readbuf start]; [|lia|done|lia|lia].
  rewrite Hpre, relay_scan_no_terminator by apply Hnone. cbn [rbind fst snd].
  rewrite Nat2Z.id, bytes_app, string_length_app, <- (assoc_L (++)), Nat2Z.inj_add.
  split; [do 5 f_equal; lia|].
  rewrite !length_app, !bytes_length. cbn [length]. rewrite length_drop. lia.
Qed.

(** A pass that reads the rest of a line and its CR LF behind the pending
    text [pre]: the whole line is handed on, once, and the reader starts
    afresh. *)
Lemma relay_iter_completes (buf : list ascii) (pre t : string) (res0 : Z)
    (sock : list string) (s : S) :
  length buf = Datatypes.S IRC_MAX_MSG_LEN ->
  take (String.length pre) buf = bytes pre ->
  strchr pre NUL = None ->
  plain t ->
  (String.length pre + String.length t + 2 < IRC_MAX_MSG_LEN)%nat ->
  let crlf := String CR (String LF EmptyString) in
  exists buf',
    relay_iter on_line on_log
      {| readbuf := buf; start := 0; mybuf := String.length pre;
         mylen := bufcap - Z.of_nat (String.length pre); res := res0 |}
      ((t +:+ crlf) :: sock) s
    = (do s' <- on_line (pre +:+ t +:+ crlf) s;
       Done (Some (relay_reset buf' (Z.of_nat (String.length (t +:+ crlf))), sock), s')) /\
    length buf' = Datatypes.S IRC_MAX_MSG_LEN.
Proof.
  intros Hlen Hpre Hnul Ht Hfit crlf. subst crlf. unfold bufcap in *.
  assert (Hl : String.length (t +:+ String CR (String LF EmptyString))
               = (String.length t + 2)%nat)
    by (by rewrite string_length_app).
  eexists. rewrite relay_iter_fits; cbn [mylen mybuf readbuf start]; rewrite ?Hl;
    [|lia|by destruct t|lia|lia].
  rewrite Hpre, relay_scan_last_line by done.
  split; [by destruct (on_line _ s)|].
  rewrite !length_app, !bytes_length, Hl. cbn [length]. rewrite length_drop. lia.
Qed.


Lemma append_assoc (s t u : string) : (s +:+ t) +:+ u = s +:+ t +:+ u.
Proof. induction s as [|a s IH]; [done|]. rewrite !append_cons. by rewrite IH. Qed.

Lemma plain_app (s t : string) : plain s -> plain t -> plain (s +:+ t).
Proof. intros [? ?] [? ?]. split; by apply free_of_app. Qed.

Lemma relay_reset_shape (buf : list ascii) (res0 : Z) :
  relay_reset buf res0 =
    {| readbuf := buf; start := 0; mybuf := String.length EmptyString;
       mylen := bufcap - Z.of_nat (String.length EmptyString); res := res0 |}.
Proof. unfold relay_reset. simpl. by rewrite Z.sub_0_r. Qed.

(** A line cut anywhere inside its text, or just before its CR: the two
    reads hand on one line, the very line a single read hands on. *)
Theorem line_cut_in_its_text_is_handed_on_once
    (buf0 : list ascii) (res0 : Z) (l1 l2 : string) (sock : list string) (s : S) :
  length buf0 = Datatypes.S IRC_MAX_MSG_LEN ->
  plain l1 -> plain l2 -> l1 <> EmptyString ->
  (String.length l1 + String.length l2 + 2 < IRC_MAX_MSG_LEN)%nat ->
  let line := l1 +:+ l2 +:+ CRLF in
  exists b1 n1 b2 n2,
    relay_loop on_line on_log 1 (relay_reset buf0 res0) (line :: sock) s
      = (do s' <- on_line line s; Done (Some (relay_reset b1 n1, sock), s')) /\
    relay_loop on_line on_log 2 (relay_reset buf0 res0) (l1 :: (l2 +:+ CRLF) :: sock) s
      = (do s' <- on_line line s; Done (Some (relay_reset b2 n2, sock), s')).
Proof.
  intros Hlen H1 H2 Hne Hfit line. subst line.
  destruct (relay_iter_completes buf0 EmptyString (l1 +:+ l2) res0 sock s Hlen)
    as (b1 & Hw & _); [done|done|by apply plain_app|rewrite string_length_app; simpl; lia|].
  destruct (relay_iter_incomplete buf0 EmptyString l1 res0 ((l2 +:+ CRLF) :: sock) s Hlen)
    as (rest & Hi & Hlen1); [done|done|simpl; lia|intros; by apply strstr_crlf_text|].
  rewrite append_nil in Hi, Hlen1.
  destruct (relay_iter_completes (bytes l1 ++ NUL :: rest) l1 l2
              (Z.of_nat (String.length l1)) sock s Hlen1)
    as (b2 & Hc & _); [by rewrite <- (bytes_length l1), take_app_length|apply H1|done|lia|].
  rewrite <- relay_reset_shape, append_nil, append_assoc in Hw.
  rewrite <- relay_reset_shape in Hi.
  eexists b1, _, b2, _. split.
  - cbn [relay_loop]. rewrite Hw. by destruct (on_line _ s).
  - cbn [relay_loop]. rewrite Hi. cbn [rbind fst snd]. rewrite Hc.
    by destruct (on_line _ s).
Qed.

(** C2, on the code: a line cut between its CR and its LF.  The search
    for the terminator starts at the bytes of the last read, which hold
    the LF alone: the two reads hand on nothing, and the whole line stays
    pending. *)
Theorem line_cut_in_its_terminator_stays_pending
    (buf0 : list ascii) (res0 : Z) (l : string) (sock : list string) (s : S) :
  length buf0 = Datatypes.S IRC_MAX_MSG_LEN ->
  plain l ->
  (String.length l + 4 <= IRC_MAX_MSG_LEN)%nat ->
  exists r',
    relay_loop on_line on_log 2 (relay_reset buf0 res0)
      ((l +:+ String CR EmptyString) :: String LF EmptyString :: sock) s
      = Done (Some (r', sock), s) /\
    start r' = 0%nat /\
    pending r' = l +:+ CRLF.
Proof.
  intros Hlen Hl Hfit.
  assert (Hlc : String.length (l +:+ String CR EmptyString) = (String.length l + 1)%nat)
    by (by rewrite string_length_app).
  destruct (relay_iter_incomplete buf0 EmptyString (l +:+ String CR EmptyString) res0
              (String LF EmptyString :: sock) s Hlen)
    as (rest & Hi & Hlen1);
    [done|by destruct l|simpl; lia|intros; by apply strstr_crlf_text|].
  rewrite append_nil in Hi, Hlen1. rewrite <- relay_reset_shape in Hi.
  destruct (relay_iter_incomplete (bytes (l +:+ String CR EmptyString) ++ NUL :: rest)
              (l +:+ String CR EmptyString) (String LF EmptyString)
              (Z.of_nat (String.length (l +:+ String CR EmptyString))) sock s Hlen1)
    as (rest2 & Hi2 & _);
    [by rewrite <- (bytes_length (l +:+ _)), take_app_length|done|simpl; lia|done|].
  eexists. split; [|split].
  - cbn [relay_loop]. rewrite Hi. cbn [rbind fst snd]. rewrite Hi2. reflexivity.
  - reflexivity.
  - unfold pending. cbn [start readbuf]. rewrite drop_0, cstr_terminated.
    + by rewrite append_assoc.
    + destruct Hl as [Hl _]. apply free_of_app; [|done]. by apply free_of_app.
Qed.

End Reassembly.

Lemma line_cut_in_its_terminator_stays_pending_witness :
  exists r',
    relay_loop (ext := Samples.sample_ext) Samples.keep_line Samples.keep_log 2
      (relay_reset (ext := Samples.sample_ext) (replicate 513 NUL) 0)
      (("PING :x" +:+ String CR EmptyString) :: String LF EmptyString :: []) []
      = Done (Some (r', []), []) /\
    start r' = 0%nat /\
    pending r' = "PING :x" +:+ CRLF.
Proof.
  apply (line_cut_in_its_terminator_stays_pending (ext := Samples.sample_ext)
           Samples.keep_line Samples.keep_log (replicate 513 NUL) 0 "PING :x" [] []).
  - reflexivity.
  - split; reflexivity.
  - simpl. lia.
Defined.

(** ** A line that does not fit the buffer *)

Section Oversized.
Context {ext : Externals} {S : Type}.
Variable on_line : string -> S -> result S.
Variable on_log : log_entry -> S -> S.

(** C5: when at most one byte is free and moving the pending text to the
    front frees no more, the reader gives the buffer up: [start] and
    [mybuf] go back to the front, the whole buffer is free again, and
    "Buffer truncation!" is logged as an error.  The pass goes on from
    there as from an empty buffer: as long as data arrives the loop is
    not left, and a complete line that arrives next is handed on alone,
    with nothing of the text given up. *)
Theorem oversized_line_is_dropped_and_reading_goes_on (r : relay) (s : S) :
  length (readbuf r) = Datatypes.S IRC_MAX_MSG_LEN ->
  (1 < IRC_MAX_MSG_LEN)%nat ->
  mylen r <= 1 ->
  bufcap - Z.of_nat (String.length (pending r)) <= 1 ->
  exists buf,
    let r0 := relay_reset buf (res r) in
    let s0 := on_log (bbs_error "Buffer truncation!") s in
    relay_begin on_log r s = (r0, s0) /\
    (forall sock,
        relay_iter on_line on_log r sock s = relay_iter on_line on_log r0 sock s0) /\
    (forall chunk sock s',
        chunk <> EmptyString ->
        relay_iter on_line on_log r (chunk :: sock) s <> Done (None, s')) /\
    (forall t sock,
        plain t -> (String.length t + 2 < IRC_MAX_MSG_LEN)%nat ->
        exists b n,
          relay_iter on_line on_log r ((t +:+ CRLF) :: sock) s
          = (do s' <- on_line (t +:+ CRLF) s0;
             Done (Some (relay_reset b n, sock), s'))).
Proof.
  intros Hsize Hcap Hlen Hfull. unfold pending in Hfull.
  set (sh := shift_loop (length (readbuf r)) (readbuf r) 0 (start r)).
  assert (Ha : sh.2 = String.length (cstr (drop (start r) (readbuf r)))).
  { unfold sh. rewrite shift_loop_count; [done|lia|].
    etrans; [apply cstr_length_le|]. rewrite length_drop. lia. }
  assert (Hlenb : length sh.1 = length (readbuf r)).
  { unfold sh. generalize (length (readbuf r)) at 1. intros fuel.
    generalize 0%nat (start r) (readbuf r). induction fuel as [|fuel IH]; intros a st b; [done|].
    simpl. destruct (b !! st) as [ch|]; [|done].
    destruct (Ascii.eqb ch NUL); [done|]. by rewrite IH, length_insert. }
  exists (<[sh.2 := NUL]> sh.1). cbv zeta.
  assert (Hbegin : relay_begin on_log r s =
            (relay_reset (<[sh.2 := NUL]> sh.1) (res r),
             on_log (bbs_error "Buffer truncation!") s)).
  { unfold relay_begin. destruct (Z.leb_spec (mylen r) 1) as [_|]; [|lia].
    fold sh. destruct sh as [b a]. simpl in Ha |- *. rewrite Ha.
    destruct (Z.leb_spec (bufcap - Z.of_nat (String.length (cstr (drop (start r) (readbuf r))))) 1);
      [done|lia]. }
  assert (Hbegin0 : forall buf s0, relay_begin on_log (relay_reset buf (res r)) s0
                                   = (relay_reset buf (res r), s0)).
  { intros buf s0. unfold relay_begin, relay_reset. cbn [mylen].
    destruct (Z.leb_spec bufcap 1) as [Hb|]; [|done]. unfold bufcap in Hb. lia. }
  split; [done|].
  assert (Hiter : forall sock,
    relay_iter on_line on_log r sock s =
    relay_iter on_line on_log (relay_reset (<[sh.2 := NUL]> sh.1) (res r)) sock
      (on_log (bbs_error "Buffer truncation!") s)).
  { intros sock. unfold relay_iter. by rewrite Hbegin, Hbegin0. }
  split; [done|]. split.
  2:{ intros t sock Ht Hfit. rewrite Hiter.
      destruct (relay_iter_completes on_line on_log (<[sh.2 := NUL]> sh.1) EmptyString t
                  (res r) sock (on_log (bbs_error "Buffer truncation!") s))
        as (b & Hc & _); [by rewrite length_insert, Hlenb|done|done|done|simpl; lia|].
      rewrite <- relay_reset_shape in Hc. rewrite append_nil in Hc. eauto. }
  intros chunk sock s' Hne. rewrite Hiter. unfold relay_iter. rewrite Hbegin0.
  cbn [relay_reset res mybuf mylen readbuf start irc_poll irc_read].
  assert (Hgot : (0 < String.length (str_take (Z.to_nat bufcap) chunk))%nat).
  { apply str_take_nonempty; [unfold bufcap; lia|done]. }
  destruct (negb (res r =? bufcap)); cbn [Z.leb Z.compare];
    (destruct (Z.leb_spec (Z.of_nat (String.length (str_take (Z.to_nat bufcap) chunk))) 0);
     [lia|]);
    match goal with |- rbind ?m _ <> _ => destruct m as [[? ?]| |] end; simpl; congruence.
Qed.

End Oversized.

Lemma oversized_line_is_dropped_and_reading_goes_on_witness :
  exists buf,
    let r0 := relay_reset (ext := Samples.sample_ext) buf (res Samples.filled) in
    let s0 := Samples.keep_log (bbs_error "Buffer truncation!") [] in
    relay_begin (ext := Samples.sample_ext) Samples.keep_log Samples.filled [] = (r0, s0) /\
    (forall sock,
        relay_iter (ext := Samples.sample_ext) Samples.keep_line Samples.keep_log
          Samples.filled sock []
        = relay_iter (ext := Samples.sample_ext) Samples.keep_line Samples.keep_log
            r0 sock s0) /\
    (forall chunk sock s',
        chunk <> EmptyString ->
        relay_iter (ext := Samples.sample_ext) Samples.keep_line Samples.keep_log
          Samples.filled (chunk :: sock) [] <> Done (None, s')) /\
    (forall t sock,
        plain t -> (String.length t + 2 < 512)%nat ->
        exists b n,
          relay_iter (ext := Samples.sample_ext) Samples.keep_line Samples.keep_log
            Samples.filled ((t +:+ CRLF) :: sock) []
          = (do s' <- Samples.keep_line (t +:+ CRLF) s0;
             Done (Some (relay_reset (ext := Samples.sample_ext) b n, sock), s'))).
Proof.
  apply (oversized_line_is_dropped_and_reading_goes_on (ext := Samples.sample_ext)
           Samples.keep_line Samples.keep_log Samples.filled []).
  - reflexivity.
  - simpl. lia.
  - simpl. lia.
  - vm_compute. discriminate.
Defined.

(** ** The thread inventory *)

Section ThreadInventory.
Import Thread.

Lemma find_thread_app (l l2 : list thread_list_t) (t : Z) :
  find_thread (l ++ l2) t =
    match find_thread l t with
    | Some y => Some y
    | None => find_thread l2 t
    end.
Proof.
  induction l as [|y l IH]; simpl; [done|].
  by destruct (id y =? t).
Qed.

Lemma unregister_walk_app (l l2 : list thread_list_t) (tid now : Z) :
  find_thread l tid = None ->
  unregister_walk (l ++ l2) tid now =
    let '(found, removed, l2') := unregister_walk l2 tid now in
    (found, removed, l ++ l2').
Proof.
  induction l as [|y l IH]; simpl.
  - intros _. by destruct (unregister_walk l2 tid now) as [[? ?] ?].
  - destruct (id y =? tid); [done|]. intros Hf. rewrite (IH Hf).
    by destruct (unregister_walk l2 tid now) as [[? ?] ?].
Qed.

(** Unregistering a thread leaves the entries of the other threads as
    they are, and takes at most one entry off the list. *)
Lemma unregister_walk_others (l : list thread_list_t) (tid now : Z) :
  let '(found, removed, l') := unregister_walk l tid now in
  (forall t, t <> tid -> find_thread l' t = find_thread l t) /\
  length l = ((if removed then 1 else 0) + length l')%nat.
Proof.
  induction l as [|y l IH]; simpl; [done|].
  destruct (Z.eqb_spec (id y) tid) as [Heq|Hne].
  - destruct (detached y || waitingjoin y); split; try done.
    + intros t Ht. simpl. destruct (Z.eqb_spec (id y) t); [congruence|done].
    + intros t Ht. simpl. destruct (Z.eqb_spec (id y) t); [congruence|done].
  - destruct (unregister_walk l tid now) as [[found removed] l'].
    destruct IH as [IH1 IH2]. split.
    + intros t Ht. simpl. destruct (id y =? t); [done|]. by apply IH1.
    + simpl. rewrite IH2. by destruct removed.
Qed.

(** X1: a thread that is not registered, or that is registered as
    detached, is not joined: the call returns -1 with an error logged
    and the list as it was, whatever the joins would have answered. *)
Theorem join_refused_without_joining
    (l : list thread_list_t) (thread : Z) (env : join_env) :
  find_thread l thread = None \/
  (exists x, find_thread l thread = Some x /\ detached x = true) ->
  exists log,
    __bbs_pthread_join l thread env = Some (-1, l, log) /\
    Exists is_error log.
Proof.
  intros [Hf|(x & Hf & Hd)]; unfold __bbs_pthread_join; rewrite Hf.
  - eexists. split; [reflexivity|]. by apply Exists_cons_hd.
  - rewrite Hd. simpl. eexists. split; [reflexivity|]. by apply Exists_cons_hd.
Qed.

Lemma join_refused_without_joining_witness :
  exists log,
    __bbs_pthread_join [Samples.relay_thread] 8 {| join_results := []; join_now := 0 |}
      = Some (-1, [Samples.relay_thread], log) /\
    Exists is_error log.
Proof.
  apply (join_refused_without_joining [Samples.relay_thread] 8).
  left. reflexivity.
Defined.

(** X2: joining a joinable thread that has already ended and is waiting
    to be joined returns 0 when [pthread_join] does, logs no error, and
    takes exactly that thread's entry off the list. *)
Theorem join_of_finished_thread_unregisters_it
    (l : list thread_list_t) (thread : Z) (x : thread_list_t) (rest : list Z) (now : Z) :
  find_thread l thread = Some x ->
  detached x = false ->
  waitingjoin x = true ->
  0 < lwp x ->
  exists l' log,
    __bbs_pthread_join l thread {| join_results := 0 :: rest; join_now := now |}
      = Some (0, l', log) /\
    length l = Datatypes.S (length l') /\
    (forall t, t <> thread -> find_thread l' t = find_thread l t) /\
    Forall (fun e => ~ is_error e) log.
Proof.
  intros Hf Hd Hw Hl. unfold __bbs_pthread_join. rewrite Hf, Hd, Hw.
  destruct (Z.eqb_spec (lwp x) 0) as [|_]; [lia|]. cbn [join_results join_now].
  cbn [mbind option_bind negb Z.eqb target_exit]. unfold __thread_unregister.
  pose proof (unregister_walk_others l thread now) as Ho.
  destruct (unregister_walk_first l thread now x Hf) as (l1 & Hw1 & _).
  rewrite Hw1 in Ho |- *. rewrite Hd, Hw in Ho |- *. cbn [orb] in Ho |- *.
  destruct (Z.eqb_spec (lwp x) (-1)) as [|_]; [lia|].
  destruct Ho as [Ho1 Ho2].
  eexists _, _. split; [reflexivity|]. split; [done|]. split; [done|].
  repeat constructor; unfold is_error; simpl; done.
Qed.

Lemma join_of_finished_thread_unregisters_it_witness :
  exists l' log,
    __bbs_pthread_join [MoreSamples.other_thread; MoreSamples.finished_thread] 7
      {| join_results := 0 :: []; join_now := 200 |}
      = Some (0, l', log) /\
    length [MoreSamples.other_thread; MoreSamples.finished_thread] = Datatypes.S (length l') /\
    (forall t, t <> 7 ->
               find_thread l' t
               = find_thread [MoreSamples.other_thread; MoreSamples.finished_thread] t) /\
    Forall (fun e => ~ is_error e) log.
Proof.
  apply (join_of_finished_thread_unregisters_it
           [MoreSamples.other_thread; MoreSamples.finished_thread] 7
           MoreSamples.finished_thread [] 200).
  - reflexivity.
  - reflexivity.
  - reflexivity.
  - simpl. lia.
Defined.

(** X3: when the join of a registered, joinable thread fails with an
    error other than a timeout, that error is what the call returns; it
    is logged, and the thread stays on the list as it was. *)
Theorem join_error_is_passed_on
    (l : list thread_list_t) (thread : Z) (x : thread_list_t)
    (r : Z) (rest : list Z) (now : Z) :
  find_thread l thread = Some x ->
  detached x = false ->
  lwp x <> 0 ->
  r <> 0 ->
  r <> ETIMEDOUT ->
  exists log,
    __bbs_pthread_join l thread {| join_results := r :: rest; join_now := now |}
      = Some (r, l, log) /\
    Exists is_error log.
Proof.
  intros Hf Hd Hl Hr Ht. unfold __bbs_pthread_join. rewrite Hf, Hd.
  destruct (Z.eqb_spec (lwp x) 0) as [|_]; [done|]. cbn [join_results].
  destruct (Z.eqb_spec r ETIMEDOUT) as [|_]; [done|]. rewrite andb_false_r.
  assert ((if waitingjoin x then Some (r, @nil log_entry) else Some (r, [])) = Some (r, []))
    as -> by (by destruct (waitingjoin x)).
  cbn [mbind option_bind]. destruct (Z.eqb_spec r 0) as [|_]; [done|]. cbn [negb].
  eexists. split; [reflexivity|].
  apply Exists_app. right. by apply Exists_cons_hd.
Qed.

Lemma join_error_is_passed_on_witness :
  exists log,
    __bbs_pthread_join [Samples.relay_thread] 7 {| join_results := 3 :: []; join_now := 0 |}
      = Some (3, [Samples.relay_thread], log) /\
    Exists is_error log.
Proof.
  apply (join_error_is_passed_on [Samples.relay_thread] 7 Samples.relay_thread 3 [] 0).
  - reflexivity.
  - reflexivity.
  - simpl. lia.
  - lia.
  - unfold ETIMEDOUT. lia.
Defined.

(** X4: the life of a joinable thread.  Registered under an id not on
    the list, it is found by that id with its LWP; once it has ended it
    is still listed, waiting to be joined; and the join, whether it comes
    after the thread has ended or waits through timeouts until it ends,
    returns 0 and leaves the list exactly as it was before the thread
    registered. *)
Theorem joined_thread_leaves_no_trace
    (l : list thread_list_t) (nm : string) (self tid t0 t1 t2 : Z)
    (k : nat) (rest : list Z) :
  find_thread l self = None ->
  0 < tid ->
  let running := (thread_register l true nm false self tid t0).1 in
  let ended := (thread_run l true nm false self tid t0 t1).1 in
  bbs_pthread_tid running self = tid /\
  (forall t, t <> self -> bbs_pthread_tid running t = bbs_pthread_tid l t) /\
  (thread_state_name <$> find_thread ended self) = Some "waitjoin" /\
  (exists log,
      __bbs_pthread_join ended self {| join_results := 0 :: rest; join_now := t2 |}
        = Some (0, l, log)) /\
  (exists log,
      __bbs_pthread_join running self
        {| join_results := replicate k ETIMEDOUT ++ 0 :: rest; join_now := t2 |}
        = Some (0, l, log)).
Proof.
  intros Hf Htid running ended.
  set (x := {| name := nm; id := self; lwp := tid; start := t0; end_ := 0;
               detached := false; waitingjoin := false |}).
  assert (Hrun : running = l ++ [x]) by done.
  assert (Hfx : find_thread (l ++ [x]) self = Some x).
  { rewrite find_thread_app, Hf. simpl. by rewrite Z.eqb_refl. }
  assert (Hwalk : forall y now, id y = self ->
            unregister_walk (l ++ [y]) self now =
              if detached y || waitingjoin y then (Some y, true, l ++ [])
              else (Some y, false, l ++ [set_waitingjoin y now])).
  { intros y now Hy. rewrite unregister_walk_app by done. simpl.
    rewrite Hy, Z.eqb_refl. by destruct (detached y || waitingjoin y). }
  assert (Hend : ended = l ++ [set_waitingjoin x t1]).
  { unfold ended, thread_run, thread_register, __thread_unregister. fold x.
    by rewrite (Hwalk x t1 eq_refl). }
  assert (Hfe : find_thread ended self = Some (set_waitingjoin x t1)).
  { rewrite Hend, find_thread_app, Hf. simpl. by rewrite Z.eqb_refl. }
  assert (Hexit : forall now,
            (__thread_unregister (l ++ [x]) self now).1.2 = l ++ [set_waitingjoin x now]).
  { intros now. unfold __thread_unregister. by rewrite (Hwalk x now eq_refl). }
  assert (Hjoin_ended : forall t now,
            __thread_unregister (l ++ [set_waitingjoin x t]) self now
            = (tid, l, [bbs_debug ("Thread " +:+ pretty tid +:+ " has been joined")])).
  { intros t now. unfold __thread_unregister.
    rewrite (Hwalk (set_waitingjoin x t) now eq_refl). simpl.
    by rewrite app_nil_r. }
  split; [|split; [|split; [|split]]].
  - unfold bbs_pthread_tid. by rewrite Hrun, Hfx.
  - intros t Ht. unfold bbs_pthread_tid. rewrite Hrun, find_thread_app.
    destruct (find_thread l t); [done|]. simpl.
    destruct (Z.eqb_spec self t); [congruence|done].
  - by rewrite Hfe.
  - unfold __bbs_pthread_join. rewrite Hfe. cbn [detached waitingjoin set_waitingjoin lwp x].
    destruct (Z.eqb_spec tid 0) as [|_]; [lia|]. cbn [join_results join_now].
    cbn [mbind option_bind negb Z.eqb target_exit]. rewrite Hend, Hjoin_ended.
    destruct (Z.eqb_spec tid (-1)) as [|_]; [lia|]. eauto.
  - unfold __bbs_pthread_join. rewrite Hrun, Hfx. cbn [detached waitingjoin lwp x].
    destruct (Z.eqb_spec tid 0) as [|_]; [lia|]. cbn [join_results join_now].
    destruct k as [|k]; cbn [replicate app].
    + cbn [mbind option_bind negb Z.eqb andb target_exit].
      rewrite Hexit, Hjoin_ended.
      destruct (Z.eqb_spec tid (-1)) as [|_]; [lia|]. eauto.
    + change (negb (ETIMEDOUT =? 0) && (ETIMEDOUT =? ETIMEDOUT)) with true. cbn iota.
      rewrite timedjoin_loop_completes by done.
      cbn [mbind option_bind negb Z.eqb andb target_exit].
      rewrite Hexit, Hjoin_ended.
      destruct (Z.eqb_spec tid (-1)) as [|_]; [lia|]. eauto.
Qed.

Lemma joined_thread_leaves_no_trace_witness :
  let l := [MoreSamples.other_thread] in
  let running := (thread_register l true "client_relay" false 7 4242 100).1 in
  let ended := (thread_run l true "client_relay" false 7 4242 100 180).1 in
  bbs_pthread_tid running 7 = 4242 /\
  (forall t, t <> 7 -> bbs_pthread_tid running t = bbs_pthread_tid l t) /\
  (thread_state_name <$> find_thread ended 7) = Some "waitjoin" /\
  (exists log,
      __bbs_pthread_join ended 7 {| join_results := 0 :: []; join_now := 200 |}
        = Some (0, l, log)) /\
  (exists log,
      __bbs_pthread_join running 7
        {| join_results := replicate 2 ETIMEDOUT ++ 0 :: []; join_now := 200 |}
        = Some (0, l, log)).
Proof.
  apply (joined_thread_leaves_no_trace [MoreSamples.other_thread] "client_relay"
           7 4242 100 180 200 2 []).
  - reflexivity.
  - lia.
Defined.

(** X5: a detached thread takes itself off the list when it ends: the
    list is then exactly what it was before the thread registered.  A
    thread whose registration failed for lack of memory is never listed,
    and its exit logs that the thread was not found. *)
Theorem detached_thread_unregisters_itself
    (l : list thread_list_t) (nm : string) (self tid t0 t1 : Z) :
  find_thread l self = None ->
  (thread_run l true nm true self tid t0 t1).1 = l /\
  (thread_run l false nm true self tid t0 t1).1 = l /\
  Exists is_error (thread_run l false nm true self tid t0 t1).2.
Proof.
  intros Hf. unfold thread_run, thread_register, __thread_unregister.
  rewrite unregister_walk_app by done. cbn [unregister_walk id detached orb].
  rewrite Z.eqb_refl. cbn [fst snd]. rewrite app_nil_r. split; [done|].
  rewrite <- (app_nil_r l) at 1 3. rewrite unregister_walk_app by done.
  cbn [unregister_walk fst snd]. rewrite app_nil_r. split; [done|].
  by apply Exists_cons_hd.
Qed.

Lemma detached_thread_unregisters_itself_witness :
  (thread_run [Samples.relay_thread] true "listener" true 3 4100 50 60).1
    = [Samples.relay_thread] /\
  (thread_run [Samples.relay_thread] false "listener" true 3 4100 50 60).1
    = [Samples.relay_thread] /\
  Exists is_error (thread_run [Samples.relay_thread] false "listener" true 3 4100 50 60).2.
Proof.
  apply (detached_thread_unregisters_itself [Samples.relay_thread] "listener" 3 4100 50 60).
  reflexivity.
Defined.

End ThreadInventory.

(** ** Joining and leaving a client *)

Section JoinLeave.

Lemma find_client_first (st : door) (nm : string) (pre post : list Z) (c : Z) (cl : client_t) :
  clients st = pre ++ c :: post ->
  (forall b, b ∈ pre -> exists bl, client_mem st !! b = Some bl /\ strcaseeq (name bl) nm = false) ->
  client_mem st !! c = Some cl ->
  strcaseeq (name cl) nm = true ->
  find_client st nm = Done (Some c).
Proof.
  unfold find_client. intros -> Hpre Hc Hn.
  induction pre as [|b pre IH]; simpl.
  - rewrite Hc. simpl. by rewrite Hn.
  - destruct (Hpre b) as (bl & Hb & Hbn); [apply list_elem_of_here|].
    rewrite Hb. simpl. rewrite Hbn.
    apply IH. intros b' Hb'. apply Hpre. by apply list_elem_of_further.
Qed.

Lemma find_client_none (st : door) (nm : string) :
  (forall b, b ∈ clients st ->
     exists bl, client_mem st !! b = Some bl /\ strcaseeq (name bl) nm = false) ->
  find_client st nm = Done None.
Proof.
  unfold find_client. generalize (clients st). intros l Hl.
  induction l as [|b l IH]; simpl; [done|].
  destruct (Hl b) as (bl & Hb & Hbn); [apply list_elem_of_here|].
  rewrite Hb. simpl. rewrite Hbn.
  apply IH. intros b' Hb'. apply Hl. by apply list_elem_of_further.
Qed.

Lemma find_client_locked (st : door) (nm : string) (b : bool) :
  find_client (set_locked st b) nm = find_client st nm.
Proof. reflexivity. Qed.

(** X6: a join that names no client of the registry is refused: nothing
    is allocated or attached and an error is logged.  The call returns
    with the lock of the registry still held, so every later join,
    leave, start or unload waits for ever. *)
Theorem join_of_unknown_client_keeps_the_lock
    (calloc : option Z) (pipe_ok : bool) (st : door) (nd : bbs_node) (nm : string) :
  clients_locked st = false ->
  (forall b, b ∈ clients st ->
     exists bl, client_mem st !! b = Some bl /\ strcaseeq (name bl) nm = false) ->
  exists st',
    join_client calloc pipe_ok st nd nm = Done (None, st') /\
    part_mem st' = part_mem st /\ client_mem st' = client_mem st /\
    clients st' = clients st /\
    Exists is_error (drop (length (bbs_log st)) (bbs_log st')) /\
    clients_locked st' = true /\
    (forall calloc2 pipe_ok2 nd2 nm2,
        join_client calloc2 pipe_ok2 st' nd2 nm2 = Blocked) /\
    (forall c a, leave_client st' c a = Blocked) /\
    (forall oracle, start_clients oracle st' = Blocked) /\
    (forall unreg joins tl, unload_module unreg joins tl st' = Blocked).
Proof.
  intros Hl Hnone. unfold join_client, wrlock. rewrite Hl. cbn [rbind].
  rewrite find_client_locked, (find_client_none st nm Hnone). cbn [rbind].
  eexists. split; [reflexivity|]. cbn. split; [done|]. split; [done|]. split; [done|].
  split; [rewrite drop_app_length; by apply Exists_cons_hd|].
  split; [done|]. repeat split; intros; reflexivity.
Qed.

Lemma join_of_unknown_client_keeps_the_lock_witness :
  exists st',
    join_client None true Samples.net1_loaded Samples.alice "nonexistent" = Done (None, st') /\
    part_mem st' = part_mem Samples.net1_loaded /\
    client_mem st' = client_mem Samples.net1_loaded /\
    clients st' = clients Samples.net1_loaded /\
    Exists is_error (drop (length (bbs_log Samples.net1_loaded)) (bbs_log st')) /\
    clients_locked st' = true /\
    (forall calloc2 pipe_ok2 nd2 nm2,
        join_client calloc2 pipe_ok2 st' nd2 nm2 = Blocked) /\
    (forall c a, leave_client st' c a = Blocked) /\
    (forall oracle, start_clients oracle st' = Blocked) /\
    (forall unreg joins tl, unload_module unreg joins tl st' = Blocked).
Proof.
  apply (join_of_unknown_client_keeps_the_lock
           None true Samples.net1_loaded Samples.alice "nonexistent").
  - reflexivity.
  - intros b Hb. apply list_elem_of_singleton in Hb as ->.
    eexists. split; reflexivity.
Defined.

(** X7: when the client exists but no memory or no pipe can be had, the
    join is refused with an error logged and nothing else changed: the
    lock is released and the door stays usable. *)
Theorem join_without_memory_or_pipe_changes_nothing
    (calloc : option Z) (pipe_ok : bool) (st : door) (nd : bbs_node) (nm : string)
    (pre post : list Z) (c : Z) (cl : client_t) :
  clients_locked st = false ->
  clients st = pre ++ c :: post ->
  (forall b, b ∈ pre ->
     exists bl, client_mem st !! b = Some bl /\ strcaseeq (name bl) nm = false) ->
  client_mem st !! c = Some cl ->
  strcaseeq (name cl) nm = true ->
  calloc = None \/ pipe_ok = false ->
  exists e,
    join_client calloc pipe_ok st nd nm = Done (None, add_log st [e]) /\ is_error e.
Proof.
  intros Hl Hcs Hpre Hc Hn Hfail.
  unfold join_client, wrlock. rewrite Hl. cbn [rbind].
  rewrite find_client_locked, (find_client_first st nm pre post c cl Hcs Hpre Hc Hn).
  cbn [rbind].
  assert (Hback : forall e, unlock (add_log (set_locked st true) [e]) = add_log st [e]).
  { intros e. destruct st; cbn in *. by subst. }
  destruct calloc as [a|].
  - destruct Hfail as [Hf|Hf]; [done|]. rewrite Hf, Hback. by eexists.
  - rewrite Hback. by eexists.
Qed.

Lemma join_without_memory_or_pipe_changes_nothing_witness :
  exists e,
    join_client None true Samples.net1_loaded Samples.alice "net1"
      = Done (None, add_log Samples.net1_loaded [e]) /\ is_error e.
Proof.
  eapply (join_without_memory_or_pipe_changes_nothing None true Samples.net1_loaded
            Samples.alice "net1" [] [] 10).
  - reflexivity.
  - reflexivity.
  - intros b Hb. by apply elem_of_nil in Hb.
  - reflexivity.
  - reflexivity.
  - by left.
Defined.

Lemma remove_first_middle (a : Z) (l1 l2 : list Z) :
  a ∉ l1 -> remove_first a (l1 ++ a :: l2) = (l1 ++ l2, true).
Proof.
  induction l1 as [|x l1 IH]; simpl; intros Hn.
  - by rewrite decide_True.
  - rewrite decide_False.
    + rewrite IH; [done|]. intros H. apply Hn. by apply list_elem_of_further.
    + intros ->. apply Hn. apply list_elem_of_here.
Qed.

Lemma remove_first_absent (a : Z) (l : list Z) :
  a ∉ l -> remove_first a l = (l, false).
Proof.
  induction l as [|x l IH]; simpl; intros Hn; [done|].
  rewrite decide_False.
  - rewrite IH; [done|]. intros H. apply Hn. by apply list_elem_of_further.
  - intros ->. apply Hn. apply list_elem_of_here.
Qed.

Lemma door_eta (st : door) :
  {| unloading := unloading st; clients := clients st;
     clients_locked := clients_locked st; client_mem := client_mem st;
     part_mem := part_mem st; bbs_log := bbs_log st |} = st.
Proof. by destruct st. Qed.

(** X8: a join of the first client of that name, with a fresh
    participant and a pipe, puts the participant at the head of the
    client's list with both ends of its pipe open, nothing queued and no
    channel yet; the leave that follows gives back the door exactly as
    it was before the join. *)
Theorem join_then_leave_restores_the_door
    (st : door) (nd : bbs_node) (nm : string) (pre post : list Z)
    (c a : Z) (cl : client_t) :
  clients_locked st = false ->
  unloading st = false ->
  clients st = pre ++ c :: post ->
  (forall b, b ∈ pre ->
     exists bl, client_mem st !! b = Some bl /\ strcaseeq (name bl) nm = false) ->
  client_mem st !! c = Some cl ->
  strcaseeq (name cl) nm = true ->
  part_mem st !! a = None ->
  exists st1,
    join_client (Some a) true st nd nm = Done (Some a, st1) /\
    participants_of st1 c = a :: participants_of st c /\
    part_mem st1 !! a =
      Some {| node := nd; client := c; channel := None; chatpipe0 := true;
              chatpipe1 := true; chatpipe_data := EmptyString |} /\
    (forall b, b <> a -> part_mem st1 !! b = part_mem st !! b) /\
    (forall b, b <> c -> client_mem st1 !! b = client_mem st !! b) /\
    clients st1 = clients st /\ clients_locked st1 = false /\
    leave_client st1 c a = Done st.
Proof.
  intros Hl Hu Hcs Hpre Hc Hn Ha.
  unfold join_client, wrlock. rewrite Hl. cbn [rbind].
  rewrite find_client_locked, (find_client_first st nm pre post c cl Hcs Hpre Hc Hn).
  cbn [rbind]. cbn [client_mem set_locked]. rewrite Hc. cbn [deref rbind].
  eexists. split; [reflexivity|].
  split; [unfold participants_of; cbn; by rewrite lookup_insert_eq, Hc|].
  split; [cbn; by rewrite lookup_insert_eq|].
  split; [intros b Hb; cbn; by rewrite lookup_insert_ne|].
  split; [intros b Hb; cbn; by rewrite lookup_insert_ne|].
  split; [done|]. split; [done|].
  unfold leave_client, wrlock. cbn. rewrite Hu.
  rewrite lookup_insert_eq. cbn. rewrite decide_True by done.
  rewrite lookup_insert_eq. cbn.
  rewrite insert_insert_eq, delete_insert_eq, delete_id by done.
  replace (set_participants (set_participants cl _) _) with cl by (by destruct cl).
  rewrite (insert_id (client_mem st) c cl Hc).
  apply f_equal. destruct st; cbn in *. by subst.
Qed.

Lemma join_then_leave_restores_the_door_witness :
  exists st1,
    join_client (Some 500) true Samples.net1_loaded Samples.alice "NET1" = Done (Some 500, st1) /\
    participants_of st1 10 = 500 :: participants_of Samples.net1_loaded 10 /\
    part_mem st1 !! 500 =
      Some {| node := Samples.alice; client := 10; channel := None; chatpipe0 := true;
              chatpipe1 := true; chatpipe_data := EmptyString |} /\
    (forall b, b <> 500 -> part_mem st1 !! b = part_mem Samples.net1_loaded !! b) /\
    (forall b, b <> 10 -> client_mem st1 !! b = client_mem Samples.net1_loaded !! b) /\
    clients st1 = clients Samples.net1_loaded /\ clients_locked st1 = false /\
    leave_client st1 10 500 = Done Samples.net1_loaded.
Proof.
  eapply (join_then_leave_restores_the_door Samples.net1_loaded Samples.alice "NET1"
            [] [] 10 500); try reflexivity.
  intros b Hb. by apply elem_of_nil in Hb.
Defined.

(** X9: outside an unload, leaving takes the first occurrence of the
    participant off its client's list, keeping the order of the others,
    and frees it; no other participant, no other client and nothing of
    the log changes, and the lock is released. *)
Theorem leave_takes_one_participant_off
    (st : door) (c a : Z) (cl : client_t) (l1 l2 : list Z) (p : participant) :
  clients_locked st = false ->
  unloading st = false ->
  client_mem st !! c = Some cl ->
  participants cl = l1 ++ a :: l2 ->
  a ∉ l1 ->
  part_mem st !! a = Some p ->
  exists st',
    leave_client st c a = Done st' /\
    participants_of st' c = l1 ++ l2 /\
    part_mem st' !! a = None /\
    (forall b, b <> a -> part_mem st' !! b = part_mem st !! b) /\
    (forall b, b <> c -> client_mem st' !! b = client_mem st !! b) /\
    (name <$> client_mem st' !! c) = (name <$> client_mem st !! c) /\
    clients st' = clients st /\ clients_locked st' = false /\
    unloading st' = false /\ bbs_log st' = bbs_log st.
Proof.
  intros Hl Hu Hc Hps Hn Ha.
  unfold leave_client, wrlock. rewrite Hl. cbn. rewrite Hu, Hc. cbn.
  rewrite Hps, (remove_first_middle a l1 l2 Hn), Ha. cbn.
  eexists. split; [reflexivity|]. unfold participants_of. cbn.
  rewrite lookup_insert_eq, lookup_delete_eq. cbn.
  repeat split; try done.
  - intros b Hb. by rewrite lookup_delete_ne.
  - intros b Hb. by rewrite lookup_insert_ne.
Qed.

Lemma leave_takes_one_participant_off_witness :
  exists st',
    leave_client Samples.alice_joined 10 101 = Done st' /\
    participants_of st' 10 = [] ++ [] /\
    part_mem st' !! 101 = None /\
    (forall b, b <> 101 -> part_mem st' !! b = part_mem Samples.alice_joined !! b) /\
    (forall b, b <> 10 -> client_mem st' !! b = client_mem Samples.alice_joined !! b) /\
    (name <$> client_mem st' !! 10) = (name <$> client_mem Samples.alice_joined !! 10) /\
    clients st' = clients Samples.alice_joined /\ clients_locked st' = false /\
    unloading st' = false /\ bbs_log st' = bbs_log Samples.alice_joined.
Proof.
  eapply (leave_takes_one_participant_off Samples.alice_joined 10 101 _ [] []);
    try reflexivity.
  intros H. by apply elem_of_nil in H.
Defined.

(** X10: leaving with a participant that is not on the client's list
    only logs an error: the participant stays allocated, every list and
    every client stay as they were, and the lock is released. *)
Theorem leave_of_unlisted_participant_frees_nothing
    (st : door) (c a : Z) (cl : client_t) (p : participant) :
  clients_locked st = false ->
  unloading st = false ->
  client_mem st !! c = Some cl ->
  a ∉ participants cl ->
  part_mem st !! a = Some p ->
  exists e,
    leave_client st c a = Done (add_log st [e]) /\ is_error e.
Proof.
  intros Hl Hu Hc Hn Ha.
  unfold leave_client, wrlock. rewrite Hl. cbn. rewrite Hu, Hc. cbn.
  rewrite (remove_first_absent a _ Hn), Ha. cbn.
  eexists. split.
  - apply f_equal. destruct st; cbn in *. subst. reflexivity.
  - reflexivity.
Qed.

Lemma leave_of_unlisted_participant_frees_nothing_witness :
  exists e,
    leave_client (Samples.state_of (join_client (Some 102) true Samples.net1_twice
                                      Samples.alice "net1")) 11 102
      = Done (add_log (Samples.state_of (join_client (Some 102) true Samples.net1_twice
                                           Samples.alice "net1")) [e]) /\
    is_error e.
Proof.
  eapply (leave_of_unlisted_participant_frees_nothing
            (Samples.state_of (join_client (Some 102) true Samples.net1_twice
                                      Samples.alice "net1")) 11 102); try reflexivity.
  intros H. by apply elem_of_nil in H.
Defined.

End JoinLeave.

(** ** Unloading the module *)

Section Unload.

Lemma close_write_end_twice (p : participant) :
  close_write_end (close_write_end p) = close_write_end p.
Proof. reflexivity. Qed.

Lemma boot_participants_spec (ps : list Z) (m : gmap Z participant) :
  (forall a, a ∈ ps -> is_Some (m !! a)) ->
  exists m',
    boot_participants ps m = Done m' /\
    forall a, m' !! a = if decide (a ∈ ps) then close_write_end <$> m !! a else m !! a.
Proof.
  revert m. induction ps as [|b ps IH]; intros m Hall; cbn [boot_participants].
  - exists m. split; [done|]. intros a. rewrite decide_False; [done|]. apply not_elem_of_nil.
  - destruct (Hall b) as [p Hp]; [apply list_elem_of_here|]. rewrite Hp. cbn [deref rbind].
    destruct (IH (<[b := close_write_end p]> m)) as (m' & Hm' & Hlook).
    { intros a Ha. destruct (decide (a = b)) as [->|Hne].
      - rewrite lookup_insert_eq. by eexists.
      - rewrite lookup_insert_ne by done. apply Hall. by apply list_elem_of_further. }
    exists m'. split; [done|]. intros a. rewrite Hlook.
    destruct (decide (a = b)) as [->|Hne].
    + rewrite lookup_insert_eq, Hp.
      destruct (decide (b ∈ b :: ps)) as [_|Hn]; [|by destruct Hn; apply list_elem_of_here].
      by destruct (decide (b ∈ ps)).
    + rewrite lookup_insert_ne by done.
      destruct (decide (a ∈ ps)) as [Hin|Hnin]; destruct (decide (a ∈ b :: ps)) as [Hin'|Hnin'];
        try done.
      * destruct Hnin'. by apply list_elem_of_further.
      * apply elem_of_cons in Hin' as [?|?]; done.
Qed.







End Unload.

(** ** Loading the configuration *)

Section LoadConfig.
Context {ext : Externals}.

Lemma client_names_snoc (st : door) (a : Z) (cl : client_t) :
  a ∉ clients st ->
  client_names (set_clients (set_client_mem st (<[a := cl]> (client_mem st)))
                            (clients st ++ [a]))
  = client_names st ++ [Some (name cl)].
Proof.
  intros Ha. unfold client_names. cbn. rewrite fmap_app. cbn.
  rewrite lookup_insert_eq. cbn. f_equal.
  apply list_fmap_ext. intros i c Hc.
  rewrite lookup_insert_ne; [done|]. intros ->. apply Ha. by eapply list_elem_of_lookup_2.
Qed.

Lemma load_sections_spec (secs : list bbs_config_section) (addrs : list Z)
    (indet : bool) (st : door) :
  NoDup addrs ->
  (forall a, a ∈ addrs -> a ∉ clients st) ->
  NoDup (clients st) ->
  (length (nongeneral secs) <= length addrs)%nat ->
  (forall c, c ∈ clients st -> exists cl, client_mem st !! c = Some cl /\ fresh_client cl) ->
  let st' := load_sections secs (Some <$> addrs) indet st in
  client_names st' = client_names st ++ ((Some ∘ section_name) <$> client_sections secs) /\
  NoDup (clients st') /\
  (forall c, c ∈ clients st' -> exists cl, client_mem st' !! c = Some cl /\ fresh_client cl) /\
  clients_locked st' = clients_locked st /\ unloading st' = unloading st /\
  part_mem st' = part_mem st /\ bbs_log st' = bbs_log st.
Proof.
  revert addrs indet st.
  induction secs as [|sec secs IH]; intros addrs indet st Hnd Hfr Hcs Hlen Hok.
  - cbn. rewrite app_nil_r. done.
  - cbn [load_sections]. unfold client_sections, nongeneral in *.
    rewrite filter_cons in Hlen. rewrite filter_cons.
    destruct (String.eqb (section_name sec) "general") eqn:Hg.
    + rewrite decide_False in Hlen by done.
      rewrite decide_False by (by intros [? _]).
      by apply IH.
    + rewrite decide_True in Hlen by done.
      destruct addrs as [|a addrs]; [cbn in Hlen; lia|].
      apply NoDup_cons in Hnd as [Ha Hnd]. cbn [fmap list_fmap].
      assert (Hlen' : (length (filter (fun s => String.eqb (section_name s) "general" = false) secs)
                       <= length addrs)%nat) by (cbn in Hlen; lia).
      fold (section_accepted sec).
      destruct (section_accepted sec) eqn:Hacc.
      * rewrite decide_True by done.
        match goal with |- context [load_sections secs _ _ ?s] => set (st1 := s) end.
        destruct (IH addrs (default indet (cfg_logfile sec)) st1 Hnd) as (Hnames & Hnd' & Hok' & Hl & Hu & Hpm & Hlog); try done.
        { intros b Hb. subst st1. cbn. intros [Hin| ->%list_elem_of_singleton]%elem_of_app.
          - eapply Hfr; [|done]. by apply list_elem_of_further.
          - done. }
        { subst st1. cbn. apply NoDup_app. split; [done|]. split; [|apply NoDup_singleton].
          intros b Hb ->%list_elem_of_singleton. eapply Hfr; [|done]. apply list_elem_of_here. }
        { intros c. subst st1. cbn. intros [Hin| ->%list_elem_of_singleton]%elem_of_app.
          - rewrite lookup_insert_ne.
            + by apply Hok.
            + intros ->. eapply Hfr; [|done]. apply list_elem_of_here.
          - rewrite lookup_insert_eq. eexists. split; [done|]. by repeat split. }
        split; [|done].
        rewrite Hnames. subst st1. rewrite client_names_snoc.
        -- rewrite <- app_assoc. done.
        -- apply Hfr. apply list_elem_of_here.
      * rewrite decide_False by (intros [_ H]; congruence).
        apply IH; try done.
        intros b Hb. apply Hfr. by apply list_elem_of_further.
Qed.

(** X12: with memory for every client section, at addresses that
    differ, loading a configuration into the empty module returns 0 and
    registers, in the order of the file, exactly the sections other
    than [general] that [irc_client_new] accepts, under their section
    names; every client starts with nobody attached, no thread, no log
    file and not connected, and the lock is released. *)
Theorem load_config_registers_accepted_sections
    (secs : list bbs_config_section) (addrs : list Z) (indet : bool) :
  NoDup addrs ->
  (length (nongeneral secs) <= length addrs)%nat ->
  exists st',
    load_config (Some secs) (Some <$> addrs) indet door_init = Done (0, st') /\
    client_names st' = (Some ∘ section_name) <$> client_sections secs /\
    NoDup (clients st') /\
    (forall c, c ∈ clients st' -> exists cl, client_mem st' !! c = Some cl /\ fresh_client cl) /\
    clients_locked st' = false /\ unloading st' = false /\
    part_mem st' = ∅ /\ bbs_log st' = [].
Proof.
  intros Hnd Hlen. eexists. split; [reflexivity|].
  destruct (load_sections_spec secs addrs indet (set_locked door_init true))
    as (Hnames & Hnd' & Hok & Hl & Hu & Hpm & Hlog); try done.
  - intros a _. apply not_elem_of_nil.
  - apply NoDup_nil_2.
  - intros c Hc. by apply elem_of_nil in Hc.
Qed.

End LoadConfig.

Lemma load_config_registers_accepted_sections_witness :
  exists st',
    load_config (ext := Samples.sample_ext) (Some [Samples.net1_section; Samples.net1_section])
      (Some <$> [10; 11]) false door_init = Done (0, st') /\
    client_names st' =
      (Some ∘ section_name) <$>
        client_sections (ext := Samples.sample_ext) [Samples.net1_section; Samples.net1_section] /\
    NoDup (clients st') /\
    (forall c, c ∈ clients st' -> exists cl, client_mem st' !! c = Some cl /\ fresh_client cl) /\
    clients_locked st' = false /\ unloading st' = false /\
    part_mem st' = ∅ /\ bbs_log st' = [].
Proof.
  apply (load_config_registers_accepted_sections (ext := Samples.sample_ext)
           [Samples.net1_section; Samples.net1_section] [10; 11] false).
  - apply NoDup_cons. split; [|apply NoDup_singleton].
    intros H. apply list_elem_of_singleton in H. discriminate.
  - vm_compute. lia.
Defined.

(** ** Starting the clients *)

Section StartClients.

Lemma start_walk_prefix (pre rest kept : list Z) (oracle : Z -> start_outcome)
    (started : Z) (st : door) :
  NoDup pre ->
  (forall c, c ∈ pre -> is_Some (client_mem st !! c)) ->
  (forall c, c ∈ pre -> start_ok (oracle c) = true -> is_Some (created (oracle c))) ->
  exists st1 n,
    start_walk (pre ++ rest) kept oracle started st =
      start_walk rest (kept ++ filter (fun c => start_ok (oracle c) = true) pre)
                 oracle (started + n) st1 /\
    (forall c, c ∈ pre -> start_ok (oracle c) = true ->
       exists cl cl', client_mem st !! c = Some cl /\ client_mem st1 !! c = Some cl' /\
                      started_as cl cl' (created (oracle c))) /\
    (forall c, c ∈ pre -> start_ok (oracle c) = false -> client_mem st1 !! c = None) /\
    (forall c, c ∉ pre -> client_mem st1 !! c = client_mem st !! c) /\
    part_mem st1 = part_mem st /\ clients_locked st1 = clients_locked st /\
    unloading st1 = unloading st.
Proof.
  revert kept started st. induction pre as [|c pre IH]; intros kept started st Hnd Hal Hcr.
  - exists st, 0. cbn. rewrite app_nil_r, Z.add_0_r. repeat split; try done.
    + intros c Hc. by apply elem_of_nil in Hc.
    + intros c Hc. by apply elem_of_nil in Hc.
  - apply NoDup_cons in Hnd as [Hc Hnd].
    destruct (Hal c) as [cl Hcl]; [apply list_elem_of_here|].
    cbn [app start_walk]. rewrite Hcl. cbn [deref rbind].
    rewrite filter_cons.
    destruct (start_ok (oracle c)) eqn:Hok.
    + rewrite decide_True by done.
      destruct (Hcr c) as [t Ht]; [apply list_elem_of_here|done|].
      unfold start_ok in Hok. apply andb_true_iff in Hok as [Hok Hca].
      apply andb_true_iff in Hok as [Hco Hlo].
      repeat first [rewrite Hco | rewrite Hlo | rewrite Hca | progress cbn [andb negb]].
      rewrite Ht.
      match goal with |- context [start_walk (pre ++ rest) _ oracle _ ?s] => set (st2 := s) end.
      assert (Hcm2' : exists x, client_mem st2 = <[c := x]> (client_mem st) /\
                                started_as cl x (Some t))
        by (eexists; split; [reflexivity|done]).
      destruct Hcm2' as (x & Hcm2 & Hx).
      destruct (IH (kept ++ [c]) (started + 1) st2 Hnd) as (st1 & n & Hrun & Hs & Hf & Ho & Hpm & Hl & Hu).
      { intros b Hb. rewrite Hcm2. rewrite lookup_insert_ne; [|by intros ->].
        apply Hal. by apply list_elem_of_further. }
      { intros b Hb. apply Hcr. by apply list_elem_of_further. }
      exists st1, (1 + n). rewrite Hrun. split.
      { rewrite <- app_assoc. replace (started + (1 + n)) with (started + 1 + n) by lia.
        reflexivity. }
      split; [|split; [|split]]; [| | |done].
      * intros b [->|Hb]%elem_of_cons Hbok.
        -- exists cl. eexists. split; [done|]. split.
           ++ rewrite Ho by done. rewrite Hcm2. apply lookup_insert_eq.
           ++ by rewrite Ht.
        -- destruct (Hs b Hb Hbok) as (bl & bl' & H1 & H2 & H3).
           exists bl, bl'. split; [|done]. rewrite <- H1, Hcm2.
           symmetry. apply lookup_insert_ne. by intros ->.
      * intros b [->|Hb]%elem_of_cons Hbok.
        -- unfold start_ok in Hbok. rewrite Hco, Hlo, Hca in Hbok. done.
        -- by apply Hf.
      * intros b Hb. rewrite Ho.
        -- rewrite Hcm2. apply lookup_insert_ne. intros ->. apply Hb, list_elem_of_here.
        -- intros Hin. apply Hb. by apply list_elem_of_further.
    + rewrite decide_False by done.
      assert (Hcont : forall st2,
        client_mem st2 = delete c (client_mem st) -> part_mem st2 = part_mem st ->
        clients_locked st2 = clients_locked st -> unloading st2 = unloading st ->
        exists st1 n,
          start_walk (pre ++ rest) kept oracle started st2 =
            start_walk rest (kept ++ filter (fun c => start_ok (oracle c) = true) pre)
                       oracle (started + n) st1 /\
          (forall c0, c0 ∈ c :: pre -> start_ok (oracle c0) = true ->
             exists cl cl', client_mem st !! c0 = Some cl /\ client_mem st1 !! c0 = Some cl' /\
                            started_as cl cl' (created (oracle c0))) /\
          (forall c0, c0 ∈ c :: pre -> start_ok (oracle c0) = false -> client_mem st1 !! c0 = None) /\
          (forall c0, c0 ∉ c :: pre -> client_mem st1 !! c0 = client_mem st !! c0) /\
          part_mem st1 = part_mem st /\ clients_locked st1 = clients_locked st /\
          unloading st1 = unloading st).
      { intros st2 Hcm2 Hpm2 Hl2 Hu2.
        destruct (IH kept started st2 Hnd) as (st1 & n & Hrun & Hs & Hf & Ho & Hpm & Hl & Hu).
        { intros b Hb. rewrite Hcm2. rewrite lookup_delete_ne; [|by intros ->].
          apply Hal. by apply list_elem_of_further. }
        { intros b Hb. apply Hcr. by apply list_elem_of_further. }
        exists st1, n. split; [done|].
        split; [|split; [|split]]; [| | |by rewrite Hpm, Hl, Hu].
        * intros b [->|Hb]%elem_of_cons Hbok; [congruence|].
          destruct (Hs b Hb Hbok) as (bl & bl' & H1 & H2 & H3).
          exists bl, bl'. split; [|done]. rewrite <- H1, Hcm2.
          symmetry. apply lookup_delete_ne. by intros ->.
        * intros b [->|Hb]%elem_of_cons Hbok.
          -- rewrite Ho by done. rewrite Hcm2. apply lookup_delete_eq.
          -- by apply Hf.
        * intros b Hb. rewrite Ho.
          -- rewrite Hcm2. apply lookup_delete_ne. intros ->. apply Hb, list_elem_of_here.
          -- intros Hin. apply Hb. by apply list_elem_of_further. }
      unfold start_ok in Hok.
      destruct (connect_res (oracle c) =? 0) eqn:Hco.
      * destruct (login_res (oracle c) =? 0) eqn:Hlo.
        -- destruct (connected_after (oracle c)) eqn:Hca; [done|].
           repeat first [rewrite Hco | rewrite Hlo | rewrite Hca | progress cbn [andb negb]].
           apply Hcont; reflexivity.
        -- repeat first [rewrite Hco | rewrite Hlo | progress cbn [andb negb]].
           apply Hcont; reflexivity.
      * repeat first [rewrite Hco | progress cbn [andb negb]].
        apply Hcont; reflexivity.
Qed.

(** X13: when every thread can be created, starting the clients
    returns 0 with the lock released and keeps on the registry, in
    order, exactly the clients that connected, logged in and stayed
    connected; each is marked connected and has its relay thread, with
    its name and participants as before.  The clients that failed are
    freed; participants are not touched. *)
Theorem start_clients_keeps_the_connected
    (oracle : Z -> start_outcome) (st : door) :
  clients_locked st = false ->
  NoDup (clients st) ->
  (forall c, c ∈ clients st -> is_Some (client_mem st !! c)) ->
  (forall c, c ∈ clients st -> start_ok (oracle c) = true -> is_Some (created (oracle c))) ->
  exists st',
    start_clients oracle st = Done (0, st') /\
    clients st' = filter (fun c => start_ok (oracle c) = true) (clients st) /\
    clients_locked st' = false /\ unloading st' = unloading st /\
    part_mem st' = part_mem st /\
    (forall c, c ∈ clients st' ->
       exists cl cl', client_mem st !! c = Some cl /\ client_mem st' !! c = Some cl' /\
                      started_as cl cl' (created (oracle c))) /\
    (forall c, c ∈ clients st -> c ∉ clients st' -> client_mem st' !! c = None) /\
    (forall c, c ∉ clients st -> client_mem st' !! c = client_mem st !! c).
Proof.
  intros Hl Hnd Hal Hcr. unfold start_clients, wrlock. rewrite Hl. cbn [rbind].
  change (clients (set_locked st true)) with (clients st).
  destruct (start_walk_prefix (clients st) [] [] oracle 0 (set_locked st true) Hnd Hal Hcr)
    as (st1 & n & Hrun & Hs & Hf & Ho & Hpm & Hlk & Hu).
  rewrite app_nil_r in Hrun. rewrite Hrun. cbn [start_walk app].
  eexists. split; [reflexivity|].
  assert (Hfields : forall st2 : door,
            clients (if negb (0 + n =? 0) then add_log st2
                       [(LOG_VERBOSE, "Started " +:+ pretty (0 + n) +:+ " IRC clients")]
                     else st2) = clients st2 /\
            clients_locked (if negb (0 + n =? 0) then add_log st2
                       [(LOG_VERBOSE, "Started " +:+ pretty (0 + n) +:+ " IRC clients")]
                     else st2) = clients_locked st2 /\
            unloading (if negb (0 + n =? 0) then add_log st2
                       [(LOG_VERBOSE, "Started " +:+ pretty (0 + n) +:+ " IRC clients")]
                     else st2) = unloading st2 /\
            part_mem (if negb (0 + n =? 0) then add_log st2
                       [(LOG_VERBOSE, "Started " +:+ pretty (0 + n) +:+ " IRC clients")]
                     else st2) = part_mem st2 /\
            client_mem (if negb (0 + n =? 0) then add_log st2
                       [(LOG_VERBOSE, "Started " +:+ pretty (0 + n) +:+ " IRC clients")]
                     else st2) = client_mem st2).
  { intros st2. by destruct (negb (0 + n =? 0)). }
  destruct (Hfields (unlock (set_clients st1 (filter (fun c => start_ok (oracle c) = true)
                                                (clients st)))))
    as (-> & -> & -> & -> & ->).
  cbn. repeat split; try done.
  - intros c [Hok Hc]%list_elem_of_filter. by apply Hs.
  - intros c Hc Hn. apply Hf; [done|].
    destruct (start_ok (oracle c)) eqn:Hok; [|done].
    destruct Hn. by apply list_elem_of_filter.
Qed.

Lemma start_clients_keeps_the_connected_witness :
  exists st',
    start_clients (fun c => {| connect_res := 0; login_res := if c =? 10 then 0 else -1;
                               connected_after := true; created := Some 77 |})
                  Samples.net1_twice = Done (0, st') /\
    clients st' =
      filter (fun c => start_ok {| connect_res := 0; login_res := if c =? 10 then 0 else -1;
                                   connected_after := true; created := Some 77 |} = true)
             (clients Samples.net1_twice) /\
    clients_locked st' = false /\ unloading st' = unloading Samples.net1_twice /\
    part_mem st' = part_mem Samples.net1_twice /\
    (forall c, c ∈ clients st' ->
       exists cl cl', client_mem Samples.net1_twice !! c = Some cl /\
                      client_mem st' !! c = Some cl' /\
                      started_as cl cl'
                        (created {| connect_res := 0; login_res := if c =? 10 then 0 else -1;
                                    connected_after := true; created := Some 77 |})) /\
    (forall c, c ∈ clients Samples.net1_twice -> c ∉ clients st' -> client_mem st' !! c = None) /\
    (forall c, c ∉ clients Samples.net1_twice ->
               client_mem st' !! c = client_mem Samples.net1_twice !! c).
Proof.
  apply (start_clients_keeps_the_connected
           (fun c => {| connect_res := 0; login_res := if c =? 10 then 0 else -1;
                        connected_after := true; created := Some 77 |})
           Samples.net1_twice).
  - reflexivity.
  - apply NoDup_cons. split; [|apply NoDup_singleton].
    intros H. apply list_elem_of_singleton in H. discriminate.
  - intros c [->|[->|H]%elem_of_cons]%elem_of_cons; [by eexists|by eexists|].
    by apply elem_of_nil in H.
  - intros c _ _. by eexists.
Defined.

(** X14: when the thread of a client that connected cannot be created,
    starting the clients returns -1 at once: that client and the ones
    behind it stay on the registry, and the lock of the registry is
    still held, so every later join, leave, start or unload waits for
    ever. *)
Theorem start_clients_thread_failure_keeps_the_lock
    (oracle : Z -> start_outcome) (st : door) (pre post : list Z) (c : Z) :
  clients_locked st = false ->
  clients st = pre ++ c :: post ->
  NoDup (clients st) ->
  (forall b, b ∈ clients st -> is_Some (client_mem st !! b)) ->
  (forall b, b ∈ pre -> start_ok (oracle b) = true -> is_Some (created (oracle b))) ->
  start_ok (oracle c) = true ->
  created (oracle c) = None ->
  exists st',
    start_clients oracle st = Done (-1, st') /\
    clients st' = filter (fun b => start_ok (oracle b) = true) pre ++ c :: post /\
    clients_locked st' = true /\
    (forall calloc pipe_ok nd nm, join_client calloc pipe_ok st' nd nm = Blocked) /\
    (forall b a, leave_client st' b a = Blocked) /\
    (forall oracle2, start_clients oracle2 st' = Blocked) /\
    (forall unreg joins tl, unload_module unreg joins tl st' = Blocked).
Proof.
  intros Hl Hcs Hnd Hal Hcr Hok Hno. unfold start_clients, wrlock. rewrite Hl. cbn [rbind].
  change (clients (set_locked st true)) with (clients st). rewrite Hcs in *.
  apply NoDup_app in Hnd as (Hnd & Hdis & _).
  destruct (start_walk_prefix pre (c :: post) [] oracle 0 (set_locked st true) Hnd)
    as (st1 & n & Hrun & Hs & Hf & Ho & Hpm & Hlk & Hu).
  { intros b Hb. apply Hal. apply elem_of_app. by left. }
  { done. }
  rewrite Hrun. cbn [start_walk app].
  assert (Hc1 : is_Some (client_mem st1 !! c)).
  { rewrite Ho.
    - apply Hal. apply elem_of_app. right. apply list_elem_of_here.
    - intros Hin. eapply Hdis; [done|]. apply list_elem_of_here. }
  destruct Hc1 as [cl1 Hc1]. rewrite Hc1. cbn [deref rbind].
  unfold start_ok in Hok. apply andb_true_iff in Hok as [Hok Hca].
  apply andb_true_iff in Hok as [Hco Hlo].
  repeat first [rewrite Hco | rewrite Hlo | rewrite Hca | progress cbn [andb negb]].
  rewrite Hno.
  eexists. split; [reflexivity|]. cbn.
  split; [done|]. split; [done|].
  unfold join_client, leave_client, start_clients, unload_module, wrlock. cbn. rewrite Hlk. cbn.
  repeat split; intros; reflexivity.
Qed.

Lemma start_clients_thread_failure_keeps_the_lock_witness :
  exists st',
    start_clients (fun _ => {| connect_res := 0; login_res := 0;
                               connected_after := true; created := None |})
                  Samples.net1_twice = Done (-1, st') /\
    clients st' =
      filter (fun b => start_ok {| connect_res := 0; login_res := 0;
                                   connected_after := true; created := None |} = true) []
      ++ 10 :: [11] /\
    clients_locked st' = true /\
    (forall calloc pipe_ok nd nm, join_client calloc pipe_ok st' nd nm = Blocked) /\
    (forall b a, leave_client st' b a = Blocked) /\
    (forall oracle2, start_clients oracle2 st' = Blocked) /\
    (forall unreg joins tl, unload_module unreg joins tl st' = Blocked).
Proof.
  apply (start_clients_thread_failure_keeps_the_lock
           (fun _ => {| connect_res := 0; login_res := 0;
                        connected_after := true; created := None |})
           Samples.net1_twice [] [11] 10).
  - reflexivity.
  - reflexivity.
  - apply NoDup_cons. split; [|apply NoDup_singleton].
    intros H. apply list_elem_of_singleton in H. discriminate.
  - intros c [->|[->|H]%elem_of_cons]%elem_of_cons; [by eexists|by eexists|].
    by apply elem_of_nil in H.
  - intros b Hb. by apply elem_of_nil in Hb.
  - reflexivity.
  - reflexivity.
Defined.

End StartClients.

(** ** What a broadcast delivers *)

Section Delivery.

Lemma chat_deliver_plain (p : participant) (d msg : string) (res : Z) :
  node_tdd (node p) = false ->
  d <> EmptyString ->
  (chat_deliver p d (Z.of_nat (String.length d)) msg (Z.of_nat (String.length msg)) res).2
  = if pipe_open p then queued p (d +:+ msg) else p.
Proof.
  intros Htdd Hd. unfold chat_deliver, write, pipe_open, queued. rewrite Htdd. cbn [negb].
  destruct (chatpipe0 p) eqn:H0, (chatpipe1 p) eqn:H1; cbn [negb orb andb];
    try (destruct (0 <? -1) eqn:Hlt; [done|reflexivity]).
  destruct (Z.ltb_spec 0 (Z.of_nat (String.length d))) as [_|Hle].
  - cbn [chatpipe0 chatpipe1 node client channel chatpipe_data negb orb snd].
    rewrite !Nat2Z.id, !str_take_all by done. by rewrite append_assoc.
  - destruct d; [done|]. cbn in Hle. lia.
Qed.

Lemma chat_send_walk_delivers (ps : list Z) (sender : option Z) (chan : option string)
    (d msg : string) (res : Z) (st : door) :
  d <> EmptyString ->
  NoDup ps ->
  attached st ps ->
  exists st',
    chat_send_walk ps sender chan d (Z.of_nat (String.length d)) msg
                   (Z.of_nat (String.length msg)) res st = Done st' /\
    forall a p, a ∈ ps -> part_mem st !! a = Some p ->
                Some a <> sender -> on_channel chan p -> node_tdd (node p) = false ->
                part_mem st' !! a = Some (if pipe_open p then queued p (d +:+ msg) else p).
Proof.
  intros Hd. revert res st. induction ps as [|a ps IH]; intros res st Hnd Hat.
  - eexists. split; [reflexivity|]. intros a p Ha. by apply elem_of_nil in Ha.
  - apply NoDup_cons in Hnd as [Ha Hnd].
    pose proof Hat as Hat0.
    apply Forall_cons in Hat as [(p & Hp & Hc) Hat].
    assert (Hskipped : forall st',
      (forall b q, b ∈ ps -> part_mem st !! b = Some q ->
                   Some b <> sender -> on_channel chan q -> node_tdd (node q) = false ->
                   part_mem st' !! b = Some (if pipe_open q then queued q (d +:+ msg) else q)) ->
      (Some a = sender \/ ~ on_channel chan p) ->
      forall b q, b ∈ a :: ps -> part_mem st !! b = Some q ->
                  Some b <> sender -> on_channel chan q -> node_tdd (node q) = false ->
                  part_mem st' !! b = Some (if pipe_open q then queued q (d +:+ msg) else q)).
    { intros st' Hrest Hwhy b q [->|Hb]%elem_of_cons Hq Hs Hqc Ht; [|by apply Hrest].
      rewrite Hp in Hq. injection Hq as <-. destruct Hwhy; done. }
    cbn [chat_send_walk]. rewrite Hp. cbn [deref rbind].
    destruct (decide (Some a = sender)) as [Hs|Hs].
    { destruct (IH res st Hnd Hat) as (st' & Hw & Hrest). exists st'. split; [exact Hw|].
      eapply Hskipped; eauto. }
    assert (Hfilter : exists skip : bool,
      (if strlen_zero chan then Done false
       else strcmp_ne (channel p) (default "" chan)) = Done skip /\
      (skip = true -> ~ on_channel chan p)).
    { destruct (strlen_zero chan) eqn:Hz; [by exists false|].
      destruct Hc as [pc Hpc]. rewrite Hpc. cbn [strcmp_ne deref rbind].
      eexists. split; [reflexivity|].
      intros Hne [Hz'|Hon]; [congruence|].
      rewrite Hpc in Hon. subst chan. cbn in Hne. by rewrite String.eqb_refl in Hne. }
    destruct Hfilter as (skip & -> & Hskip). cbn [rbind].
    destruct skip.
    { destruct (IH res st Hnd Hat) as (st' & Hw & Hrest). exists st'. split; [exact Hw|].
      eapply Hskipped; eauto. }
    pose proof (chat_deliver_same p d (Z.of_nat (String.length d)) msg
                  (Z.of_nat (String.length msg)) res) as Hsame.
    pose proof (chat_deliver_plain p d msg res) as Hplain.
    destruct (chat_deliver p d (Z.of_nat (String.length d)) msg
                (Z.of_nat (String.length msg)) res) as [res2 p2].
    cbn [snd] in Hsame, Hplain.
    assert (Hgo : forall lg,
      exists st',
        chat_send_walk ps sender chan d (Z.of_nat (String.length d)) msg
          (Z.of_nat (String.length msg)) res2 (add_log (set_participant st a p2) lg) = Done st' /\
        forall b q, b ∈ a :: ps -> part_mem st !! b = Some q ->
                  Some b <> sender -> on_channel chan q -> node_tdd (node q) = false ->
                  part_mem st' !! b = Some (if pipe_open q then queued q (d +:+ msg) else q)).
    { intros lg.
      destruct (IH res2 (add_log (set_participant st a p2) lg) Hnd) as (st' & Hw & Hrest).
      { eapply attached_update; eauto. }
      exists st'. split; [done|].
      intros b q [->|Hb]%elem_of_cons Hq Hbs Hqc Ht.
      - rewrite Hp in Hq. injection Hq as <-.
        apply chat_send_walk_effect in Hw as (_ & _ & _ & Hfr).
        destruct (Hfr a) as [Heq|(Hin & _)]; [|done].
        rewrite Heq. cbn. rewrite lookup_insert_eq. by rewrite Hplain.
      - apply Hrest; try done. cbn. rewrite lookup_insert_ne; [done|]. by intros ->. }
    destruct (res2 <=? 0).
    + apply Hgo.
    + destruct (Hgo []) as (st' & Hw & Hrest). exists st'. split; [|done].
      rewrite <- Hw. f_equal. destruct st; unfold add_log, set_participant; cbn.
      by rewrite app_nil_r.
Qed.

Lemma chat_send_delivers (env : chat_env) (st : door) (c : Z) (sender : option Z)
    (chan : option string) (dorelay : bool) (text : string) :
  vasprintf_ok env = true ->
  tm_valid (sendtime env) ->
  broadcast_ready st c sender ->
  NoDup (participants_of st c) ->
  exists st',
    _chat_send env st c sender chan dorelay text = Done (0, st') /\
    (forall a p, a ∈ participants_of st c -> part_mem st !! a = Some p ->
                 Some a <> sender -> on_channel chan p -> node_tdd (node p) = false ->
                 part_mem st' !! a =
                   Some (if pipe_open p
                         then queued p (chat_stamp (sendtime env) +:+ text) else p)) /\
    exists cl,
      client_mem st !! c = Some cl /\
      client_mem st' =
        if dorelay then <[c := set_irc cl (irc_push (irc cl) (OutMsg chan text))]> (client_mem st)
        else client_mem st.
Proof.
  intros Hv Htm [(cl & Hcl & Hat) Hsender] Hnd.
  unfold participants_of in *. rewrite Hcl in *.
  unfold _chat_send. rewrite Hv. unfold __chat_send. cbv zeta.
  unfold strftime_buf. rewrite (chat_strftime_fits _ Htm). cbn [default]. unfold id.
  fold (chat_stamp (sendtime env)).
  assert (Hlen : String.length (chat_stamp (sendtime env)) = 17%nat)
    by apply (chat_datefmt_length _ Htm).
  assert (Hd : chat_stamp (sendtime env) <> EmptyString).
  { intros H. rewrite H in Hlen. done. }
  set (d := chat_stamp (sendtime env)) in *.
  replace (Z.of_nat (String.length d) =? 17) with true by (rewrite Hlen; reflexivity).
  cbn [bbs_assert]. rewrite Hcl. cbn [deref rbind].
  assert (Hdbg : exists lg,
    match sender with
    | Some s =>
        do sp <- deref (part_mem st !! s);
        Done (add_log st [bbs_debug ("Broadcasting to " +:+ name cl +:+ "," +:+ fmt_s chan
                     +:+ " (except node " +:+ pretty (node_id (node sp)) +:+ "): "
                     +:+ d +:+ str_take (Z.to_nat (Z.of_nat (String.length text))) text)])
    | None =>
        Done (add_log st [bbs_debug ("Broadcasting to " +:+ name cl +:+ "," +:+ fmt_s chan
                     +:+ ": " +:+ d +:+ str_take (Z.to_nat (Z.of_nat (String.length text))) text)])
    end = Done (add_log st lg)).
  { destruct sender as [s|]; [|eauto].
    destruct (Hsender s eq_refl) as [sp ->]. cbn. eauto. }
  destruct Hdbg as [lg ->]. cbn [rbind].
  assert (Hrelay : exists st1,
    (if dorelay then client_send (add_log st lg) c (OutMsg chan text)
     else Done (add_log st lg)) = Done st1 /\ part_mem st1 = part_mem st /\
    client_mem st1 =
      if dorelay then <[c := set_irc cl (irc_push (irc cl) (OutMsg chan text))]> (client_mem st)
      else client_mem st).
  { destruct dorelay.
    - unfold client_send. cbn. rewrite Hcl. cbn. eexists. split; [reflexivity|]. done.
    - exists (add_log st lg). done. }
  destruct Hrelay as (st1 & -> & Hpm & Hcm1). cbn [rbind].
  assert (Hat1 : attached st1 (participants cl)).
  { unfold attached in *. by rewrite Hpm. }
  destruct (chat_send_walk_delivers (participants cl) sender chan d text
              (res_indeterminate env) st1 Hd Hnd Hat1) as (st' & Hw & Hdel).
  rewrite Hw. cbn [rbind]. exists st'. split; [done|]. split.
  - intros a p Ha Hp. apply Hdel; [done|]. by rewrite Hpm.
  - exists cl. split; [done|].
    apply chat_send_walk_effect in Hw as (Hcm & _). by rewrite Hcm.
Qed.

(** X15: a line a user typed, broadcast under the user's channel on a
    client whose participants are allocated, listed once and have their
    channel: every other listed participant on that channel that is not
    a TDD gets the timestamp and the line at the end of its pipe, once,
    when both ends of its pipe are open, and is left as it was when an
    end is closed, without keeping the line from the others.  The line
    is sent once on the client's connection, to that channel, and no
    other client changes. *)
Theorem typed_line_reaches_the_channel
    (env : chat_env) (st : door) (c s : Z) (ch text : string) :
  vasprintf_ok env = true ->
  tm_valid (sendtime env) ->
  broadcast_ready st c (Some s) ->
  NoDup (participants_of st c) ->
  exists st',
    chat_send env st c (Some s) (Some ch) text = Done st' /\
    (forall a p, a ∈ participants_of st c -> part_mem st !! a = Some p ->
                 a <> s -> channel p = Some ch -> node_tdd (node p) = false ->
                 part_mem st' !! a =
                   Some (if pipe_open p
                         then queued p (chat_stamp (sendtime env) +:+ text) else p)) /\
    exists cl,
      client_mem st !! c = Some cl /\
      client_mem st' =
        <[c := set_irc cl (irc_push (irc cl) (OutMsg (Some ch) text))]> (client_mem st).
Proof.
  intros Hv Htm Hr Hnd.
  destruct (chat_send_delivers env st c (Some s) (Some ch) true text Hv Htm Hr Hnd)
    as (st' & Hrun & Hdel & cl & Hcl & Hcm).
  exists st'. unfold chat_send. rewrite Hrun. split; [done|]. split.
  - intros a p Ha Hp Hne Hch Ht. apply Hdel; try done.
    + congruence.
    + by right.
  - by exists cl.
Qed.

Lemma typed_line_reaches_the_channel_witness :
  exists st',
    chat_send (Samples.sample_env 0) Samples.three_users 10 (Some 102) (Some "#lobby") Samples.hi
      = Done st' /\
    (forall a p, a ∈ participants_of Samples.three_users 10 ->
                 part_mem Samples.three_users !! a = Some p ->
                 a <> 102 -> channel p = Some "#lobby" -> node_tdd (node p) = false ->
                 part_mem st' !! a =
                   Some (if pipe_open p
                         then queued p (chat_stamp (sendtime (Samples.sample_env 0)) +:+ Samples.hi)
                         else p)) /\
    exists cl,
      client_mem Samples.three_users !! 10 = Some cl /\
      client_mem st' =
        <[10 := set_irc cl (irc_push (irc cl) (OutMsg (Some "#lobby") Samples.hi))]>
          (client_mem Samples.three_users).
Proof.
  apply (typed_line_reaches_the_channel (Samples.sample_env 0) Samples.three_users 10 102
           "#lobby" Samples.hi).
  - reflexivity.
  - vm_compute. repeat split; discriminate.
  - split.
    + eexists. split; [reflexivity|].
      repeat constructor; eexists; (split; [reflexivity|by eexists]).
    + intros s [= <-]. by eexists.
  - change (NoDup [101; 102; 103]). apply (bool_decide_unpack (NoDup [101; 102; 103])).
    vm_compute. exact I.
Defined.

End Delivery.

(** ** What the dispatcher hands to the sessions *)

Section Relayed.
Context {ext : Externals}.

(** X16: a PRIVMSG or NOTICE from [nick!host] whose body is a target, a
    space, a colon and a text that is not a CTCP request is shown to the
    sessions on that target: every listed participant on that channel
    that is not a TDD and has both ends of its pipe open gets the
    timestamp and ["<nick> text"] with a line feed at the end of its
    pipe.  Nothing is sent to the server and no client changes. *)
Theorem privmsg_reaches_the_channel
    (env : chat_env) (st : door) (c : Z) (cmd nick host chan text : string) :
  cmd = "PRIVMSG" \/ cmd = "NOTICE" ->
  free_of " " chan ->
  free_of "!" nick ->
  first_is text SOH = false ->
  vasprintf_ok env = true ->
  tm_valid (sendtime env) ->
  broadcast_ready st c None ->
  NoDup (participants_of st c) ->
  exists st',
    handle_irc_msg env st c
      {| prefix := Some (nick +:+ String "!" host); numeric := 0;
         command := Some cmd; body := Some (chan +:+ String " " (String ":" text)) |}
      = Done st' /\
    (forall a p, a ∈ participants_of st c -> part_mem st !! a = Some p ->
                 channel p = Some chan -> node_tdd (node p) = false ->
                 part_mem st' !! a =
                   Some (if pipe_open p
                         then queued p (chat_stamp (sendtime env) +:+
                                        "<" +:+ nick +:+ "> " +:+ text +:+ String LF EmptyString)
                         else p)) /\
    client_mem st' = client_mem st.
Proof.
  intros Hcmd Hchan Hnick Htext Hv Htm Hr Hnd.
  unfold handle_irc_msg. cbn [numeric command body prefix Z.eqb negb deref rbind].
  replace (String.eqb cmd "PRIVMSG" || String.eqb cmd "NOTICE") with true
    by (destruct Hcmd as [-> | ->]; reflexivity).
  rewrite (strsep_app chan " " (String ":" text) Hchan). cbn [deref rbind skip1].
  rewrite Htext.
  destruct (cut_at_app nick "!" host Hnick) as [_ ->].
  destruct (chat_send_delivers env st c None (Some chan) false
              ("<" +:+ nick +:+ "> " +:+ text +:+ String LF EmptyString) Hv Htm Hr Hnd)
    as (st' & Hrun & Hdel & cl & Hcl & Hcm).
  exists st'. unfold relay_to_local. rewrite Hrun. split; [done|]. split; [|done].
  intros a p Ha Hp Hch Ht. apply Hdel; try done. by right.
Qed.

(** X17: a NICK message is shown to every session of the client,
    whatever its channel: every listed participant that is not a TDD and
    has both ends of its pipe open gets the timestamp and the notice of
    the new name at the end of its pipe.  Nothing is sent to the server. *)
Theorem nick_change_reaches_every_channel
    (env : chat_env) (st : door) (c : Z) (pfx b : option string) :
  vasprintf_ok env = true ->
  tm_valid (sendtime env) ->
  broadcast_ready st c None ->
  NoDup (participants_of st c) ->
  exists st',
    handle_irc_msg env st c
      {| prefix := pfx; numeric := 0; command := Some "NICK"; body := b |} = Done st' /\
    (forall a p, a ∈ participants_of st c -> part_mem st !! a = Some p ->
                 node_tdd (node p) = false ->
                 part_mem st' !! a =
                   Some (if pipe_open p
                         then queued p (chat_stamp (sendtime env) +:+
                                        fmt_s pfx +:+ " is " +:+ COLOR_CYAN +:+ "now known as"
                                        +:+ COLOR_RESET +:+ " " +:+ fmt_s b
                                        +:+ String LF EmptyString)
                         else p)) /\
    client_mem st' = client_mem st.
Proof.
  intros Hv Htm Hr Hnd.
  change (handle_irc_msg env st c
            {| prefix := pfx; numeric := 0; command := Some "NICK"; body := b |})
    with (relay_to_local env st c None
            (fmt_s pfx +:+ " is " +:+ COLOR_CYAN +:+ "now known as" +:+ COLOR_RESET
             +:+ " " +:+ fmt_s b +:+ String LF EmptyString)).
  destruct (chat_send_delivers env st c None None false
              (fmt_s pfx +:+ " is " +:+ COLOR_CYAN +:+ "now known as" +:+ COLOR_RESET
               +:+ " " +:+ fmt_s b +:+ String LF EmptyString) Hv Htm Hr Hnd)
    as (st' & Hrun & Hdel & cl & Hcl & Hcm).
  exists st'. unfold relay_to_local. rewrite Hrun. split; [done|]. split; [|done].
  intros a p Ha Hp Ht. apply Hdel; try done. by left.
Qed.

End Relayed.

Lemma privmsg_reaches_the_channel_witness :
  exists st',
    handle_irc_msg (ext := Samples.sample_ext) (Samples.sample_env 0) Samples.three_users 10
      {| prefix := Some ("dave" +:+ String "!" "d@example.org"); numeric := 0;
         command := Some "PRIVMSG";
         body := Some ("#lobby" +:+ String " " (String ":" "hello")) |}
      = Done st' /\
    (forall a p, a ∈ participants_of Samples.three_users 10 ->
                 part_mem Samples.three_users !! a = Some p ->
                 channel p = Some "#lobby" -> node_tdd (node p) = false ->
                 part_mem st' !! a =
                   Some (if pipe_open p
                         then queued p (chat_stamp (sendtime (Samples.sample_env 0)) +:+
                                        "<" +:+ "dave" +:+ "> " +:+ "hello" +:+ String LF EmptyString)
                         else p)) /\
    client_mem st' = client_mem Samples.three_users.
Proof.
  apply (privmsg_reaches_the_channel (ext := Samples.sample_ext) (Samples.sample_env 0)
           Samples.three_users 10 "PRIVMSG" "dave" "d@example.org" "#lobby" "hello").
  - by left.
  - reflexivity.
  - reflexivity.
  - reflexivity.
  - reflexivity.
  - vm_compute. repeat split; discriminate.
  - split.
    + eexists. split; [reflexivity|].
      repeat constructor; eexists; (split; [reflexivity|by eexists]).
    + intros s [=].
  - change (NoDup [101; 102; 103]). apply (bool_decide_unpack (NoDup [101; 102; 103])).
    vm_compute. exact I.
Defined.

Lemma nick_change_reaches_every_channel_witness :
  exists st',
    handle_irc_msg (ext := Samples.sample_ext) (Samples.sample_env 0) Samples.three_users 10
      {| prefix := Some "dave"; numeric := 0; command := Some "NICK"; body := Some ":david" |}
      = Done st' /\
    (forall a p, a ∈ participants_of Samples.three_users 10 ->
                 part_mem Samples.three_users !! a = Some p ->
                 node_tdd (node p) = false ->
                 part_mem st' !! a =
                   Some (if pipe_open p
                         then queued p (chat_stamp (sendtime (Samples.sample_env 0)) +:+
                                        fmt_s (Some "dave") +:+ " is "
                                        +:+ COLOR_CYAN (Externals := Samples.sample_ext)
                                        +:+ "now known as"
                                        +:+ COLOR_RESET (Externals := Samples.sample_ext)
                                        +:+ " " +:+ fmt_s (Some ":david")
                                        +:+ String LF EmptyString)
                         else p)) /\
    client_mem st' = client_mem Samples.three_users.
Proof.
  apply (nick_change_reaches_every_channel (ext := Samples.sample_ext) (Samples.sample_env 0)
           Samples.three_users 10 (Some "dave") (Some ":david")).
  - reflexivity.
  - vm_compute. repeat split; discriminate.
  - split.
    + eexists. split; [reflexivity|].
      repeat constructor; eexists; (split; [reflexivity|by eexists]).
    + intros s [=].
  - change (NoDup [101; 102; 103]). apply (bool_decide_unpack (NoDup [101; 102; 103])).
    vm_compute. exact I.
Defined.

(** ** What a dispatch can change *)

Section DispatchFrame.
Context {ext : Externals}.

Lemma chat_send_walk_locked (ps : list Z) (sender : option Z) (chan : option string)
    (d : string) (tl : Z) (msg : string) (len res : Z) (st st' : door) :
  chat_send_walk ps sender chan d tl msg len res st = Done st' ->
  clients_locked st' = clients_locked st.
Proof.
  revert res st. induction ps as [|a ps IH]; intros res st; cbn [chat_send_walk].
  - by intros [= <-].
  - destruct (part_mem st !! a) as [p|]; cbn [deref rbind]; [|done].
    destruct (decide (Some a = sender)); [apply IH|].
    destruct (if strlen_zero chan then Done false else strcmp_ne (channel p) (default "" chan))
      as [skip| |]; cbn [rbind]; [|done..].
    destruct skip; [apply IH|].
    destruct (chat_deliver p d tl msg len res) as [res2 p2].
    destruct (res2 <=? 0); intros Hw; apply IH in Hw; by rewrite Hw.
Qed.

Lemma only_queued_refl (c : Z) (st : door) : only_queued c st st.
Proof. repeat split. intros a. by left. Qed.

Lemma only_queued_log (c : Z) (st : door) (lg : list log_entry) :
  only_queued c st (add_log st lg).
Proof. repeat split. intros a. by left. Qed.

Lemma relay_to_local_only_queues (env : chat_env) (st : door) (c : Z)
    (chan : option string) (text : string) (st' : door) :
  relay_to_local env st c chan text = Done st' ->
  only_queued c st st' /\ client_mem st' = client_mem st.
Proof.
  unfold relay_to_local, _chat_send.
  destruct (vasprintf_ok env).
  2:{ cbn. intros [= <-]. split; [apply only_queued_log|done]. }
  unfold __chat_send. cbv zeta.
  set (d := strftime_buf env 18 chat_datefmt).
  assert (Hassert : exists lg0, bbs_assert (Z.of_nat (String.length d) =? 17) "timelen == 17" st
                                = add_log st lg0).
  { unfold bbs_assert. destruct (_ =? 17); [exists []|eauto].
    destruct st; unfold add_log; cbn. by rewrite app_nil_r. }
  destruct Hassert as [lg0 ->].
  change (client_mem (add_log st lg0) !! c) with (client_mem st !! c).
  destruct (client_mem st !! c) as [cl|] eqn:Hcl; cbn [deref rbind]; [|done].
  destruct (chat_send_walk (participants cl) None chan d (Z.of_nat (String.length d)) text
              (Z.of_nat (String.length text)) (res_indeterminate env)
              (add_log (add_log st lg0) _)) as [st1| |] eqn:Hw; cbn [rbind]; [|done..].
  intros [= <-].
  pose proof (chat_send_walk_locked _ _ _ _ _ _ _ _ _ _ Hw) as Hlk.
  apply chat_send_walk_effect in Hw as (Hcm & Hu & Hcs & Hb).
  split; [|done]. split; [done|]. split; [done|]. split; [done|].
  intros a. destruct (Hb a) as [Heq|(Hin & _ & p & p' & Hp & Hp' & Hsame & _)]; [by left|].
  right. unfold participants_of. rewrite Hcl. split; [done|]. by exists p, p'.
Qed.

Lemma client_send_sends (st : door) (c : Z) (o : outbound) (st' : door) :
  client_send st c o = Done st' ->
  only_queued c st st' /\ sent_to_server c [o] st st'.
Proof.
  unfold client_send. destruct (client_mem st !! c) as [cl|] eqn:Hcl; cbn; [|done].
  intros [= <-]. split; [apply (only_queued_refl c st)|]. by exists cl.
Qed.

(** X18: whatever the message, a dispatch that returns has only queued
    bytes in pipes of the client's own participants and sent at most
    one message on the client's connection: it raises no flag, changes
    no list, frees and allocates nothing and closes no pipe.  And it
    sends only for a PING or a PRIVMSG: a NOTICE is never answered. *)
Theorem dispatch_only_queues_and_sends
    (env : chat_env) (st : door) (c : Z) (msg : irc_msg) (st' : door) :
  handle_irc_msg env st c msg = Done st' ->
  exists out,
    only_queued c st st' /\ sent_to_server c out st st' /\
    (length out <= 1)%nat /\
    (out <> [] -> command msg = Some "PING" \/ command msg = Some "PRIVMSG").
Proof.
  assert (Hquiet : forall st1, only_queued c st st1 -> client_mem st1 = client_mem st ->
            exists out, only_queued c st st1 /\ sent_to_server c out st st1 /\
                        (length out <= 1)%nat /\
                        (out <> [] -> command msg = Some "PING" \/ command msg = Some "PRIVMSG")).
  { intros st1 Hq Hcm. exists []. split; [done|]. split; [exact Hcm|]. split; [cbn; lia|done]. }
  assert (Hlogged : forall lg,
            exists out, only_queued c st (add_log st lg) /\
                        sent_to_server c out st (add_log st lg) /\
                        (length out <= 1)%nat /\
                        (out <> [] -> command msg = Some "PING" \/ command msg = Some "PRIVMSG")).
  { intros lg. apply Hquiet; [apply only_queued_log|done]. }
  assert (Hrelayed : forall chan text,
            relay_to_local env st c chan text = Done st' ->
            exists out, only_queued c st st' /\ sent_to_server c out st st' /\
                        (length out <= 1)%nat /\
                        (out <> [] -> command msg = Some "PING" \/ command msg = Some "PRIVMSG")).
  { intros chan text Hr. apply relay_to_local_only_queues in Hr as [Hq Hcm]. by apply Hquiet. }
  assert (Hsent : forall o,
            command msg = Some "PING" \/ command msg = Some "PRIVMSG" ->
            client_send st c o = Done st' ->
            exists out, only_queued c st st' /\ sent_to_server c out st st' /\
                        (length out <= 1)%nat /\
                        (out <> [] -> command msg = Some "PING" \/ command msg = Some "PRIVMSG")).
  { intros o Hcmd Hs. apply client_send_sends in Hs as [Hq Hs]. exists [o].
    split; [done|]. split; [done|]. split; [cbn; lia|done]. }
  unfold handle_irc_msg.
  destruct (negb (numeric msg =? 0)); [intros [= <-]; apply Hlogged|].
  destruct (command msg) as [cmd|] eqn:Hcmd; cbn [deref rbind]; [|done].
  destruct (String.eqb cmd "PRIVMSG" || String.eqb cmd "NOTICE") eqn:Hpn.
  - destruct (body msg) as [b|]; cbn [deref rbind]; [|done].
    destruct (strsep b " ") as [chan rest].
    destruct rest as [rest|]; cbn [deref rbind]; [|done].
    destruct (skip1 rest) as [body1| |]; cbn [rbind]; [|done..].
    destruct (first_is body1 SOH).
    + unfold handle_ctcp.
      destruct (skip1 body1) as [body2| |]; cbn [rbind]; [|done..].
      destruct (match body2 with EmptyString => true | _ => false end);
        [intros [= <-]; apply Hlogged|].
      destruct (strsep (cut_at body2 SOH) " ") as [ctcp_name body3].
      destruct (prefix msg) as [pfx|]; cbn [deref rbind]; [|done].
      assert (Hst0 : exists lg,
        match strchr body2 SOH with
        | Some _ => st
        | None => add_log st [bbs_error "Couldn't find trailing \001?"]
        end = add_log st lg).
      { destruct (strchr body2 SOH); [exists []|eauto].
        destruct st; unfold add_log; cbn. by rewrite app_nil_r. }
      destruct Hst0 as [lg ->].
      assert (Hlogged2 : forall lg2,
        exists out, only_queued c st (add_log (add_log st lg) lg2) /\
                    sent_to_server c out st (add_log (add_log st lg) lg2) /\
                    (length out <= 1)%nat /\
                    (out <> [] -> Some cmd = Some "PING" \/ Some cmd = Some "PRIVMSG")).
      { intros lg2. apply Hquiet; [|done]. repeat split. intros a. by left. }
      destruct (irc_ctcp_from_string ctcp_name) as [ctcp|]; [|intros [= <-]; apply Hlogged2].
      destruct (String.eqb_spec cmd "PRIVMSG") as [->|Hne].
      2:{ intros [= <-]. apply (Hlogged lg). }
      assert (Hrelayed2 : forall chan0 text,
        relay_to_local env (add_log st lg) c chan0 text = Done st' ->
        exists out, only_queued c st st' /\ sent_to_server c out st st' /\
                    (length out <= 1)%nat /\
                    (out <> [] -> Some "PRIVMSG" = Some "PING" \/ Some "PRIVMSG" = Some "PRIVMSG")).
      { intros chan0 text Hr. apply relay_to_local_only_queues in Hr as [Hq Hcm].
        apply Hquiet; [|done]. destruct Hq as (? & ? & ? & Hb). repeat split; try done. }
      assert (Hsent2 : forall o,
        client_send (add_log st lg) c o = Done st' ->
        exists out, only_queued c st st' /\ sent_to_server c out st st' /\
                    (length out <= 1)%nat /\
                    (out <> [] -> Some "PRIVMSG" = Some "PING" \/ Some "PRIVMSG" = Some "PRIVMSG")).
      { intros o Hs. apply client_send_sends in Hs as [Hq Hs]. exists [o].
        split; [exact Hq|]. split; [exact Hs|]. split; [cbn; lia|by right]. }
      destruct ctcp; eauto. intros [= <-]. apply Hlogged2.
    + destruct (prefix msg) as [pfx|]; cbn [deref rbind]; [|done]. apply Hrelayed.
  - destruct (String.eqb_spec cmd "PING") as [->|_].
    { destruct (match body msg with Some b => skip1 b | None => Done EmptyString end)
        as [payload| |]; cbn [rbind]; [|done..].
      apply Hsent. by left. }
    repeat (match goal with |- context [String.eqb cmd ?s] => destruct (String.eqb cmd s) end;
            [first [apply Hrelayed | intros [= <-]; apply (Hquiet st (only_queued_refl c st) eq_refl)]|]).
    intros [= <-]. apply Hlogged.
Qed.

End DispatchFrame.

Lemma dispatch_only_queues_and_sends_witness :
  exists out,
    only_queued 10 Samples.three_users MoreSamples.three_users_pinged /\
    sent_to_server 10 out Samples.three_users MoreSamples.three_users_pinged /\
    (length out <= 1)%nat /\
    (out <> [] -> command MoreSamples.ping_msg = Some "PING" \/
                  command MoreSamples.ping_msg = Some "PRIVMSG").
Proof.
  apply (dispatch_only_queues_and_sends (ext := Samples.sample_ext) (Samples.sample_env 0)
           Samples.three_users 10 MoreSamples.ping_msg).
  reflexivity.
Defined.

(** ** The reply to a CTCP TIME request *)

Section TimeReply.

Lemma fmt_2d_length (n : Z) :
  0 <= n < 100 -> String.length (fmt_2d n) = 2%nat.
Proof.
  intros Hn.
  assert (Hall : forallb (fun k => Nat.eqb (String.length (fmt_2d (Z.of_nat k))) 2)
                         (seq 0 100) = true) by (vm_compute; reflexivity).
  rewrite forallb_forall in Hall.
  specialize (Hall (Z.to_nat n)).
  rewrite Z2Nat.id in Hall by lia.
  apply Nat.eqb_eq, Hall, in_seq. lia.
Qed.

Lemma abday_length (d : Z) : 0 <= d <= 6 -> String.length (abday d) = 3%nat.
Proof.
  intros Hd. assert (H : d = 0 \/ d = 1 \/ d = 2 \/ d = 3 \/ d = 4 \/ d = 5 \/ d = 6) by lia.
  destruct H as [->|[->|[->|[->|[->|[->| ->]]]]]]; reflexivity.
Qed.

Lemma abmon_length (m : Z) : 0 <= m <= 11 -> String.length (abmon m) = 3%nat.
Proof.
  intros Hm.
  assert (Hall : forallb (fun k => Nat.eqb (String.length (abmon (Z.of_nat k))) 3)
                         (seq 0 12) = true) by (vm_compute; reflexivity).
  rewrite forallb_forall in Hall.
  specialize (Hall (Z.to_nat m)).
  rewrite Z2Nat.id in Hall by lia.
  apply Nat.eqb_eq, Hall, in_seq. lia.
Qed.

Lemma year_length (y : Z) : 1000 <= y <= 9999 -> String.length (pretty y) = 4%nat.
Proof.
  intros Hy.
  assert (Hall : forallb (fun i =>
                   forallb (fun j => Nat.eqb (String.length
                                        (pretty (1000 + 100 * Z.of_nat i + Z.of_nat j))) 4)
                           (seq 0 100))
                         (seq 0 90) = true) by (vm_compute; reflexivity).
  rewrite forallb_forall in Hall.
  pose proof (Z.div_mod (y - 1000) 100 ltac:(lia)) as Hdm.
  pose proof (Z.mod_pos_bound (y - 1000) 100 ltac:(lia)) as Hmod.
  assert (Hdiv : 0 <= (y - 1000) / 100 < 90).
  { split; [apply Z.div_pos; lia|apply Z.div_lt_upper_bound; lia]. }
  specialize (Hall (Z.to_nat ((y - 1000) / 100))).
  rewrite forallb_forall in Hall.
  specialize (Hall ltac:(apply in_seq; lia) (Z.to_nat ((y - 1000) `mod` 100))
                   ltac:(apply in_seq; lia)).
  rewrite !Z2Nat.id in Hall by lia.
  replace (1000 + 100 * ((y - 1000) / 100) + (y - 1000) `mod` 100) with y in Hall by lia.
  by apply Nat.eqb_eq.
Qed.

Lemma time_replyfmt_length (t : tm) :
  tm_valid t -> 0 <= tm_wday t <= 6 -> 1000 <= tm_year t + 1900 <= 9999 ->
  String.length (strftime_expand time_replyfmt t) = (28 + String.length (tm_zone t))%nat.
Proof.
  intros (Hs & Hm & Hh & Hd & Hmo) Hw Hy.
  change (strftime_expand time_replyfmt t) with
    (abday (tm_wday t) +:+ " " +:+ abmon (tm_mon t) +:+ " " +:+ fmt_2d (tm_mday t) +:+ " " +:+
     pretty (tm_year t + 1900) +:+ " " +:+ fmt_02d (hour12 (tm_hour t)) +:+ ":" +:+
     fmt_02d (tm_min t) +:+ ":" +:+ fmt_02d (tm_sec t) +:+ " " +:+ ampm_lower (tm_hour t)
     +:+ " " +:+ tm_zone t +:+ EmptyString).
  pose proof (hour12_range _ Hh).
  rewrite !string_length_app, ampm_lower_length, abday_length, abmon_length, fmt_2d_length,
    year_length, !fmt_02d_length by lia.
  cbn. lia.
Qed.

Lemma time_reply_buf (env : chat_env) :
  tm_valid (sendtime env) ->
  0 <= tm_wday (sendtime env) <= 6 ->
  1000 <= tm_year (sendtime env) + 1900 <= 9999 ->
  strftime_buf env 32 time_replyfmt =
    if (String.length (tm_zone (sendtime env)) <=? 3)%nat
    then strftime_expand time_replyfmt (sendtime env)
    else buf_indeterminate env.
Proof.
  intros Hv Hw Hy. unfold strftime_buf, strftime.
  rewrite (time_replyfmt_length _ Hv Hw Hy).
  destruct (Nat.leb_spec (String.length (tm_zone (sendtime env))) 3) as [Hle|Hgt].
  - destruct (Nat.ltb_spec (28 + String.length (tm_zone (sendtime env))) 32); [done|lia].
  - destruct (Nat.ltb_spec (28 + String.length (tm_zone (sendtime env))) 32); [lia|done].
Qed.

End TimeReply.

Section TimeRequest.
Context {ext : Externals}.

(** X19: the reply to a CTCP TIME request is formatted into a buffer of
    32 bytes.  For a local time in a year of four digits the reply sent
    to the asker is the formatted time exactly when the abbreviation of
    the time zone has at most three characters; with a longer
    abbreviation [strftime] stores nothing it promises, and the reply
    sent is whatever the buffer held. *)
Theorem time_reply_fits_only_short_zones
    (env : chat_env) (st : door) (c : Z) (pfx chan : string) :
  irc_ctcp_from_string "TIME" = Some CTCP_TIME ->
  free_of " " chan ->
  tm_valid (sendtime env) ->
  0 <= tm_wday (sendtime env) <= 6 ->
  1000 <= tm_year (sendtime env) + 1900 <= 9999 ->
  handle_irc_msg env st c
    {| prefix := Some pfx; numeric := 0; command := Some "PRIVMSG";
       body := Some (ctcp_body chan "TIME" None) |}
  = client_send st c
      (OutCtcpReply (cut_at pfx "!") CTCP_TIME
         (Some (if (String.length (tm_zone (sendtime env)) <=? 3)%nat
                then strftime_expand time_replyfmt (sendtime env)
                else buf_indeterminate env))).
Proof.
  intros Hctcp Hc Hv Hw Hy.
  destruct (ctcp_request_decoded chan "TIME" None Hc) as (Hsep & [n Hn] & Hname);
    [reflexivity|reflexivity|done|].
  unfold handle_irc_msg. cbn [numeric command body prefix Z.eqb negb deref rbind].
  change (String.eqb "PRIVMSG" "PRIVMSG" || String.eqb "PRIVMSG" "NOTICE") with true.
  cbn iota. rewrite Hsep. cbn [deref rbind skip1 first_is].
  rewrite Ascii.eqb_refl. unfold handle_ctcp. cbn [skip1 rbind prefix deref].
  rewrite append_nonempty, Hn, Hname. cbn [deref rbind]. rewrite Hctcp.
  change (String.eqb "PRIVMSG" "PRIVMSG") with true. cbn iota.
  by rewrite (time_reply_buf env Hv Hw Hy).
Qed.

End TimeRequest.

Lemma time_reply_fits_only_short_zones_witness :
  handle_irc_msg (ext := Samples.sample_ext) (Samples.sample_env 0) Samples.three_users 10
    {| prefix := Some "dave!d@example.org"; numeric := 0; command := Some "PRIVMSG";
       body := Some (ctcp_body "#lobby" "TIME" None) |}
  = client_send Samples.three_users 10
      (OutCtcpReply (cut_at "dave!d@example.org" "!") CTCP_TIME
         (Some (if (String.length (tm_zone (sendtime (Samples.sample_env 0))) <=? 3)%nat
                then strftime_expand time_replyfmt (sendtime (Samples.sample_env 0))
                else buf_indeterminate (Samples.sample_env 0)))).
Proof.
  apply (time_reply_fits_only_short_zones (ext := Samples.sample_ext) (Samples.sample_env 0)
           Samples.three_users 10 "dave!d@example.org" "#lobby").
  - reflexivity.
  - reflexivity.
  - vm_compute. repeat split; discriminate.
  - vm_compute. split; discriminate.
  - vm_compute. split; discriminate.
Defined.

(** ** Complete lines *)

Section CompleteLines.
Context {ext : Externals} {S : Type}.
Variable on_line : string -> S -> result S.
Variable on_log : log_entry -> S -> S.

Lemma bytes_line (l w : string) :
  bytes (l +:+ String CR (String LF w)) = bytes l ++ CR :: LF :: bytes w.
Proof. by rewrite bytes_app. Qed.

Lemma strstr_crlf_line (l : string) (tail : list ascii) :
  plain l -> strstr_crlf (bytes l ++ CR :: LF :: tail) = Some (String.length l).
Proof.
  induction l as [|a l IH]; intros Hl.
  - by vm_compute.
  - apply plain_cons in Hl as (Hn & Hc & Hl).
    unfold bytes in *. cbn [String.list_ascii_of_string app strstr_crlf].
    rewrite Hn, Hc. cbn [andb]. by rewrite (IH Hl).
Qed.

Lemma wire_length (lines : list string) :
  (2 * length lines <= String.length (wire lines))%nat.
Proof.
  induction lines as [|l ls IH]; cbn [wire length]; [lia|].
  rewrite string_length_app. cbn [String.length]. lia.
Qed.

Lemma wire_head (l : string) (ls : list string) :
  plain l ->
  exists a tl, bytes (wire (l :: ls)) = a :: tl /\ Ascii.eqb a NUL = false.
Proof.
  intros Hl. cbn [wire]. destruct l as [|a l].
  - by exists CR, (LF :: bytes (wire ls)).
  - apply plain_cons in Hl as (Hn & _ & _). rewrite append_cons.
    by exists a, (bytes (l +:+ String CR (String LF (wire ls)))).
Qed.

Lemma hand_on_app (l1 l2 : list string) (s : S) :
  hand_on on_line (l1 ++ l2) s = do s' <- hand_on on_line l1 s; hand_on on_line l2 s'.
Proof.
  revert s. induction l1 as [|l l1 IH]; intros s; cbn [app hand_on rbind]; [done|].
  destruct (on_line l s) as [s'| |]; cbn [rbind]; [apply IH|done..].
Qed.

(** The scan of the lines of one read, from the line at [front] on. *)
Lemma relay_scan_lines (lines : list string) :
  lines <> [] ->
  Forall plain lines ->
  forall (fuel : nat) (front rest : list ascii) (len res0 : Z) (pb : nat) (pl : Z) (s : S),
  (length lines <= fuel)%nat ->
  exists buf',
    relay_scan on_line fuel
      {| readbuf := front ++ bytes (wire lines) ++ NUL :: rest;
         start := length front; mybuf := length front; mylen := len; res := res0 |} pb pl s
    = (do s' <- hand_on on_line (as_handed lines) s; Done (relay_reset buf' res0, s')) /\
    length buf' = length (front ++ bytes (wire lines) ++ NUL :: rest).
Proof.
  induction lines as [|l ls IH]; [done|]. intros _ Hall fuel front rest len res0 pb pl s Hfuel.
  apply Forall_cons in Hall as [Hl Hall].
  destruct fuel as [|fuel]; [cbn in Hfuel; lia|].
  cbn [relay_scan mybuf readbuf start mylen res wire].
  rewrite drop_app_length, bytes_line, <- (assoc_L (++)). cbn [app].
  rewrite (strstr_crlf_line l _ Hl). 
  assert (Hat : forall (tail : list ascii) (k : nat),
            (front ++ bytes l ++ CR :: LF :: tail) !! (length front + String.length l + k + 2)%nat
            = tail !! k).
  { intros tail k. rewrite lookup_app_r by lia. rewrite lookup_app_r by (rewrite bytes_length; lia).
    rewrite bytes_length.
    replace (length front + String.length l + k + 2 - length front - String.length l)%nat
      with (Datatypes.S (Datatypes.S k)) by lia. done. }
  destruct ls as [|l2 ls].
  - (* the last line of the read *)
    cbn [wire bytes String.list_ascii_of_string app as_handed hand_on].
    pose proof (Hat (NUL :: rest) 0%nat) as H0. rewrite Nat.add_0_r in H0.
    rewrite H0. cbn [lookup list_lookup deref rbind]. rewrite Ascii.eqb_refl.
    assert (Hline : cstr (drop (length front) (front ++ bytes l ++ CR :: LF :: NUL :: rest))
                    = l +:+ CRLF).
    { rewrite drop_app_length.
      change (bytes l ++ CR :: LF :: NUL :: rest) with (bytes l ++ bytes CRLF ++ NUL :: rest).
      rewrite (assoc_L (++)), <- bytes_app. apply cstr_terminated.
      destruct Hl as [Hl _]. by apply free_of_app. }
    rewrite Hline. eexists. split; [|reflexivity].
    destruct (on_line (l +:+ CRLF) s) as [s'| |]; cbn [rbind]; [|done..].
    rewrite H0. cbn [lookup list_lookup deref rbind]. by rewrite Ascii.eqb_refl.
  - (* a line followed by another one *)
    apply Forall_cons in Hall as [Hl2 Hall'].
    destruct (wire_head l2 ls Hl2) as (a & tl & Hw & Ha).
    pose proof (Hat (bytes (wire (l2 :: ls)) ++ NUL :: rest) 0%nat) as H0.
    rewrite Nat.add_0_r in H0. rewrite H0, Hw. cbn [app lookup list_lookup deref rbind].
    rewrite Ha.
    assert (Hcut : <[(length front + String.length l + 1)%nat := NUL]>
                     (front ++ bytes l ++ CR :: LF :: a :: tl ++ NUL :: rest)
                   = (front ++ bytes (l +:+ String CR EmptyString) ++ [NUL])
                       ++ bytes (wire (l2 :: ls)) ++ NUL :: rest).
    { rewrite insert_app_r_alt by lia. rewrite insert_app_r_alt by (rewrite bytes_length; lia).
      rewrite bytes_length.
      replace (length front + String.length l + 1 - length front - String.length l)%nat
        with 1%nat by lia.
      cbn [insert list_insert]. rewrite Hw, bytes_app, <- !(assoc_L (++)). done. }
    rewrite Hcut.
    assert (Hline : cstr (drop (length front)
                      ((front ++ bytes (l +:+ String CR EmptyString) ++ [NUL])
                       ++ bytes (wire (l2 :: ls)) ++ NUL :: rest))
                    = l +:+ String CR EmptyString).
    { rewrite <- !(assoc_L (++)), drop_app_length. cbn [app]. apply cstr_terminated.
      destruct Hl as [Hl _]. by apply free_of_app. }
    rewrite Hline.
    assert (Hfl : length (front ++ bytes (l +:+ String CR EmptyString) ++ [NUL])
                  = (length front + String.length l + 2)%nat).
    { rewrite !length_app, bytes_length, string_length_app. cbn. lia. }
    assert (Hnext : ((front ++ bytes (l +:+ String CR EmptyString) ++ [NUL])
                       ++ bytes (wire (l2 :: ls)) ++ NUL :: rest)
                      !! (length front + String.length l + 2)%nat = Some a).
    { rewrite lookup_app_r by lia. rewrite Hfl, Nat.sub_diag, Hw. done. }
    rewrite Hnext. cbn [deref rbind]. rewrite Ha.
    change (as_handed (l :: l2 :: ls)) with ((l +:+ String CR EmptyString) :: as_handed (l2 :: ls)).
    cbn [hand_on].
    destruct (on_line (l +:+ String CR EmptyString) s) as [s'| |]; cbn [rbind];
      [|by eexists; split; [reflexivity|]..].
    rewrite <- Hfl.
    destruct (IH ltac:(done) (Forall_cons_2 _ _ _ Hl2 Hall') fuel
                (front ++ bytes (l +:+ String CR EmptyString) ++ [NUL]) rest
                (len - (Z.of_nat (length (front ++ bytes (l +:+ String CR EmptyString) ++ [NUL]))
                        - Z.of_nat (length front)))
                res0 pb pl s')
      as (buf' & Hrun & Hlen); [cbn [length] in *; lia|].
    exists buf'. split; [exact Hrun|].
    rewrite Hlen, Hw, !length_app, !bytes_length, string_length_app.
    cbn [length String.length]. rewrite !length_app. cbn [length]. lia.
Qed.

Lemma relay_iter_lines (buf0 : list ascii) (res0 : Z) (lines : list string)
    (sock : list string) (s : S) :
  length buf0 = Datatypes.S IRC_MAX_MSG_LEN ->
  lines <> [] ->
  Forall plain lines ->
  (String.length (wire lines) <= IRC_MAX_MSG_LEN)%nat ->
  exists buf',
    relay_iter on_line on_log (relay_reset buf0 res0) (wire lines :: sock) s
    = (do s' <- hand_on on_line (as_handed lines) s;
       Done (Some (relay_reset buf' (Z.of_nat (String.length (wire lines))), sock), s')) /\
    length buf' = Datatypes.S IRC_MAX_MSG_LEN.
Proof.
  intros Hlen Hne Hall Hfit.
  pose proof (wire_length lines) as Hw.
  assert (Hn : (1 <= length lines)%nat) by (destruct lines; [done|cbn; lia]).
  rewrite relay_iter_fits; unfold relay_reset, bufcap; cbn [mylen mybuf readbuf start].
  - rewrite take_0. cbn [app Nat.add].
    destruct (relay_scan_lines lines Hne Hall
                (Datatypes.S (length (bytes (wire lines) ++ NUL ::
                                        drop (Datatypes.S (String.length (wire lines))) buf0)))
                [] (drop (Datatypes.S (String.length (wire lines))) buf0)
                (Z.of_nat IRC_MAX_MSG_LEN) (Z.of_nat (String.length (wire lines))) 0%nat
                (Z.of_nat IRC_MAX_MSG_LEN) s) as (buf' & Hrun & Hl).
    { rewrite length_app, bytes_length. lia. }
    cbn [app length] in Hrun, Hl. exists buf'. split.
    + rewrite Hrun. unfold relay_reset, bufcap.
      by destruct (hand_on on_line (as_handed lines) s).
    + rewrite Hl, length_app, bytes_length. cbn [length]. rewrite length_drop. lia.
  - lia.
  - intros H. rewrite H in Hw. cbn in Hw. lia.
  - lia.
  - lia.
Qed.

Lemma relay_loop_lines (reads : list (list string)) (k : nat) (buf0 : list ascii) (res0 : Z)
    (sock : list string) (s : S) :
  length buf0 = Datatypes.S IRC_MAX_MSG_LEN ->
  Forall (fun lines => lines <> [] /\ Forall plain lines /\
                       (String.length (wire lines) <= IRC_MAX_MSG_LEN)%nat) reads ->
  exists b n,
    relay_loop on_line on_log (length reads + k) (relay_reset buf0 res0)
               ((wire <$> reads) ++ sock) s
    = (do s' <- hand_on on_line (concat (as_handed <$> reads)) s;
       relay_loop on_line on_log k (relay_reset b n) sock s') /\
    length b = Datatypes.S IRC_MAX_MSG_LEN.
Proof.
  revert buf0 res0 s. induction reads as [|lines reads IH]; intros buf0 res0 s Hlen Hall.
  - by exists buf0, res0.
  - apply Forall_cons in Hall as [(Hne & Hpl & Hfit) Hall].
    destruct (relay_iter_lines buf0 res0 lines ((wire <$> reads) ++ sock) s Hlen Hne Hpl Hfit)
      as (buf1 & Hrun & Hlen1).
    cbn [length Nat.add relay_loop fmap list_fmap app concat]. rewrite Hrun, hand_on_app.
    destruct (hand_on on_line (as_handed lines) s) as [s1| |]; cbn [rbind fst snd];
      [|by exists buf0, res0..].
    apply (IH buf1 _ s1 Hlen1 Hall).
Qed.

Lemma relay_iter_closed (b : list ascii) (n : Z) (s : S) :
  (1 < IRC_MAX_MSG_LEN)%nat ->
  relay_iter on_line on_log (relay_reset b n) [] s = Done (None, s).
Proof.
  intros Hmax. unfold relay_iter, relay_begin, relay_reset, bufcap. cbn [mylen res].
  destruct (Z.leb_spec (Z.of_nat IRC_MAX_MSG_LEN) 1) as [|_]; [lia|].
  cbn [res irc_poll mylen mybuf irc_read]. by destruct (negb _).
Qed.

(** X20: complete lines are handed on in the order they arrived, each
    once.  Whatever number of reads brings them, each read holding one
    or more whole lines that fit the buffer together, the loop hands on
    every line: the last line of a read with its CR LF, a line followed
    by another in the same read with its CR only; after the last read
    nothing is pending. *)
Theorem complete_lines_are_handed_on_in_order
    (reads : list (list string)) (buf0 : list ascii) (res0 : Z)
    (sock : list string) (s : S) :
  length buf0 = Datatypes.S IRC_MAX_MSG_LEN ->
  Forall (fun lines => lines <> [] /\ Forall plain lines /\
                       (String.length (wire lines) <= IRC_MAX_MSG_LEN)%nat) reads ->
  exists b n,
    relay_loop on_line on_log (length reads) (relay_reset buf0 res0)
               ((wire <$> reads) ++ sock) s
    = (do s' <- hand_on on_line (concat (as_handed <$> reads)) s;
       Done (Some (relay_reset b n, sock), s')) /\
    length b = Datatypes.S IRC_MAX_MSG_LEN.
Proof.
  intros Hlen Hall.
  destruct (relay_loop_lines reads 0 buf0 res0 sock s Hlen Hall) as (b & n & Hrun & Hb).
  rewrite Nat.add_0_r in Hrun. by exists b, n.
Qed.

End CompleteLines.

Lemma complete_lines_are_handed_on_in_order_witness :
  exists b n,
    relay_loop (ext := Samples.sample_ext) Samples.keep_line Samples.keep_log
      (length [["PING :a"; "PING :b"]; ["PING :c"]])
      (relay_reset (ext := Samples.sample_ext) (replicate 513 NUL) 0)
      ((wire <$> [["PING :a"; "PING :b"]; ["PING :c"]]) ++ []) []
    = (do s' <- hand_on Samples.keep_line
                  (concat (as_handed <$> [["PING :a"; "PING :b"]; ["PING :c"]])) [];
       Done (Some (relay_reset (ext := Samples.sample_ext) b n, []), s')) /\
    length b = Datatypes.S (IRC_MAX_MSG_LEN (Externals := Samples.sample_ext)).
Proof.
  apply (complete_lines_are_handed_on_in_order (ext := Samples.sample_ext)
           Samples.keep_line Samples.keep_log
           [["PING :a"; "PING :b"]; ["PING :c"]] (replicate 513 NUL) 0 [] []).
  - reflexivity.
  - repeat constructor; try done; vm_compute; lia.
Defined.

(** ** The relay thread *)

Section RelayThread.
Context {ext : Externals}.

(** X21: the relay thread of a client whose server sends complete lines
    and then closes the connection.  When the client logs and its log
    file cannot be opened, the thread returns at once with an error
    logged, having read nothing.  Otherwise every line is logged and
    dispatched, in the order of arrival, and the thread then leaves its
    loop and logs that it has exited. *)
Theorem relay_thread_hands_on_and_exits
    (envf : nat -> chat_env) (fopen_ok : bool) (stack : list ascii)
    (st : door) (c : Z) (cl : client_t) (reads : list (list string)) :
  client_mem st !! c = Some cl ->
  (1 < IRC_MAX_MSG_LEN)%nat ->
  Forall (fun lines => lines <> [] /\ Forall plain lines /\
                       (String.length (wire lines) <= IRC_MAX_MSG_LEN)%nat) reads ->
  client_relay (Datatypes.S (length reads)) envf fopen_ok stack st c (wire <$> reads) =
    if log cl && negb fopen_ok
    then Done (None, add_log st [bbs_error "Failed to open log file"])
    else
      do out <- hand_on (relay_line envf c) (concat (as_handed <$> reads))
                  (if log cl
                   then set_client_mem st (<[c := set_logfile cl (Some [])]> (client_mem st))
                   else st, 0%nat);
      do cl' <- deref (client_mem out.1 !! c);
      Done (None, add_log out.1
                    [bbs_debug ("IRC client '" +:+ name cl' +:+ "' thread has exited")]).
Proof.
  intros Hcl Hmax Hall. unfold client_relay. rewrite Hcl. cbn [deref rbind].
  assert (Hloop : forall s0,
    (do out <- relay_loop (relay_line envf c) relay_log (Datatypes.S (length reads))
                 (relay_init stack) (wire <$> reads) s0;
     match out.1 with
     | None =>
         do cl' <- deref (client_mem out.2.1 !! c);
         Done (None, add_log out.2.1
                       [bbs_debug ("IRC client '" +:+ name cl' +:+ "' thread has exited")])
     | Some rs => Done (Some rs, out.2.1)
     end) =
    (do out <- hand_on (relay_line envf c) (concat (as_handed <$> reads)) s0;
     do cl' <- deref (client_mem out.1 !! c);
     Done (None, add_log out.1
                   [bbs_debug ("IRC client '" +:+ name cl' +:+ "' thread has exited")]))).
  { intros s0.
    destruct (relay_loop_lines (relay_line envf c) relay_log reads 1
                (take (Datatypes.S IRC_MAX_MSG_LEN)
                      (stack ++ replicate (Datatypes.S IRC_MAX_MSG_LEN) NUL)) 0 [] s0)
      as (b & n & Hrun & Hb); [|done|].
    { rewrite length_take, length_app, length_replicate. lia. }
    rewrite app_nil_r in Hrun. replace (length reads + 1)%nat with (Datatypes.S (length reads))
      in Hrun by lia.
    change (relay_reset _ 0) with (relay_init stack) in Hrun. rewrite Hrun.
    destruct (hand_on (relay_line envf c) (concat (as_handed <$> reads)) s0) as [s1| |];
      cbn [rbind]; [|done..].
    cbn [relay_loop]. rewrite relay_iter_closed by done. done. }
  destruct (log cl); [destruct fopen_ok|]; cbn [andb negb]; [apply Hloop|done|apply Hloop].
Qed.

End RelayThread.

Lemma relay_thread_hands_on_and_exits_witness :
  client_relay (ext := Samples.sample_ext) (Datatypes.S (length [["PING :a"; "PING :b"]]))
    (fun _ => Samples.sample_env 0) true [] Samples.three_users 10
    (wire <$> [["PING :a"; "PING :b"]]) =
    if log (Samples.net1 [101; 102; 103]) && negb true
    then Done (None, add_log Samples.three_users [bbs_error "Failed to open log file"])
    else
      do out <- hand_on (relay_line (ext := Samples.sample_ext) (fun _ => Samples.sample_env 0) 10)
                  (concat (as_handed <$> [["PING :a"; "PING :b"]]))
                  (if log (Samples.net1 [101; 102; 103])
                   then set_client_mem Samples.three_users
                          (<[10 := set_logfile (Samples.net1 [101; 102; 103]) (Some [])]>
                             (client_mem Samples.three_users))
                   else Samples.three_users, 0%nat);
      do cl' <- deref (client_mem out.1 !! 10);
      Done (None, add_log out.1
                    [bbs_debug ("IRC client '" +:+ name cl' +:+ "' thread has exited")]).
Proof.
  apply (relay_thread_hands_on_and_exits (ext := Samples.sample_ext)
           (fun _ => Samples.sample_env 0) true [] Samples.three_users 10
           (Samples.net1 [101; 102; 103]) [["PING :a"; "PING :b"]]).
  - reflexivity.
  - vm_compute. lia.
  - repeat constructor; try done; vm_compute; lia.
Defined.

(** ** A line that arrives in pieces *)

Section Pieces.
Context {ext : Externals} {S : Type}.
Variable on_line : string -> S -> result S.
Variable on_log : log_entry -> S -> S.

Lemma glue_plain (pieces : list string) :
  Forall (fun p => p <> EmptyString /\ plain p) pieces -> plain (glue pieces).
Proof.
  induction 1 as [|p ps [_ Hp] _ IH]; [done|]. cbn [glue]. by apply plain_app.
Qed.

Lemma relay_loop_pieces (pieces : list string) (k : nat) (pre : string) (buf : list ascii)
    (res0 : Z) (sock : list string) (s : S) :
  length buf = Datatypes.S IRC_MAX_MSG_LEN ->
  take (String.length pre) buf = bytes pre ->
  Forall (fun p => p <> EmptyString /\ plain p) pieces ->
  (String.length pre + String.length (glue pieces) + 2 <= IRC_MAX_MSG_LEN)%nat ->
  exists buf' res',
    relay_loop on_line on_log (length pieces + k)
      {| readbuf := buf; start := 0; mybuf := String.length pre;
         mylen := bufcap - Z.of_nat (String.length pre); res := res0 |}
      (pieces ++ sock) s
    = relay_loop on_line on_log k
        {| readbuf := buf'; start := 0; mybuf := String.length (pre +:+ glue pieces);
           mylen := bufcap - Z.of_nat (String.length (pre +:+ glue pieces)); res := res' |}
        sock s /\
    length buf' = Datatypes.S IRC_MAX_MSG_LEN /\
    take (String.length (pre +:+ glue pieces)) buf' = bytes (pre +:+ glue pieces).
Proof.
  revert pre buf res0. induction pieces as [|p ps IH]; intros pre buf res0 Hlen Hpre Hall Hfit.
  - exists buf, res0. cbn [glue length Nat.add app].
    replace (pre +:+ EmptyString) with pre
      by (clear; induction pre as [|a pre IHp]; [done|]; rewrite append_cons; by rewrite <- IHp).
    done.
  - apply Forall_cons in Hall as [[Hne Hp] Hall]. cbn [glue] in Hfit |- *.
    rewrite string_length_app in Hfit.
    destruct (relay_iter_incomplete on_line on_log buf pre p res0 (ps ++ sock) s Hlen Hpre Hne)
      as (rest & Hrun & Hlen1); [lia|intros; by apply strstr_crlf_text|].
    cbn [length Nat.add relay_loop app]. rewrite Hrun. cbn [rbind fst snd].
    destruct (IH (pre +:+ p) (bytes (pre +:+ p) ++ NUL :: rest) (Z.of_nat (String.length p)) Hlen1)
      as (buf' & res' & Hloop & Hlen' & Htake').
    + by rewrite <- (bytes_length (pre +:+ p)), take_app_length.
    + done.
    + rewrite string_length_app. lia.
    + exists buf', res'. rewrite <- append_assoc. done.
Qed.

(** X22: a line that arrives in pieces is handed on whole.  However
    many reads bring the text of a line, none of them empty or holding a
    CR, nothing is handed on before the read that brings the rest of the
    text and the CR LF; that read hands on the whole line, once, and
    leaves nothing pending. *)
Theorem line_in_pieces_is_handed_on_whole
    (pieces : list string) (t : string) (buf0 : list ascii) (res0 : Z)
    (sock : list string) (s : S) :
  length buf0 = Datatypes.S IRC_MAX_MSG_LEN ->
  Forall (fun p => p <> EmptyString /\ plain p) pieces ->
  plain t ->
  (String.length (glue pieces) + String.length t + 2 < IRC_MAX_MSG_LEN)%nat ->
  (exists r',
     relay_loop on_line on_log (length pieces) (relay_reset buf0 res0) (pieces ++ sock) s
       = Done (Some (r', sock), s)) /\
  exists b n,
    relay_loop on_line on_log (length pieces + 1) (relay_reset buf0 res0)
      (pieces ++ (t +:+ CRLF) :: sock) s
    = (do s' <- on_line (glue pieces +:+ t +:+ CRLF) s;
       Done (Some (relay_reset b n, sock), s')).
Proof.
  intros Hlen Hall Ht Hfit. rewrite relay_reset_shape. split.
  - destruct (relay_loop_pieces pieces 0 EmptyString buf0 res0 sock s Hlen)
      as (buf' & res' & Hloop & _); [done|done|cbn; lia|].
    rewrite Nat.add_0_r in Hloop. rewrite Hloop. cbn [relay_loop]. by eexists.
  - destruct (relay_loop_pieces pieces 1 EmptyString buf0 res0 ((t +:+ CRLF) :: sock) s Hlen)
      as (buf' & res' & Hloop & Hlen' & Htake'); [done|done|cbn; lia|].
    rewrite Hloop. cbn [relay_loop]. rewrite !append_nil in *.
    destruct (relay_iter_completes on_line on_log buf' (glue pieces) t res' sock s Hlen' Htake')
      as (b & Hrun & _); [by apply glue_plain|done|lia|].
    rewrite Hrun. exists b, (Z.of_nat (String.length (t +:+ CRLF))).
    by destruct (on_line _ s).
Qed.

End Pieces.

Lemma line_in_pieces_is_handed_on_whole_witness :
  (exists r',
     relay_loop (ext := Samples.sample_ext) Samples.keep_line Samples.keep_log
       (length ["PI"; "NG"; " :"]) (relay_reset (ext := Samples.sample_ext) (replicate 513 NUL) 0)
       (["PI"; "NG"; " :"] ++ []) []
       = Done (Some (r', []), [])) /\
  exists b n,
    relay_loop (ext := Samples.sample_ext) Samples.keep_line Samples.keep_log
      (length ["PI"; "NG"; " :"] + 1) (relay_reset (ext := Samples.sample_ext) (replicate 513 NUL) 0)
      (["PI"; "NG"; " :"] ++ ("x" +:+ CRLF) :: []) []
    = (do s' <- Samples.keep_line (glue ["PI"; "NG"; " :"] +:+ "x" +:+ CRLF) [];
       Done (Some (relay_reset (ext := Samples.sample_ext) b n, []), s')).
Proof.
  apply (line_in_pieces_is_handed_on_whole (ext := Samples.sample_ext)
           Samples.keep_line Samples.keep_log ["PI"; "NG"; " :"] "x" (replicate 513 NUL) 0 [] []).
  - reflexivity.
  - repeat constructor; done.
  - split; reflexivity.
  - vm_compute. lia.
Defined.

(** ** Making room in the buffer *)

Section Compaction.
Context {ext : Externals} {S : Type}.
Variable on_line : string -> S -> result S.
Variable on_log : log_entry -> S -> S.

(** The copying loop puts the pending text at [a] and leaves what is
    before [a] alone. *)
Lemma shift_loop_text (fuel : nat) (buf : list ascii) (a st : nat) :
  (a <= st)%nat ->
  (String.length (cstr (drop st buf)) <= fuel)%nat ->
  let t := cstr (drop st buf) in
  let out := shift_loop fuel buf a st in
  out.2 = (a + String.length t)%nat /\
  length out.1 = length buf /\
  ((a + String.length t <= length buf)%nat ->
   take (a + String.length t) out.1 = take a buf ++ bytes t).
Proof.
  revert buf a st. induction fuel as [|fuel IH]; intros buf a st Ha Hf; cbn zeta.
  - assert (Ht : cstr (drop st buf) = EmptyString) by (destruct (cstr _); [done|cbn in Hf; lia]).
    rewrite Ht. cbn. rewrite !Nat.add_0_r, app_nil_r. done.
  - cbn [shift_loop]. destruct (buf !! st) as [ch|] eqn:Hch.
    + rewrite (cstr_drop _ _ _ Hch) in Hf |- *.
      destruct (Ascii.eqb ch NUL) eqn:Hnul.
      * cbn. rewrite !Nat.add_0_r, app_nil_r. done.
      * cbn [String.length] in Hf.
        destruct (IH (<[a := ch]> buf) (Datatypes.S a) (Datatypes.S st)) as (H1 & H2 & H3);
          [lia|rewrite drop_insert_before by lia; lia|].
        rewrite drop_insert_before in H1, H3 by lia.
        rewrite length_insert in H2, H3.
        cbn [String.length]. split; [rewrite H1; lia|]. split; [done|].
        intros Hfit.
        replace (a + Datatypes.S (String.length (cstr (drop (Datatypes.S st) buf))))%nat
          with (Datatypes.S a + String.length (cstr (drop (Datatypes.S st) buf)))%nat by lia.
        rewrite H3 by lia.
        assert (Hlt : (a < length buf)%nat).
        { apply lookup_lt_Some in Hch. lia. }
        rewrite (take_S_r _ _ ch) by (apply list_lookup_insert_eq; lia).
        rewrite take_insert_ge by lia. rewrite <- (assoc_L (++)). done.
    + rewrite (cstr_drop_end _ _ Hch). cbn. rewrite !Nat.add_0_r, app_nil_r. done.
Qed.

(** X23: when at most one byte is free but the pending text does not
    fill the buffer, the text is moved to the front and nothing of it is
    lost: the rest of the line, arriving next with its CR LF, is handed
    on behind it as one line, no error is logged, and the reader starts
    afresh. *)
Theorem pending_text_survives_compaction
    (r : relay) (t2 : string) (sock : list string) (s : S) :
  length (readbuf r) = Datatypes.S IRC_MAX_MSG_LEN ->
  mylen r <= 1 ->
  plain (pending r) ->
  plain t2 ->
  (String.length (pending r) + String.length t2 + 2 < IRC_MAX_MSG_LEN)%nat ->
  exists b n,
    relay_iter on_line on_log r ((t2 +:+ CRLF) :: sock) s
    = (do s' <- on_line (pending r +:+ t2 +:+ CRLF) s;
       Done (Some (relay_reset b n, sock), s')).
Proof.
  intros Hsize Hlen Hpl Hpl2 Hfit. unfold pending in *.
  set (t := cstr (drop (start r) (readbuf r))) in *.
  destruct (shift_loop_text (length (readbuf r)) (readbuf r) 0 (start r)) as (Ha & Hlb & Htake);
    [lia|etrans; [apply cstr_length_le|]; rewrite length_drop; lia|].
  fold t in Ha, Htake. cbn [Nat.add] in Ha, Htake. rewrite take_0 in Htake. cbn [app] in Htake.
  set (sh := shift_loop (length (readbuf r)) (readbuf r) 0 (start r)) in *.
  set (buf2 := <[String.length t := NUL]> sh.1).
  set (r' := {| readbuf := buf2; start := 0; mybuf := String.length t;
                mylen := bufcap - Z.of_nat (String.length t); res := res r |}).
  assert (Hbegin : relay_begin on_log r s = (r', s)).
  { unfold relay_begin. destruct (Z.leb_spec (mylen r) 1) as [_|]; [|lia].
    fold sh. destruct sh as [b0 a0] eqn:Hsh. cbn [fst snd] in *. subst a0.
    unfold bufcap. destruct (Z.leb_spec (Z.of_nat IRC_MAX_MSG_LEN - Z.of_nat (String.length t)) 1);
      [lia|]. done. }
  assert (Hbegin' : relay_begin on_log r' s = (r', s)).
  { unfold relay_begin, r', bufcap. cbn [mylen].
    destruct (Z.leb_spec (Z.of_nat IRC_MAX_MSG_LEN - Z.of_nat (String.length t)) 1); [lia|done]. }
  assert (Hsame : relay_iter on_line on_log r ((t2 +:+ CRLF) :: sock) s
                  = relay_iter on_line on_log r' ((t2 +:+ CRLF) :: sock) s).
  { unfold relay_iter. rewrite Hbegin, Hbegin'. cbn [res irc_poll Z.leb Z.compare].
    by destruct (negb (res r =? bufcap)), (negb (res r' =? bufcap)). }
  rewrite Hsame.
  destruct (relay_iter_completes on_line on_log buf2 t t2 (res r) sock s) as (b & Hrun & _).
  - unfold buf2. rewrite length_insert. lia.
  - unfold buf2. rewrite take_insert_ge by lia. apply Htake. lia.
  - apply Hpl.
  - done.
  - done.
  - exists b, (Z.of_nat (String.length (t2 +:+ CRLF))). exact Hrun.
Qed.

End Compaction.

Lemma pending_text_survives_compaction_witness :
  exists b n,
    relay_iter (ext := Samples.sample_ext) Samples.keep_line Samples.keep_log
      MoreSamples.full_reader (("NG :x" +:+ CRLF) :: []) []
    = (do s' <- Samples.keep_line (pending MoreSamples.full_reader +:+ "NG :x" +:+ CRLF) [];
       Done (Some (relay_reset (ext := Samples.sample_ext) b n, []), s')).
Proof.
  apply (pending_text_survives_compaction (ext := Samples.sample_ext)
           Samples.keep_line Samples.keep_log MoreSamples.full_reader "NG :x" [] []).
  - reflexivity.
  - cbn. lia.
  - split; reflexivity.
  - split; reflexivity.
  - vm_compute. lia.
Defined.

(** ** Sessions *)

Section Sessions.

Lemma session_frame_refl (c : Z) (st : door) : session_frame c st st.
Proof.
  repeat split; try done.
  - intros cl Hcl. by exists cl.
  - intros b. by left.
Qed.

Lemma session_frame_trans (c : Z) (st1 st2 st3 : door) :
  session_frame c st1 st2 -> session_frame c st2 st3 -> session_frame c st1 st3.
Proof.
  intros (Hu1 & Hc1 & Hl1 & Ho1 & Hm1 & Hp1) (Hu2 & Hc2 & Hl2 & Ho2 & Hm2 & Hp2).
  split; [congruence|]. split; [congruence|]. split; [congruence|].
  split; [intros b Hb; rewrite Ho2, Ho1; done|].
  split.
  - intros cl Hcl. destruct (Hm1 cl Hcl) as (cl2 & Hcl2 & Hps2 & Hn2).
    destruct (Hm2 cl2 Hcl2) as (cl3 & Hcl3 & Hps3 & Hn3).
    exists cl3. split; [done|]. split; congruence.
  - intros b. destruct (Hp1 b) as [He1|(p & p' & Hp & Hp' & Hs1)];
      destruct (Hp2 b) as [He2|(q & q' & Hq & Hq' & Hs2)].
    + left. congruence.
    + right. exists q, q'. rewrite <- He1. done.
    + right. exists p, p'. rewrite He2. done.
    + right. rewrite Hp' in Hq. injection Hq as <-. exists p, q'.
      split; [done|]. split; [done|]. by eapply same_but_queue_trans.
Qed.

Lemma session_frame_log (c : Z) (st : door) (lg : list log_entry) :
  session_frame c st (add_log st lg).
Proof. apply (session_frame_refl c st). Qed.

Lemma session_frame_participant (c : Z) (st : door) (a : Z) (p p' : participant) :
  part_mem st !! a = Some p -> same_but_queue p p' ->
  session_frame c st (set_participant st a p').
Proof.
  intros Hp Hs. repeat split; try done.
  - intros cl Hcl. by exists cl.
  - intros b. destruct (decide (b = a)) as [->|Hne].
    + right. exists p, p'. cbn. by rewrite lookup_insert_eq.
    + left. cbn. by rewrite lookup_insert_ne.
Qed.

Lemma chat_send_frame (env : chat_env) (st : door) (c : Z) (sender : option Z)
    (chan : option string) (dorelay : bool) (text : string) (r : Z) (st' : door) :
  _chat_send env st c sender chan dorelay text = Done (r, st') ->
  session_frame c st st'.
Proof.
  unfold _chat_send.
  destruct (vasprintf_ok env).
  2:{ intros [= _ <-]. apply session_frame_log. }
  unfold __chat_send. cbv zeta.
  set (d := strftime_buf env 18 chat_datefmt).
  assert (Hassert : exists lg0, bbs_assert (Z.of_nat (String.length d) =? 17) "timelen == 17" st
                                = add_log st lg0).
  { unfold bbs_assert. destruct (_ =? 17); [exists []|eauto].
    destruct st; unfold add_log; cbn. by rewrite app_nil_r. }
  destruct Hassert as [lg0 ->].
  change (client_mem (add_log st lg0) !! c) with (client_mem st !! c).
  destruct (client_mem st !! c) as [cl|] eqn:Hcl; cbn [deref rbind]; [|done].
  assert (Hdbg : forall k : door -> result (Z * door),
    (forall lg, k (add_log st lg) = Done (r, st') -> session_frame c st st') ->
    (do st0 <-
       match sender with
       | Some s =>
           do sp <- deref (part_mem (add_log st lg0) !! s);
           Done (add_log (add_log st lg0)
                   [bbs_debug ("Broadcasting to " +:+ name cl +:+ "," +:+ fmt_s chan
                     +:+ " (except node " +:+ pretty (node_id (node sp)) +:+ "): "
                     +:+ d +:+ str_take (Z.to_nat (Z.of_nat (String.length text))) text)])
       | None =>
           Done (add_log (add_log st lg0)
                   [bbs_debug ("Broadcasting to " +:+ name cl +:+ "," +:+ fmt_s chan
                     +:+ ": " +:+ d +:+ str_take (Z.to_nat (Z.of_nat (String.length text))) text)])
       end; k st0) = Done (r, st') -> session_frame c st st').
  { intros k Hk. destruct sender as [s|].
    - destruct (part_mem (add_log st lg0) !! s) as [sp|]; cbn [deref rbind]; [|done].
      intros H. eapply (Hk (lg0 ++ _)). rewrite <- H. f_equal.
      destruct st; unfold add_log; cbn. by rewrite <- app_assoc.
    - cbn [rbind]. intros H. eapply (Hk (lg0 ++ _)). rewrite <- H. f_equal.
      destruct st; unfold add_log; cbn. by rewrite <- app_assoc. }
  apply Hdbg. intros lg.
  assert (Hsend : exists st1,
    (if dorelay then client_send (add_log st lg) c (OutMsg chan text)
     else Done (add_log st lg)) = Done st1 /\
    session_frame c st st1 /\ part_mem st1 = part_mem st).
  { destruct dorelay.
    - unfold client_send. cbn. rewrite Hcl. cbn. eexists. split; [reflexivity|]. split; [|done].
      repeat split; try done.
      + intros b Hb. cbn. by rewrite lookup_insert_ne.
      + intros cl0 Hcl0. rewrite Hcl in Hcl0. injection Hcl0 as <-.
        eexists. cbn. rewrite lookup_insert_eq. done.
      + intros b. by left.
    - eexists. split; [reflexivity|]. split; [apply session_frame_log|done]. }
  destruct Hsend as (st1 & -> & Hf1 & Hpm1). cbn [rbind].
  destruct (chat_send_walk (participants cl) sender chan d (Z.of_nat (String.length d)) text
              (Z.of_nat (String.length text)) (res_indeterminate env) st1)
    as [st2| |] eqn:Hw; cbn [rbind]; [|done..].
  intros [= _ <-].
  eapply session_frame_trans; [exact Hf1|].
  pose proof (chat_send_walk_locked _ _ _ _ _ _ _ _ _ _ Hw) as Hlk.
  apply chat_send_walk_effect in Hw as (Hcm & Hu & Hcs & Hb).
  split; [done|]. split; [done|]. split; [done|].
  split; [intros b _; by rewrite Hcm|].
  split; [intros cl0 Hcl0; exists cl0; by rewrite Hcm|].
  intros a. destruct (Hb a) as [Heq|(_ & _ & p & p' & Hp & Hp' & Hsame & _)]; [by left|].
  right. by exists p, p'.
Qed.

Lemma pipe_read_same (p : participant) (n : nat) (r : Z) (got : string) (p' : participant) :
  pipe_read p n = Done (r, got, p') -> same_but_queue p p'.
Proof.
  unfold pipe_read. destruct (negb (chatpipe0 p)); [intros [= _ _ <-]; apply same_but_queue_refl|].
  destruct (chatpipe_data p).
  - destruct (chatpipe1 p); [done|]. intros [= _ _ <-]. apply same_but_queue_refl.
  - intros [= _ _ <-]. by repeat split.
Qed.

Lemma session_loop_frame (evs : list session_event) (st : door) (c a : Z) (nd : bbs_node)
    (chan : string) (out : list term_out) (r : Z) (st' : door) (out' : list term_out) :
  session_loop evs st c a nd chan out = Done (r, st', out') ->
  session_frame c st st'.
Proof.
  revert st out. induction evs as [|ev evs IH]; intros st out; cbn [session_loop]; [done|].
  destruct (poll_res ev <? 0); [intros [= _ <- _]; apply session_frame_refl|].
  destruct (poll_res ev =? 1).
  { destruct (read_res ev <=? 0); [intros [= _ <- _]; apply session_frame_refl|].
    destruct (Ascii.eqb (read_char ev) LF); [apply IH|].
    destruct (line_res ev <=? 0); [intros [= _ <- _]; apply session_frame_refl|].
    destruct (STARTS_WITH _ "/quit"); [intros [= _ <- _]; apply session_frame_refl|].
    match goal with |- context [chat_send ?e ?s0 c ?sd ?ch ?tx] =>
      destruct (chat_send e s0 c sd ch tx) as [st1| |] eqn:Hs; cbn [rbind]; [|done..];
      assert (Hf : session_frame c st st1)
    end.
    { unfold chat_send in Hs.
      match type of Hs with context [_chat_send ?e ?s0 c ?sd ?ch ?dr ?tx] =>
        destruct (_chat_send e s0 c sd ch dr tx) as [[r1 st1']| |] eqn:Hs'; cbn [rbind] in Hs;
          [|done..]
      end.
      injection Hs as <-. apply chat_send_frame in Hs'.
      destruct (bool_decide _) in Hs'; [done|].
      eapply session_frame_trans; [apply (session_frame_log c st)|exact Hs']. }
    intros Hrest. apply IH in Hrest. by eapply session_frame_trans. }
  destruct (poll_res ev =? 2); [|apply IH].
  destruct (part_mem st !! a) as [p|] eqn:Hp; cbn [deref rbind]; [|done].
  destruct (pipe_read p 383) as [[[r1 got] p']| |] eqn:Hrd; cbn [rbind]; [|done..].
  apply pipe_read_same in Hrd.
  pose proof (session_frame_participant c st a p p' Hp Hrd) as Hf.
  destruct (r1 <=? 0); [by intros [= _ <- _]|].
  destruct (writef_res ev <? 0); [by intros [= _ <- _]|].
  destruct (strcasestr got (node_user nd)).
  - destruct (bell_res ev <? 0).
    + intros [= _ <- _]. eapply session_frame_trans; [exact Hf|apply session_frame_log].
    + intros Hrest. apply IH in Hrest.
      eapply session_frame_trans; [exact Hf|].
      eapply session_frame_trans; [apply session_frame_log|exact Hrest].
  - intros Hrest. apply IH in Hrest. by eapply session_frame_trans.
Qed.

Lemma join_client_found (st : door) (nd : bbs_node) (nm : string) (pre post : list Z)
    (c a : Z) (cl : client_t) :
  clients_locked st = false ->
  clients st = pre ++ c :: post ->
  (forall b, b ∈ pre ->
     exists bl, client_mem st !! b = Some bl /\ strcaseeq (name bl) nm = false) ->
  client_mem st !! c = Some cl ->
  strcaseeq (name cl) nm = true ->
  join_client (Some a) true st nd nm =
    Done (Some a,
          set_client_mem
            (set_part_mem st
               (<[a := {| node := nd; client := c; channel := None; chatpipe0 := true;
                          chatpipe1 := true; chatpipe_data := EmptyString |}]> (part_mem st)))
            (<[c := set_participants cl (a :: participants cl)]> (client_mem st))).
Proof.
  intros Hl Hcs Hpre Hc Hn.
  unfold join_client, wrlock. rewrite Hl. cbn [rbind].
  rewrite find_client_locked, (find_client_first st nm pre post c cl Hcs Hpre Hc Hn).
  cbn [rbind]. cbn [client_mem set_locked]. rewrite Hc. cbn [deref rbind].
  do 2 f_equal. destruct st; cbn in *. by subst.
Qed.

Lemma nonempty_not_zero (s : string) : s <> EmptyString -> strlen_zero (Some s) = false.
Proof. by destruct s. Qed.

(** X24: a session that ends leaves nothing behind.  Entered with a
    client name and a channel, for the first client of that name, with a
    fresh participant and a pipe, the door's entry point, whatever the
    terminal and the broadcasts did in between, returns with the
    participant freed, the client's list as it was before the join, the
    lock released, and nothing else changed but messages sent on that
    client's connection and bytes queued in the pipes of others. *)
Theorem session_that_ends_leaves_nothing_behind
    (env_join env_left : chat_env) (evs : list session_event)
    (st : door) (nd : bbs_node) (cname chan : string) (pre post : list Z)
    (c a : Z) (cl : client_t) (r : Z) (st' : door) (out : list term_out) :
  clients_locked st = false ->
  unloading st = false ->
  clients st = pre ++ c :: post ->
  (forall b, b ∈ pre ->
     exists bl, client_mem st !! b = Some bl /\ strcaseeq (name bl) cname = false) ->
  client_mem st !! c = Some cl ->
  strcaseeq (name cl) cname = true ->
  part_mem st !! a = None ->
  free_of "," cname -> cname <> EmptyString -> chan <> EmptyString ->
  (String.length (cname +:+ String "," chan) <= 83)%nat ->
  irc_client_exec (Some a) true env_join env_left evs st nd (Some (cname +:+ String "," chan))
    = Done (r, st', out) ->
  session_frame c st st' /\ part_mem st' !! a = None /\ clients_locked st' = false.
Proof.
  intros Hl Hu Hcs Hpre Hc Hn Ha Hfree Hcn Hch Hlen.
  unfold irc_client_exec.
  rewrite nonempty_not_zero by (by destruct cname).
  cbn [default]. unfold id. rewrite str_take_all by done.
  rewrite (strsep_app cname "," chan Hfree).
  rewrite !nonempty_not_zero by done. cbn [orb default]. unfold id.
  rewrite (join_client_found st nd cname pre post c a cl Hl Hcs Hpre Hc Hn).
  cbn [rbind fst snd].
  set (p0 := {| node := nd; client := c; channel := None; chatpipe0 := true;
                chatpipe1 := true; chatpipe_data := EmptyString |}).
  set (st1 := set_client_mem (set_part_mem st (<[a := p0]> (part_mem st)))
                (<[c := set_participants cl (a :: participants cl)]> (client_mem st))).
  unfold assign_channel.
  assert (Hp1 : part_mem st1 !! a = Some p0) by apply lookup_insert_eq.
  rewrite Hp1. cbn [deref rbind].
  set (p2 := {| node := node p0; client := client p0; channel := Some chan;
                chatpipe0 := chatpipe0 p0; chatpipe1 := chatpipe1 p0;
                chatpipe_data := chatpipe_data p0 |}).
  set (st2 := set_participant st1 a p2).
  assert (Hp2 : part_mem st2 !! a = Some p2) by apply lookup_insert_eq.
  assert (Hc2 : client_mem st2 !! c = Some (set_participants cl (a :: participants cl)))
    by apply lookup_insert_eq.
  unfold participant_relay. rewrite Hp2. cbn [deref rbind].
  change (client p2) with c. change (node p2) with nd.
  match goal with |- context [chat_send env_join st2 c None ?ch ?tx] =>
    destruct (chat_send env_join st2 c None ch tx) as [st3| |] eqn:Hj; cbn [rbind]; [|done..]
  end.
  destruct (session_loop evs st3 c a nd chan [TermClear; TermUnbuffer])
    as [[[r4 st4] out4]| |] eqn:Hloop; cbn [rbind]; [|done..].
  match goal with |- context [chat_send env_left st4 c None ?ch ?tx] =>
    destruct (chat_send env_left st4 c None ch tx) as [st5| |] eqn:Hlf; cbn [rbind]; [|done..]
  end.
  assert (Hf25 : session_frame c st2 st5).
  { unfold chat_send in Hj, Hlf.
    destruct (_chat_send env_join st2 c None _ true _) as [[r3 st3']| |] eqn:Hj';
      cbn [rbind] in Hj; [|done..]. injection Hj as <-.
    destruct (_chat_send env_left st4 c None _ true _) as [[r5 st5']| |] eqn:Hlf';
      cbn [rbind] in Hlf; [|done..]. injection Hlf as <-.
    apply chat_send_frame in Hj', Hlf'. apply session_loop_frame in Hloop.
    eapply session_frame_trans; [exact Hj'|]. by eapply session_frame_trans. }
  clear Hj Hloop Hlf.
  destruct Hf25 as (Hu5 & Hcs5 & Hl5 & Ho5 & Hm5 & Hp5).
  destruct (Hm5 _ Hc2) as (cl5 & Hcl5 & Hps5 & Hn5).
  assert (Ha5 : exists p5, part_mem st5 !! a = Some p5 /\ client p5 = c).
  { destruct (Hp5 a) as [Heq|(q & q' & Hq & Hq' & Hs)].
    - exists p2. by rewrite Heq.
    - rewrite Hp2 in Hq. injection Hq as <-. exists q'. split; [done|].
      by destruct Hs as (_ & -> & _). }
  destruct Ha5 as (p5 & Ha5 & Hcp5). rewrite Ha5. cbn [deref rbind]. rewrite Hcp5.
  unfold leave_client, wrlock.
  replace (clients_locked st5) with false by (by rewrite Hl5).
  cbn [rbind]. cbn [unloading set_locked client_mem part_mem].
  replace (unloading st5) with false by (by rewrite Hu5).
  rewrite Hcl5. cbn [deref rbind]. rewrite Hps5. cbn [participants set_participants remove_first].
  rewrite decide_True by done. rewrite Ha5. cbn [deref rbind].
  intros [= _ <- _].
  split; [|split; [cbn; apply lookup_delete_eq|done]].
  split; [cbn; by rewrite Hu5|]. split; [cbn; by rewrite Hcs5|]. split; [by cbn|].
  split; [|split].
  - intros b Hb. cbn. rewrite lookup_insert_ne by done. rewrite Ho5 by done.
    cbn. by rewrite lookup_insert_ne.
  - intros cl0 Hcl0. rewrite Hc in Hcl0. injection Hcl0 as <-.
    eexists. cbn. rewrite lookup_insert_eq. split; [done|]. by split.
  - intros b. destruct (decide (b = a)) as [->|Hne].
    + left. cbn. by rewrite lookup_delete_eq, Ha.
    + assert (H2 : part_mem st2 !! b = part_mem st !! b).
      { cbn. by rewrite !lookup_insert_ne. }
      cbn. rewrite lookup_delete_ne by done.
      destruct (Hp5 b) as [Heq|(q & q' & Hq & Hq' & Hs)].
      * left. by rewrite Heq.
      * right. exists q, q'. by rewrite <- H2.
Qed.

(** X25: the door's entry point refuses arguments that do not name a
    client and a channel: no arguments, no comma within the 83
    characters kept, nothing before the comma, or nothing after it.  It
    returns 0 having logged an error, without writing to the terminal,
    without joining and without even taking the lock of the registry. *)
Theorem exec_refuses_arguments_without_client_and_channel
    (calloc : option Z) (pipe_ok : bool) (env_join env_left : chat_env)
    (evs : list session_event) (st : door) (nd : bbs_node) (args : option string) :
  args = None \/
  (exists a, args = Some a /\ free_of "," (str_take 83 a)) \/
  (exists rest, args = Some (String "," rest)) \/
  (exists cname, args = Some (cname +:+ ",") /\ free_of "," cname /\
                 (String.length cname < 83)%nat) ->
  exists e,
    irc_client_exec calloc pipe_ok env_join env_left evs st nd args
      = Done (0, add_log st [e], []) /\
    is_error e.
Proof.
  unfold irc_client_exec.
  intros [->|[(a & -> & Hfree)|[(rest & ->)|(cname & -> & Hfree & Hlen)]]].
  - by eexists.
  - destruct (strlen_zero (Some a)); [by eexists|].
    cbn [default]. unfold id. rewrite (strsep_free _ _ Hfree). by eexists.
  - cbn [strlen_zero default]. unfold id. cbn [str_take strsep].
    rewrite Ascii.eqb_refl. cbn [strlen_zero].
    rewrite orb_true_r. by eexists.
  - destruct (strlen_zero (Some (cname +:+ ","))); [by eexists|].
    cbn [default]. unfold id.
    rewrite str_take_all by (rewrite string_length_app; cbn; lia).
    rewrite (strsep_app cname "," EmptyString Hfree). by eexists.
Qed.

Lemma exec_refuses_arguments_without_client_and_channel_witness :
  exists e,
    irc_client_exec None true (Samples.sample_env 0) (Samples.sample_env 0) []
      Samples.net1_loaded Samples.alice (Some "net1")
      = Done (0, add_log Samples.net1_loaded [e], []) /\
    is_error e.
Proof.
  apply (exec_refuses_arguments_without_client_and_channel None true (Samples.sample_env 0)
           (Samples.sample_env 0) [] Samples.net1_loaded Samples.alice (Some "net1")).
  right. left. exists "net1". split; reflexivity.
Defined.

Lemma session_that_ends_leaves_nothing_behind_witness :
  session_frame 10 Samples.net1_loaded (MoreSamples.session_door MoreSamples.alice_session) /\
  part_mem (MoreSamples.session_door MoreSamples.alice_session) !! 500 = None /\
  clients_locked (MoreSamples.session_door MoreSamples.alice_session) = false.
Proof.
  eapply (session_that_ends_leaves_nothing_behind (Samples.sample_env 0) (Samples.sample_env 0)
            [MoreSamples.quit_event] Samples.net1_loaded Samples.alice "net1" "#lobby"
            [] [] 10 500 _ 6 _ [TermClear; TermUnbuffer; TermWrite "/"; TermBuffer]).
  - reflexivity.
  - reflexivity.
  - reflexivity.
  - intros b Hb. by apply elem_of_nil in Hb.
  - reflexivity.
  - reflexivity.
  - reflexivity.
  - reflexivity.
  - discriminate.
  - discriminate.
  - vm_compute. lia.
  - vm_compute. reflexivity.
Defined.

End Sessions.

(** ** A session that outlives the module *)

Section AfterUnload.



End AfterUnload.

(** ** Unloading too early, and unloading that waits *)

Section UnloadEarly.

(** X27: unloading before the clients have been started.  The thread of
    a client is only set when the client is started: at the first
    client of the registry that never was, the unload, having booted its
    participants, cancels a thread that does not exist and goes no
    further. *)
Theorem unload_of_a_client_never_started_dies
    (unreg : Z) (joins : Z -> Thread.join_env) (tl : list Thread.thread_list_t) (st : door)
    (c : Z) (cs : list Z) (cl : client_t) :
  clients_locked st = false ->
  clients st = c :: cs ->
  client_mem st !! c = Some cl ->
  (forall a, a ∈ participants cl -> is_Some (part_mem st !! a)) ->
  thread cl = None ->
  unload_module unreg joins tl st = Fault.
Proof.
  intros Hl Hcs Hcl Hps Ht. unfold unload_module, wrlock. rewrite Hl. cbn [rbind].
  change (clients (set_unloading (set_locked st true) true)) with (clients st). rewrite Hcs.
  cbn [unload_clients]. change (client_mem (set_unloading (set_locked st true) true))
    with (client_mem st). rewrite Hcl. cbn [deref rbind].
  destruct (boot_participants_spec (participants cl) (part_mem st) Hps) as (m & Hm & _).
  change (part_mem (set_unloading (set_locked st true) true)) with (part_mem st).
  rewrite Hm. cbn [rbind]. by rewrite Ht.
Qed.

Lemma unload_of_a_client_never_started_dies_witness :
  unload_module 0 Samples.relay_joins [] Samples.net1_loaded = Fault.
Proof.
  eapply (unload_of_a_client_never_started_dies 0 Samples.relay_joins [] Samples.net1_loaded
            10 []).
  - reflexivity.
  - reflexivity.
  - reflexivity.
  - intros a Ha. by apply elem_of_nil in Ha.
  - reflexivity.
Defined.

(** X28: the unload waits for the relay thread.  When the thread of the
    first client is registered, joinable and not yet waiting to be
    joined, and every timed join of it times out, the unload does not
    return: it stays in the join with the lock of the registry held. *)
Theorem unload_waits_for_the_relay_thread
    (unreg : Z) (joins : Z -> Thread.join_env) (tl : list Thread.thread_list_t) (st : door)
    (c : Z) (cs : list Z) (cl : client_t) (t : Z) (x : Thread.thread_list_t) (k : nat) :
  clients_locked st = false ->
  clients st = c :: cs ->
  client_mem st !! c = Some cl ->
  (forall a, a ∈ participants cl -> is_Some (part_mem st !! a)) ->
  thread cl = Some t ->
  Thread.find_thread tl t = Some x ->
  Thread.detached x = false ->
  Thread.waitingjoin x = false ->
  0 < Thread.lwp x ->
  Thread.join_results (joins t) = replicate k Thread.ETIMEDOUT ->
  unload_module unreg joins tl st = Blocked.
Proof.
  intros Hl Hcs Hcl Hps Ht Hf Hd Hw Hlwp Hres.
  unfold unload_module, wrlock. rewrite Hl. cbn [rbind].
  change (clients (set_unloading (set_locked st true) true)) with (clients st). rewrite Hcs.
  cbn [unload_clients]. change (client_mem (set_unloading (set_locked st true) true))
    with (client_mem st). rewrite Hcl. cbn [deref rbind].
  destruct (boot_participants_spec (participants cl) (part_mem st) Hps) as (m & Hm & _).
  change (part_mem (set_unloading (set_locked st true) true)) with (part_mem st).
  rewrite Hm. cbn [rbind]. rewrite Ht. cbn [deref rbind].
  assert (Hnone : Thread.__bbs_pthread_join tl t (joins t) = None).
  { destruct (joins t) as [rs now]. cbn in Hres. subst rs. destruct k as [|k].
    - unfold Thread.__bbs_pthread_join. rewrite Hf, Hd.
      destruct (Z.eqb_spec (Thread.lwp x) 0) as [|_]; [lia|]. done.
    - by destruct (timed_out_join_warns_and_retries tl t x k [] now Hf Hd Hw Hlwp) as (Hspin & _). }
  unfold join_relay_thread. by rewrite Hnone.
Qed.

Lemma unload_waits_for_the_relay_thread_witness :
  unload_module 0 (fun _ => {| Thread.join_results := replicate 5 Thread.ETIMEDOUT;
                               Thread.join_now := 200 |})
    [Samples.relay_thread] Samples.alice_joined = Blocked.
Proof.
  eapply (unload_waits_for_the_relay_thread 0 _ [Samples.relay_thread] Samples.alice_joined
            10 [] _ 7 Samples.relay_thread 5).
  - reflexivity.
  - reflexivity.
  - reflexivity.
  - intros a Ha. apply list_elem_of_singleton in Ha as ->. by eexists.
  - reflexivity.
  - reflexivity.
  - reflexivity.
  - reflexivity.
  - cbn. lia.
  - reflexivity.
Defined.

End UnloadEarly.

(** ** The log setting of a section *)

Section LogSetting.
Context {ext : Externals}.


End LogSetting.

